(** * Element profiling and selector synthesis: the tagger script

    A shallow embedding of [tagger.js] (version 4.0, the context-aware
    tagger, with version 3.0 where the two agree) and the properties its
    design document states about it.

    The program:
    - [StabilityGate]: the promise executor that waits for the document to
      stop changing (two timers and a mutation observer), as a state record
      and the handlers of its three callbacks, run by an event loop over a
      schedule of mutation times.
    - [Js]: the string operations of the script, over sequences of UTF-16
      code units, and objects used as maps.
    - [Dom]: an in-memory document tree with the navigation the script uses.
    - [Tagger]: [performTagging] and its helper functions, over a query
      engine taken as a parameter.
    - [MiniDom]: a query engine for the selector dialect the script emits,
      used to run the script on concrete documents.

    The properties:
    - [Design], [Notions], [Pages]: the wording of the design document,
      the notions the statements use, and the documents they are run on.
    - [GateFacts], [SynthesizerFacts], [DocumentFacts], [ScanFacts],
      [ExpanderFacts], [ModelFacts]: the proofs.

    Further properties of the code, which the design document does not
    state:
    - [TaggerV3], [ScanV3]: what version 3.0 ([src/utils/tagger.js]) does
      differently, and its step 1;
      [Unused]: the uniqueness heuristic version 4.0 defines and never calls.
    - [GateRunFacts]: how often the scan runs and what the gate leaves
      pending; [CollectorFacts]: what the collector returns;
      [RescanFacts], [NumberingFacts], [CompletionFacts], [BodylessFacts],
      [SelectorFacts], [EntryFacts]: the scan as a whole; [TextFacts], [AttributeFacts],
      [SiblingFacts], [PathFacts], [QuotingFacts]: the helper functions;
      [VersionFacts], [ScanV3Facts]: version 3.0 against version 4.0. *)

From Stdlib Require Import ZArith NArith QArith List Bool Lia.
From Stdlib Require Import Ascii String DecimalString.
From Stdlib Require DecimalN.
Import ListNotations.

Set Warnings "-register-all".

Close Scope Q_scope.

(* ================================================================= *)
(** ** The stability gate *)

Module StabilityGate.

Local Open Scope Z_scope.

(** The state the executor's closures share.  A timer is the time it is due
    at while it is pending, and [None] once it has fired or was cleared (or
    was never set).  [resolvedAt] is the time of the call of [resolve] that
    fulfilled the promise, and [rejected] says that the executor threw, which
    rejects the promise as the gate starts: a promise settles once, later
    calls of [resolve] change nothing.  [taggingRuns] lists the times
    [performTagging] ran at, oldest first. *)
Record Gate : Type := mkGate {
  stabilityTimer : option Z;
  maxWaitTimer : option Z;
  observing : bool;
  resolvedAt : option Z;
  rejected : bool;
  taggingRuns : list Z
}.

(** [resolve(performTagging())] at time [now]: the argument is evaluated,
    so the scan runs, and then the promise is fulfilled if it has not
    settled yet. *)
Definition resolveWithTagging (now : Z) (g : Gate) : Gate :=
  {| stabilityTimer := stabilityTimer g;
     maxWaitTimer := maxWaitTimer g;
     observing := observing g;
     resolvedAt := match resolvedAt g with
                   | Some t => Some t
                   | None => if rejected g then None else Some now
                   end;
     rejected := rejected g;
     taggingRuns := taggingRuns g ++ [now] |}.

(** The executor body, run at time 0: [maxWaitTimer = setTimeout(.., 3000)],
    then [observer.observe(document.body, ..)], then
    [stabilityTimer = setTimeout(.., 300)].  [hasBody] says that
    [document.body] is not [null].  When it is [null], [observe] throws a
    [TypeError]: the executor ends there, with the failsafe timer set, the
    observer not observing and the debounce timer never set, and the
    promise is rejected. *)
Definition start (hasBody : bool) : Gate :=
  if hasBody then
    {| stabilityTimer := Some 300;
       maxWaitTimer := Some 3000;
       observing := true;
       resolvedAt := None;
       rejected := false;
       taggingRuns := [] |}
  else
    {| stabilityTimer := None;
       maxWaitTimer := Some 3000;
       observing := false;
       resolvedAt := None;
       rejected := true;
       taggingRuns := [] |}.

(** The failsafe callback: [observer.disconnect()], then
    [resolve(performTagging())].  It clears no timer. *)
Definition onMaxWait (now : Z) (g : Gate) : Gate :=
  resolveWithTagging now
    {| stabilityTimer := stabilityTimer g;
       maxWaitTimer := None;
       observing := false;
       resolvedAt := resolvedAt g;
       rejected := rejected g;
       taggingRuns := taggingRuns g |}.

(** The debounce callback (the one set at the start and the one a mutation
    sets have the same body): [clearTimeout(maxWaitTimer)],
    [observer.disconnect()], [resolve(performTagging())]. *)
Definition onStability (now : Z) (g : Gate) : Gate :=
  resolveWithTagging now
    {| stabilityTimer := None;
       maxWaitTimer := None;
       observing := false;
       resolvedAt := resolvedAt g;
       rejected := rejected g;
       taggingRuns := taggingRuns g |}.

(** The observer callback: [clearTimeout(stabilityTimer)] and a new
    [setTimeout(.., 300)]. *)
Definition onMutation (now : Z) (g : Gate) : Gate :=
  {| stabilityTimer := Some (now + 300);
     maxWaitTimer := maxWaitTimer g;
     observing := observing g;
     resolvedAt := resolvedAt g;
     rejected := rejected g;
     taggingRuns := taggingRuns g |}.

Inductive Callback : Type := StabilityCallback | MaxWaitCallback.

(** The pending timer the event loop runs next: the one due first, and of
    two due at the same time the one that was set first, which is the
    failsafe (it is set before any debounce timer). *)
Definition nextTimer (g : Gate) : option (Z * Callback) :=
  match stabilityTimer g, maxWaitTimer g with
  | Some d, Some x => if d <? x then Some (d, StabilityCallback)
                      else Some (x, MaxWaitCallback)
  | Some d, None => Some (d, StabilityCallback)
  | None, Some x => Some (x, MaxWaitCallback)
  | None, None => None
  end.

Definition fire (due : Z) (cb : Callback) (g : Gate) : Gate :=
  match cb with
  | StabilityCallback => onStability due g
  | MaxWaitCallback => onMaxWait due g
  end.

Section EventLoop.

(** When a timer is due at the very time a mutation record is delivered,
    the event loop may run either first.  [timersFirst] fixes that order;
    every result below holds for both. *)
Variable timersFirst : bool.

(** The timer due at [due] runs before the mutation delivered at [m]. *)
Definition dueBefore (due m : Z) : bool :=
  if timersFirst then due <=? m else due <? m.

Definition fireNextBefore (m : Z) (g : Gate) : Gate :=
  match nextTimer g with
  | Some (due, cb) => if dueBefore due m then fire due cb g else g
  | None => g
  end.

(** At most two timers are pending and no callback sets a timer, so two
    rounds run every timer due before [m]. *)
Definition runTimersBefore (m : Z) (g : Gate) : Gate :=
  fireNextBefore m (fireNextBefore m g).

Definition fireNext (g : Gate) : Gate :=
  match nextTimer g with
  | Some (due, cb) => fire due cb g
  | None => g
  end.

(** After the last mutation the loop runs whatever is still pending. *)
Definition drain (g : Gate) : Gate := fireNext (fireNext g).

(** The event loop over a schedule of mutation times (in delivery order). A
    mutation reaches the callback only while the observer is connected. *)
Fixpoint deliver (muts : list Z) (g : Gate) : Gate :=
  match muts with
  | [] => drain g
  | m :: rest =>
      let g' := runTimersBefore m g in
      deliver rest (if observing g' then onMutation m g' else g')
  end.

(** The gate on a document that has a body or has none, over a schedule
    of mutations. *)
Definition run (hasBody : bool) (muts : list Z) : Gate :=
  deliver muts (start hasBody).

(** *** The gate as the design document words it *)

(** The time the debounce timer elapses at when it was last (re)started at
    [last]: each mutation that arrives before it elapses restarts it. *)
Fixpoint debounceExpiry (last : Z) (muts : list Z) : Z :=
  match muts with
  | [] => last + 300
  | m :: rest =>
      if dueBefore (last + 300) m then last + 300
      else debounceExpiry m rest
  end.



(** A schedule: times from the invocation on, in delivery order. *)
Fixpoint scheduleFrom (last : Z) (muts : list Z) : Prop :=
  match muts with
  | [] => True
  | m :: rest => last <= m /\ scheduleFrom m rest
  end.


End EventLoop.

(** The gate of a document with a body while it waits, the debounce timer
    last started at [last]. *)
Definition waiting (last : Z) : Gate :=
  {| stabilityTimer := Some (last + 300);
     maxWaitTimer := Some 3000;
     observing := true;
     resolvedAt := None;
     rejected := false;
     taggingRuns := [] |}.

(** A mutation every [step] ms, [count] of them: [step], [2*step], ... *)
Definition every (step : Z) (count : nat) : list Z :=
  map (fun k => step * Z.of_nat k) (seq 1 count).

End StabilityGate.

(* ================================================================= *)
(** ** Strings of the script *)

Module Js.

Local Open Scope N_scope.

(** A JavaScript string: its UTF-16 code units. *)
Definition JsString : Type := list N.

(** A literal of the script. *)
Definition js (s : string) : JsString :=
  map N_of_ascii (list_ascii_of_string s).

(** The double quote, by code. *)
Definition dquote : JsString := [34].

Fixpoint eqb (a b : JsString) : bool :=
  match a, b with
  | [], [] => true
  | x :: a', y :: b' => (x =? y) && eqb a' b'
  | _, _ => false
  end.

(** A string is truthy when it is not empty ([undefined] and [null] are
    modelled by the empty string where the script only tests or skips). *)
Definition truthy (s : JsString) : bool :=
  match s with [] => false | _ :: _ => true end.

(** [a || b] on strings. *)
Definition orElse (a b : JsString) : JsString := if truthy a then a else b.

(** White space and line terminators: what [trim] strips and [\s] matches. *)
Definition isWhiteSpace (c : N) : bool :=
  ((9 <=? c) && (c <=? 13)) || (c =? 32) || (c =? 160) || (c =? 5760)
  || ((8192 <=? c) && (c <=? 8202)) || (c =? 8232) || (c =? 8233)
  || (c =? 8239) || (c =? 8287) || (c =? 12288) || (c =? 65279).

Fixpoint trimStart (s : JsString) : JsString :=
  match s with
  | c :: r => if isWhiteSpace c then trimStart r else s
  | [] => []
  end.

Definition trim (s : JsString) : JsString :=
  rev (trimStart (rev (trimStart s))).

(** [s.replace(/\s+/g, ' ')]: [inRun] says the unit before was white space. *)
Fixpoint collapseFrom (inRun : bool) (s : JsString) : JsString :=
  match s with
  | [] => []
  | c :: r =>
      if isWhiteSpace c
      then (if inRun then collapseFrom true r else 32 :: collapseFrom true r)
      else c :: collapseFrom false r
  end.

Definition collapseWhitespace (s : JsString) : JsString := collapseFrom false s.

(** [s.replace(/"/g, '\\"')]: a backslash before every double quote. *)
Fixpoint escapeQuotes (s : JsString) : JsString :=
  match s with
  | [] => []
  | c :: r => if c =? 34 then 92 :: 34 :: escapeQuotes r else c :: escapeQuotes r
  end.

Definition isUpper (c : N) : bool := (65 <=? c) && (c <=? 90).
Definition isLower (c : N) : bool := (97 <=? c) && (c <=? 122).
Definition isDigit (c : N) : bool := (48 <=? c) && (c <=? 57).
Definition isLetter (c : N) : bool := isUpper c || isLower c.

(** [\w] or a hyphen. *)
Definition isWordOrHyphen (c : N) : bool :=
  isLetter c || isDigit c || (c =? 95) || (c =? 45).

(** [s.toLowerCase()] on the ASCII letters, which is all a tag name of an
    HTML element has in upper case; other units are kept. *)
Definition toLowerCase (s : JsString) : JsString :=
  map (fun c => if isUpper c then c + 32 else c) s.

Fixpoint startsWith (prefix s : JsString) : bool :=
  match prefix, s with
  | [], _ => true
  | p :: prefix', c :: s' => (p =? c) && startsWith prefix' s'
  | _ :: _, [] => false
  end.

(** [s.includes(part)]. *)
Fixpoint includes (part s : JsString) : bool :=
  startsWith part s
  || match s with
     | [] => false
     | _ :: s' => includes part s'
     end.

(** [/^[a-zA-Z][\w-]*$/.test(s)]. *)
Definition isValidId (s : JsString) : bool :=
  match s with
  | [] => false
  | c :: r => isLetter c && forallb isWordOrHyphen r
  end.

(** [String.fromCharCode(n)]: one code unit, [n] modulo 2^16. *)
Definition fromCharCode (n : N) : JsString := [n mod 65536].

(** A non-negative integer in a template or as a property key. *)
Definition numberToString (n : N) : JsString :=
  js (NilEmpty.string_of_uint (N.to_uint n)).

(** [parts.join(sep)]. *)
Fixpoint join (sep : JsString) (parts : list JsString) : JsString :=
  match parts with
  | [] => []
  | [p] => p
  | p :: rest => p ++ sep ++ join sep rest
  end.

(** *** Objects used as maps *)

(** An object with string keys: its own properties in the order they were
    created.  Assigning to a key it has keeps the key's place. *)
Definition JsObject (V : Type) : Type := list (JsString * V).

Fixpoint objGet {V : Type} (o : JsObject V) (key : JsString) : option V :=
  match o with
  | [] => None
  | (k, v) :: rest => if eqb k key then Some v else objGet rest key
  end.

Fixpoint objSet {V : Type} (o : JsObject V) (key : JsString) (v : V) : JsObject V :=
  match o with
  | [] => [(key, v)]
  | (k, w) :: rest =>
      if eqb k key then (k, v) :: rest else (k, w) :: objSet rest key v
  end.

(** The value of a string of decimal digits. *)
Definition digitsValue (s : JsString) : N :=
  fold_left (fun acc c => 10 * acc + (c - 48)) s 0.

(** An array index: the canonical decimal form of an integer below
    2^32 - 1.  Such keys are enumerated first, in ascending order. *)
Definition arrayIndex (key : JsString) : option N :=
  match key with
  | [] => None
  | c :: r =>
      if forallb isDigit key
         && implb (c =? 48) (match r with [] => true | _ :: _ => false end)
         && (digitsValue key <? 4294967295)
      then Some (digitsValue key) else None
  end.

Fixpoint insertSorted (n : N) (l : list N) : list N :=
  match l with
  | [] => [n]
  | m :: rest => if n <=? m then n :: l else m :: insertSorted n rest
  end.

Definition sortAscending (l : list N) : list N :=
  fold_right insertSorted [] l.

Fixpoint indexKeys {V : Type} (o : JsObject V) : list N :=
  match o with
  | [] => []
  | (k, _) :: rest =>
      match arrayIndex k with
      | Some n => n :: indexKeys rest
      | None => indexKeys rest
      end
  end.

Fixpoint otherKeys {V : Type} (o : JsObject V) : list JsString :=
  match o with
  | [] => []
  | (k, _) :: rest =>
      match arrayIndex k with
      | Some _ => otherKeys rest
      | None => k :: otherKeys rest
      end
  end.

(** The keys in the order [for (let id in o)] visits them. *)
Definition forInKeys {V : Type} (o : JsObject V) : list JsString :=
  map numberToString (sortAscending (indexKeys o)) ++ otherKeys o.

End Js.

(* ================================================================= *)
(** ** The document *)

Module Dom.

Import Js.

(** What the host reports for an element besides its attributes: the
    properties the script reads ([el.name], [el.type], [el.value],
    [el.placeholder], [option.disabled]; the empty string stands for an
    absent one), the size of [getBoundingClientRect()] and three fields of
    [getComputedStyle(el)]. *)
Record Props : Type := mkProps {
  el_name : JsString;
  el_type : JsString;
  el_value : JsString;
  el_placeholder : JsString;
  el_disabled : bool;
  rect_width : Q;
  rect_height : Q;
  style_display : JsString;
  style_visibility : JsString;
  style_opacity : JsString
}.

(** A node of the tree.  An element has its tag name as the DOM reports it
    (upper case for HTML elements), its attributes in declaration order, its
    child nodes and, when it hosts one, the children of its shadow root. *)
Inductive Node : Type :=
| TextNode (data : JsString)
| CommentNode (data : JsString)
| ElementNode (tag : JsString) (attrs : list (JsString * JsString))
              (props : Props) (children : list Node)
              (shadow : option (list Node)).

(** An element handle: the way to the element from the root element, the
    last step first.  [ShadowChild i] enters the shadow root of the element
    the rest leads to. *)
Inductive Step : Type :=
| Child (i : nat)
| ShadowChild (i : nat).

Definition Element : Type := list Step.

Definition sameStep (a b : Step) : bool :=
  match a, b with
  | Child i, Child j => Nat.eqb i j
  | ShadowChild i, ShadowChild j => Nat.eqb i j
  | _, _ => false
  end.

(** [a === b] on element handles. *)
Fixpoint sameElement (a b : Element) : bool :=
  match a, b with
  | [], [] => true
  | x :: a', y :: b' => sameStep x y && sameElement a' b'
  | _, _ => false
  end.

(** The document: its root element, if it has one. *)
Record Document : Type := mkDocument {
  documentElement : option Node
}.

Definition childNodesOf (n : Node) : list Node :=
  match n with
  | ElementNode _ _ _ cs _ => cs
  | _ => []
  end.

Definition shadowOf (n : Node) : option (list Node) :=
  match n with
  | ElementNode _ _ _ _ sh => sh
  | _ => None
  end.

Definition isElementNode (n : Node) : bool :=
  match n with
  | ElementNode _ _ _ _ _ => true
  | _ => false
  end.

Definition stepInto (n : Node) (s : Step) : option Node :=
  match s with
  | Child i => nth_error (childNodesOf n) i
  | ShadowChild i =>
      match shadowOf n with
      | Some roots => nth_error roots i
      | None => None
      end
  end.

Fixpoint descend (n : Node) (route : list Step) : option Node :=
  match route with
  | [] => Some n
  | s :: r =>
      match stepInto n s with
      | Some c => descend c r
      | None => None
      end
  end.

Definition nodeAt (doc : Document) (el : Element) : option Node :=
  match documentElement doc with
  | Some root => descend root (rev el)
  | None => None
  end.

Definition noProps : Props :=
  mkProps [] [] [] [] false 0 0 [] [] [].

Definition tagName (doc : Document) (el : Element) : JsString :=
  match nodeAt doc el with
  | Some (ElementNode t _ _ _ _) => t
  | _ => []
  end.

Definition attributes (doc : Document) (el : Element)
  : list (JsString * JsString) :=
  match nodeAt doc el with
  | Some (ElementNode _ a _ _ _) => a
  | _ => []
  end.

Definition propsOf (doc : Document) (el : Element) : Props :=
  match nodeAt doc el with
  | Some (ElementNode _ _ p _ _) => p
  | _ => noProps
  end.

Definition childNodes (doc : Document) (el : Element) : list Node :=
  match nodeAt doc el with
  | Some n => childNodesOf n
  | None => []
  end.

Fixpoint lookupAttr (attrs : list (JsString * JsString)) (name : JsString)
  : option JsString :=
  match attrs with
  | [] => None
  | (k, v) :: rest => if eqb k name then Some v else lookupAttr rest name
  end.

(** [el.getAttribute(name)]: [None] is [null]. *)
Definition getAttribute (doc : Document) (el : Element) (name : JsString)
  : option JsString :=
  lookupAttr (attributes doc el) name.

Definition hasAttribute (doc : Document) (el : Element) (name : JsString)
  : bool :=
  match getAttribute doc el name with Some _ => true | None => false end.

(** A reflected attribute ([el.id], [el.className]): its value, or the
    empty string. *)
Definition reflected (attrs : list (JsString * JsString)) (name : JsString)
  : JsString :=
  match lookupAttr attrs name with Some v => v | None => [] end.

Definition id (doc : Document) (el : Element) : JsString :=
  reflected (attributes doc el) (js "id").

Definition className (doc : Document) (el : Element) : JsString :=
  reflected (attributes doc el) (js "class").

(** [el.parentElement]: the root element has none, and the parent of a
    child of a shadow root is the shadow root, which is no element. *)
Definition parentElement (el : Element) : option Element :=
  match el with
  | Child _ :: p => Some p
  | _ => None
  end.

(** The nodes [el] is a child among, its place among them, and the handle
    of the one at place [j]. *)
Definition siblingNodes (doc : Document) (el : Element) : list Node :=
  match el with
  | Child _ :: p => childNodes doc p
  | ShadowChild _ :: p =>
      match nodeAt doc p with
      | Some n => match shadowOf n with Some roots => roots | None => [] end
      | None => []
      end
  | [] => []
  end.

Definition place (el : Element) : nat :=
  match el with
  | Child i :: _ => i
  | ShadowChild i :: _ => i
  | [] => 0
  end.

Definition atPlace (el : Element) (j : nat) : Element :=
  match el with
  | Child _ :: p => Child j :: p
  | ShadowChild _ :: p => ShadowChild j :: p
  | [] => []
  end.

(** The place of the last element node before place [i]. *)
Fixpoint lastElementBefore (ns : list Node) (i : nat) : option nat :=
  match i with
  | O => None
  | S j =>
      match nth_error ns j with
      | Some (ElementNode _ _ _ _ _) => Some j
      | _ => lastElementBefore ns j
      end
  end.

(** [el.previousElementSibling]. *)
Definition previousElementSibling (doc : Document) (el : Element)
  : option Element :=
  match lastElementBefore (siblingNodes doc el) (place el) with
  | Some j => Some (atPlace el j)
  | None => None
  end.

(** The element at [p], if [n] is one, and the elements below it in the
    light tree, in tree order. *)
Fixpoint subtree (p : Element) (n : Node) {struct n} : list Element :=
  match n with
  | ElementNode _ _ _ cs _ =>
      p :: (fix kids (i : nat) (ns : list Node) {struct ns} : list Element :=
              match ns with
              | [] => []
              | c :: ns' => subtree (Child i :: p) c ++ kids (S i) ns'
              end) 0%nat cs
  | _ => []
  end.

(** The elements of a list of sibling nodes and below, in tree order; [mk]
    makes the step to the sibling at a place. *)
Fixpoint forest (p : Element) (mk : nat -> Step) (i : nat) (ns : list Node)
  : list Element :=
  match ns with
  | [] => []
  | c :: ns' => subtree (mk i :: p) c ++ forest p mk (S i) ns'
  end.

(** What [document.querySelectorAll('*')] lists. *)
Definition documentElements (doc : Document) : list Element :=
  match documentElement doc with
  | Some root => subtree [] root
  | None => []
  end.

(** What [el.querySelectorAll('*')] lists: the elements below [el]. *)
Definition descendants (doc : Document) (el : Element) : list Element :=
  forest el Child 0 (childNodes doc el).

(** [document.getElementById(id)]: the first element with that id. *)
Definition getElementById (doc : Document) (wanted : JsString)
  : option Element :=
  find (fun el => hasAttribute doc el (js "id") && eqb (id doc el) wanted)
       (documentElements doc).

(** [document.body]: the first [body] or [frameset] child of an [html]
    root. *)
Fixpoint firstBody (i : nat) (ns : list Node) : option nat :=
  match ns with
  | [] => None
  | ElementNode t _ _ _ _ :: ns' =>
      if eqb t (js "BODY") || eqb t (js "FRAMESET") then Some i
      else firstBody (S i) ns'
  | _ :: ns' => firstBody (S i) ns'
  end.

Definition body (doc : Document) : option Element :=
  match documentElement doc with
  | Some (ElementNode t _ _ cs _) =>
      if eqb t (js "HTML") then
        match firstBody 0 cs with
        | Some i => Some [Child i]
        | None => None
        end
      else None
  | _ => None
  end.

(** *** Class tokens *)

(** ASCII white space, which separates the tokens of a class attribute. *)
Definition isAsciiSpace (c : N) : bool :=
  ((c =? 9) || (c =? 10) || (c =? 12) || (c =? 13) || (c =? 32))%N.

(** The tokens of [s]; [cur] is the token being read, reversed. *)
Fixpoint tokensFrom (cur : JsString) (s : JsString) : list JsString :=
  match s with
  | [] => match cur with [] => [] | _ => [rev cur] end
  | c :: r =>
      if isAsciiSpace c
      then match cur with
           | [] => tokensFrom [] r
           | _ => rev cur :: tokensFrom [] r
           end
      else tokensFrom (c :: cur) r
  end.

Definition hasClass (token : JsString) (attrs : list (JsString * JsString))
  : bool :=
  existsb (eqb token) (tokensFrom [] (reflected attrs (js "class"))).

(** *** The two changes the script makes to the document *)

Definition isOverlay (n : Node) : bool :=
  match n with
  | ElementNode _ a _ _ _ => hasClass (js "robo-tester-tag") a
  | _ => false
  end.

(** [n] without the elements of class [robo-tester-tag] below it in the
    light tree. *)
Fixpoint withoutOverlays (n : Node) {struct n} : Node :=
  match n with
  | ElementNode t a p cs sh =>
      ElementNode t a p
        ((fix kids (ns : list Node) {struct ns} : list Node :=
            match ns with
            | [] => []
            | c :: ns' =>
                if isOverlay c then kids ns' else withoutOverlays c :: kids ns'
            end) cs)
        sh
  | _ => n
  end.

(** [document.querySelectorAll('.robo-tester-tag').forEach(tag =>
    tag.remove())]. *)
Definition removeOverlays (doc : Document) : Document :=
  match documentElement doc with
  | Some root =>
      if isOverlay root then mkDocument None
      else mkDocument (Some (withoutOverlays root))
  | None => doc
  end.

Definition withChild (c n : Node) : Node :=
  match c with
  | ElementNode t a p cs sh => ElementNode t a p (cs ++ [n]) sh
  | _ => c
  end.

(** [ns] with [n] appended to the children of the node at place [i]. *)
Fixpoint appendChildAt (i : nat) (ns : list Node) (n : Node) {struct ns}
  : list Node :=
  match ns with
  | [] => []
  | c :: ns' =>
      match i with
      | O => withChild c n :: ns'
      | S j => c :: appendChildAt j ns' n
      end
  end.

(** [document.body.appendChild(n)]; [None] is the [TypeError] of a
    document without a body. *)
Definition appendToBody (doc : Document) (n : Node) : option Document :=
  match body doc, documentElement doc with
  | Some [Child i], Some (ElementNode t a p cs sh) =>
      Some (mkDocument (Some (ElementNode t a p (appendChildAt i cs n) sh)))
  | _, _ => None
  end.

End Dom.

(* ================================================================= *)
(** ** The tagger: helper functions *)

Module Tagger.

Import Js Dom.

(** *** Console output *)

(** A result together with the lines the computation wrote with
    [console.log], oldest first.  The output of the selector functions is
    kept because each of their return sites writes a line of its own; the
    lines of the collector and of the scan itself are not modelled. *)
Definition Logged (A : Type) : Type := (A * list JsString)%type.

Definition ret {A : Type} (a : A) : Logged A := (a, []).

Definition bind {A B : Type} (c : Logged A) (k : A -> Logged B) : Logged B :=
  let (a, l1) := c in
  let (b, l2) := k a in
  (b, l1 ++ l2).

Definition consoleLog (line : JsString) : Logged unit := (tt, [line]).

Notation "x <- c ;; k" := (bind c (fun x => k))
  (at level 61, c at next level, right associativity).
Notation "c ;;; k" := (bind c (fun _ => k))
  (at level 61, right associativity).

(** *** Records of the element map *)

(** The context of a profile, as [extractContext] builds it. *)
Record Context : Type := mkContext {
  parent_text : JsString;
  parent_tag : JsString;
  parent_classes : JsString;
  sibling_text : JsString;
  container_id : JsString;
  aria_context : JsString
}.

(** The context of a profile: of an element, or the three fields an option
    profile has; [NoContext] is the [null] a profile starts with. *)
Inductive ProfileContext : Type :=
| NoContext
| ElementContext (c : Context)
| OptionContext (parentText parentTag containerId : JsString).

(** A profile; [selector] is [None] while it is [null]. *)
Record Profile : Type := mkProfile {
  selector : option JsString;
  text : JsString;
  tag : JsString;
  profileAttributes : JsObject JsString;
  context : ProfileContext
}.

Definition ElementMap : Type := JsObject Profile.

(** *** Visibility *)

Definition positive (q : Q) : bool := (0 <? Qnum q)%Z.

(** The test of step 1 ([isVisible]). *)
Definition isVisible (p : Props) : bool :=
  positive (rect_width p)
  && positive (rect_height p)
  && negb (eqb (style_display p) (js "none"))
  && negb (eqb (style_visibility p) (js "hidden"))
  && negb (eqb (style_opacity p) (js "0")).

(** The test of step 2 ([isSelectVisible]). *)
Definition isSelectVisible (p : Props) : bool :=
  positive (rect_width p)
  && positive (rect_height p)
  && negb (eqb (style_display p) (js "none"))
  && negb (eqb (style_visibility p) (js "hidden")).

(** *** The collector *)

(** Attribute values the selector engine compares without regard to ASCII
    case in an HTML document; of the attributes the list names, [type]. *)
Definition attrIs (attrs : list (JsString * JsString)) (name v : JsString)
  : bool :=
  match lookupAttr attrs name with
  | Some w => eqb w v
  | None => false
  end.

Definition attrIsNoCase (attrs : list (JsString * JsString))
  (name v : JsString) : bool :=
  match lookupAttr attrs name with
  | Some w => eqb (toLowerCase w) v
  | None => false
  end.

Definition attrIncludes (attrs : list (JsString * JsString))
  (name part : JsString) : bool :=
  match lookupAttr attrs name with
  | Some w => includes part w
  | None => false
  end.

Definition hasAttr (attrs : list (JsString * JsString)) (name : JsString)
  : bool :=
  match lookupAttr attrs name with Some _ => true | None => false end.

(** The thirteen selectors of [getAllElementsIncludingShadow], by what
    each matches. *)
Definition matchesInteractive (n : Node) : bool :=
  match n with
  | ElementNode t a _ _ _ =>
      let low := toLowerCase t in
      eqb low (js "button")
      || (eqb low (js "a") && hasAttr a (js "href"))
      || eqb low (js "input")
      || eqb low (js "textarea")
      || eqb low (js "select")
      || attrIs a (js "role") (js "button")
      || attrIs a (js "role") (js "link")
      || hasAttr a (js "onclick")
      || attrIsNoCase a (js "type") (js "submit")
      || hasClass (js "cursor-pointer") a
      || attrIncludes a (js "style") (js "cursor: pointer")
      || attrIncludes a (js "style") (js "cursor:pointer")
      || (eqb low (js "div") && hasAttr a (js "onclick"))
  | _ => false
  end.

Definition matching (doc : Document) (pred : Node -> bool)
  (els : list Element) : list Element :=
  filter (fun el => match nodeAt doc el with
                    | Some n => pred n
                    | None => false
                    end) els.

(** The results of the recursive calls for the shadow roots hosted by the
    element at [p] and by the elements below it, in tree order: for a
    shadow root, its own matches and then the results for the hosts in
    it. *)
Fixpoint shadowResults (doc : Document) (p : Element) (n : Node) {struct n}
  : list Element :=
  match n with
  | ElementNode _ _ _ cs sh =>
      match sh with
      | Some roots =>
          matching doc matchesInteractive (forest p ShadowChild 0 roots)
          ++ (fix hosts (i : nat) (ns : list Node) {struct ns} : list Element :=
                match ns with
                | [] => []
                | c :: ns' =>
                    shadowResults doc (ShadowChild i :: p) c ++ hosts (S i) ns'
                end) 0%nat roots
      | None => []
      end
      ++ (fix kids (i : nat) (ns : list Node) {struct ns} : list Element :=
            match ns with
            | [] => []
            | c :: ns' => shadowResults doc (Child i :: p) c ++ kids (S i) ns'
            end) 0%nat cs
  | _ => []
  end.

(** [getAllElementsIncludingShadow(document)]. *)
Definition getAllElementsIncludingShadow (doc : Document) : list Element :=
  matching doc matchesInteractive (documentElements doc)
  ++ match documentElement doc with
     | Some root => shadowResults doc [] root
     | None => []
     end.

Section Synthesizer.

(** The query engine of the host: [document.querySelectorAll(selector)]
    on the document as it is, [None] when the engine throws (a selector
    it cannot parse). *)
Variable querySelectorAll : Document -> JsString -> option (list Element).

(** [getDirectText(el)]; [None] is a [null] argument. *)
Definition getDirectText (doc : Document) (el : option Element) : JsString :=
  match el with
  | None => []
  | Some e =>
      let text :=
        fold_left (fun acc node =>
                     match node with
                     | TextNode data => acc ++ trim data
                     | _ => acc
                     end)
                  (childNodes doc e) [] in
      collapseWhitespace (trim text)
  end.

(** [isUnique(selector)]. *)
Definition isUnique (doc : Document) (sel : JsString) : bool :=
  match querySelectorAll doc sel with
  | Some matches => Nat.eqb (List.length matches) 1
  | None => false
  end.

(** The loop of [getNthChildIndex]; [steps] bounds it by the place of the
    element among its siblings, which the loop cannot outrun: each
    [previousElementSibling] is at a smaller place. *)
Fixpoint countSiblings (doc : Document) (steps : nat)
  (sibling : option Element) (index : N) : N :=
  match steps, sibling with
  | S steps', Some s =>
      countSiblings doc steps' (previousElementSibling doc s) (index + 1)
  | _, _ => index
  end.

Definition getNthChildIndex (doc : Document) (el : Element) : N :=
  countSiblings doc (place el) (previousElementSibling doc el) 1.

(** *** The context extractor *)

Definition emptyContext : Context := mkContext [] [] [] [] [] [].

Definition setParent (c : Context) (ptext ptag pclasses : JsString) : Context :=
  mkContext ptext ptag pclasses (sibling_text c) (container_id c)
            (aria_context c).

Definition setContainerId (c : Context) (v : JsString) : Context :=
  mkContext (parent_text c) (parent_tag c) (parent_classes c)
            (sibling_text c) v (aria_context c).

Definition setSiblingText (c : Context) (v : JsString) : Context :=
  mkContext (parent_text c) (parent_tag c) (parent_classes c)
            v (container_id c) (aria_context c).

Definition setAriaContext (c : Context) (v : JsString) : Context :=
  mkContext (parent_text c) (parent_tag c) (parent_classes c)
            (sibling_text c) (container_id c) v.

(** The first loop of [extractContext], [while (parent && depth < 5)],
    with [left] = 5 - [depth] rounds to go. *)
Fixpoint ancestorScan (doc : Document) (el : Element) (left : nat)
  (parent : option Element) (c : Context) : Context :=
  match left, parent with
  | S left', Some p =>
      let parentText := getDirectText doc (Some p) in
      if truthy parentText
         && (0 <? List.length parentText)%nat
         && negb (eqb parentText (getDirectText doc (Some el)))
      then
        let c1 := setParent c parentText (toLowerCase (tagName doc p))
                            (className doc p) in
        if truthy (id doc p) then setContainerId c1 (id doc p) else c1
      else
        let c1 := if negb (truthy (container_id c)) && truthy (id doc p)
                  then setContainerId c (id doc p) else c in
        ancestorScan doc el left' (parentElement p) c1
  | _, _ => c
  end.

(** The second loop, [while (sibling && siblingDepth < 3)]. *)
Fixpoint siblingScan (doc : Document) (left : nat) (sibling : option Element)
  (c : Context) : Context :=
  match left, sibling with
  | S left', Some s =>
      let siblingText := getDirectText doc (Some s) in
      if truthy siblingText && (0 <? List.length siblingText)%nat
      then setSiblingText c siblingText
      else siblingScan doc left' (previousElementSibling doc s) c
  | _, _ => c
  end.

Definition truthyAttr (v : option JsString) : bool :=
  match v with Some s => truthy s | None => false end.

Definition attrText (v : option JsString) : JsString :=
  match v with Some s => s | None => [] end.

Definition ariaScan (doc : Document) (el : Element) (c : Context) : Context :=
  let ariaLabel := getAttribute doc el (js "aria-label") in
  let ariaLabelledby := getAttribute doc el (js "aria-labelledby") in
  if truthyAttr ariaLabel then setAriaContext c (attrText ariaLabel)
  else if truthyAttr ariaLabelledby then
    match getElementById doc (attrText ariaLabelledby) with
    | Some labelElement =>
        setAriaContext c (getDirectText doc (Some labelElement))
    | None => c
    end
  else c.

Definition extractContext (doc : Document) (el : Element) : Context :=
  let c1 := ancestorScan doc el 5 (parentElement el) emptyContext in
  let c2 := siblingScan doc 3 (previousElementSibling doc el) c1 in
  ariaScan doc el c2.

(** *** The position-based selector *)

Definition logPrefix : JsString := js "[Tagger v4.0] ".

(** The loop of [buildPositionBasedSelector],
    [while (current && ... && depth < maxDepth)], with [left] =
    [maxDepth] - [depth]; it returns the path. *)
Fixpoint positionPath (doc : Document) (left : nat) (current : option Element)
  (path : list JsString) : list JsString :=
  match left, current with
  | S left', Some cur =>
      let selector := toLowerCase (tagName doc cur) in
      if truthy (id doc cur) && isValidId (id doc cur)
      then (js "#" ++ id doc cur) :: path
      else
        let nthIndex := getNthChildIndex doc cur in
        let selector :=
          selector ++ js ":nth-child(" ++ numberToString nthIndex ++ js ")" in
        let path := selector :: path in
        let current := parentElement cur in
        if match current, body doc with
           | Some c, Some b => sameElement c b
           | None, None => true
           | _, _ => false
           end
           || isUnique doc (join (js " > ") path)
        then path
        else positionPath doc left' current path
  | _, _ => path
  end.

Definition buildPositionBasedSelector (doc : Document) (el : Element)
  : Logged JsString :=
  let finalSelector := join (js " > ") (positionPath doc 5 (Some el) []) in
  consoleLog (logPrefix ++ js "Position-based selector: " ++ finalSelector) ;;;
  ret finalSelector.

(** *** The contextual selector *)

Definition hasText (tagName text : JsString) : JsString :=
  tagName ++ js ":has-text(" ++ dquote ++ text ++ dquote ++ js ")".

(** The loop of [buildContextualSelector]: [Some] is a [return] from inside
    the loop, [None] is the loop running out. *)
Fixpoint contextualScan (doc : Document) (tagName' escapedText elementText : JsString)
  (left : nat) (parent : option Element) : option (Logged JsString) :=
  match left, parent with
  | S left', Some p =>
      let parentText := getDirectText doc (Some p) in
      let parentTag := toLowerCase (tagName doc p) in
      if truthy parentText
         && negb (eqb parentText elementText)
         && (0 <? List.length parentText)%nat
      then
        let escapedParentText := escapeQuotes parentText in
        let contextSelector :=
          hasText parentTag escapedParentText ++ js " >> "
          ++ hasText tagName' escapedText in
        Some (consoleLog (logPrefix ++ js "Testing contextual selector: "
                          ++ contextSelector) ;;;
              ret contextSelector)
      else if truthy (id doc p) then
        let contextSelector :=
          js "#" ++ id doc p ++ js " >> " ++ hasText tagName' escapedText in
        Some (consoleLog (logPrefix ++ js "Using parent ID selector: "
                          ++ contextSelector) ;;;
              ret contextSelector)
      else contextualScan doc tagName' escapedText elementText left'
                          (parentElement p)
  | _, _ => None
  end.

Definition buildContextualSelector (doc : Document) (el : Element)
  (elementText : JsString) : Logged JsString :=
  let tagName' := toLowerCase (tagName doc el) in
  let escapedText := escapeQuotes elementText in
  match contextualScan doc tagName' escapedText elementText 5
                       (parentElement el) with
  | Some result => result
  | None => buildPositionBasedSelector doc el
  end.

(** *** The strategy chain of [getUniversalSelector] *)

(** A strategy gives [Some] when the function returns inside it and
    [None] when control goes on to the next one. *)
Definition Strategy : Type := option (Logged JsString).

Definition returning (line selector : JsString) : Strategy :=
  Some (consoleLog (logPrefix ++ line) ;;; ret selector).

Definition attrSelector (prefix name v : JsString) : JsString :=
  prefix ++ js "[" ++ name ++ js "=" ++ dquote ++ v ++ dquote ++ js "]".

(** Strategy 1: the id. *)
Definition idStrategy (doc : Document) (el : Element) : Strategy :=
  if truthy (id doc el) && isValidId (id doc el) then
    let selector := js "#" ++ id doc el in
    if isUnique doc selector
    then returning (js "Using ID: " ++ selector) selector
    else None
  else None.

(** Strategy 2: the name. *)
Definition nameStrategy (doc : Document) (el : Element) : Strategy :=
  if truthy (el_name (propsOf doc el)) then
    let selector := attrSelector [] (js "name") (el_name (propsOf doc el)) in
    if isUnique doc selector
    then returning (js "Using name: " ++ selector) selector
    else None
  else None.

(** Strategy 3: the loop over [el.attributes]. *)
Fixpoint dataStrategy (doc : Document) (attrs : list (JsString * JsString))
  : Strategy :=
  match attrs with
  | [] => None
  | (name, v) :: rest =>
      if startsWith (js "data-") name && truthy v then
        let selector := attrSelector [] name v in
        if isUnique doc selector
        then returning (js "Using data attribute: " ++ selector) selector
        else dataStrategy doc rest
      else dataStrategy doc rest
  end.

(** Strategy 4: the text of a button or an anchor.  Both branches of the
    uniqueness test return. *)
Definition textStrategy (doc : Document) (el : Element) : Strategy :=
  let tagName' := toLowerCase (tagName doc el) in
  let text := getDirectText doc (Some el) in
  if truthy text && (0 <? List.length text)%nat
     && (List.length text <? 100)%nat
  then
    if eqb tagName' (js "button") || eqb tagName' (js "a") then
      let escapedText := escapeQuotes text in
      let textSelector := hasText tagName' escapedText in
      if isUnique doc textSelector
      then returning (js "Using unique text: " ++ textSelector) textSelector
      else Some (consoleLog
                   (logPrefix
                    ++ js "Text not unique, building contextual selector for: "
                    ++ dquote ++ text ++ dquote) ;;;
                 buildContextualSelector doc el text)
    else None
  else None.

(** Strategy 5: the type. *)
Definition typeStrategy (doc : Document) (el : Element) : Strategy :=
  let tagName' := toLowerCase (tagName doc el) in
  if truthy (el_type (propsOf doc el)) && negb (eqb tagName' (js "div")) then
    let selector :=
      attrSelector tagName' (js "type") (el_type (propsOf doc el)) in
    if isUnique doc selector
    then returning (js "Using type: " ++ selector) selector
    else None
  else None.

(** Strategy 6: [aria-label], then [aria-labelledby]. *)
Definition ariaStrategy (doc : Document) (el : Element) (attr line : JsString)
  : Strategy :=
  let tagName' := toLowerCase (tagName doc el) in
  let v := getAttribute doc el attr in
  if truthyAttr v then
    let selector := attrSelector tagName' attr (attrText v) in
    if isUnique doc selector
    then returning (line ++ selector) selector
    else None
  else None.

(** Strategy 7: the position-based selector. *)
Definition fallbackStrategy (doc : Document) (el : Element) : Logged JsString :=
  consoleLog (logPrefix ++ js "Falling back to position-based selector") ;;;
  buildPositionBasedSelector doc el.

Definition orNext (s : Strategy) (next : Logged JsString) : Logged JsString :=
  match s with
  | Some result => result
  | None => next
  end.

Definition getUniversalSelector (doc : Document) (el : Element)
  : Logged JsString :=
  orNext (idStrategy doc el)
  (orNext (nameStrategy doc el)
  (orNext (dataStrategy doc (attributes doc el))
  (orNext (textStrategy doc el)
  (orNext (typeStrategy doc el)
  (orNext (ariaStrategy doc el (js "aria-label") (js "Using aria-label: "))
  (orNext (ariaStrategy doc el (js "aria-labelledby")
                        (js "Using aria-labelledby: "))
  (fallbackStrategy doc el))))))).

(** *** The profile builder *)

Definition keyAttributes : list JsString :=
  [js "id"; js "name"; js "type"; js "class"; js "value";
   js "aria-label"; js "aria-labelledby"; js "placeholder";
   js "role"; js "href"; js "title"; js "alt"].

(** The text of the profile. *)
Definition profileText (doc : Document) (el : Element) : JsString :=
  if eqb (toLowerCase (tagName doc el)) (js "input")
     || eqb (toLowerCase (tagName doc el)) (js "textarea")
  then orElse (el_placeholder (propsOf doc el))
              (orElse (el_value (propsOf doc el)) [])
  else getDirectText doc (Some el).

Definition keyAttributeValues (doc : Document) (el : Element)
  : JsObject JsString :=
  fold_left (fun o attr =>
               match getAttribute doc el attr with
               | Some v => if truthy v then objSet o attr v else o
               | None => o
               end)
            keyAttributes [].

Definition dataAttributeValues (doc : Document) (el : Element)
  (o : JsObject JsString) : JsObject JsString :=
  fold_left (fun o attr =>
               if startsWith (js "data-") (fst attr)
               then objSet o (fst attr) (snd attr) else o)
            (attributes doc el) o.

Definition extractElementProfile (doc : Document) (el : Element) : Profile :=
  {| selector := None;
     text := profileText doc el;
     tag := toLowerCase (tagName doc el);
     profileAttributes :=
       dataAttributeValues doc el (keyAttributeValues doc el);
     context := ElementContext (extractContext doc el) |}.

Definition withSelector (p : Profile) (s : JsString) : Profile :=
  {| selector := Some s;
     text := text p;
     tag := tag p;
     profileAttributes := profileAttributes p;
     context := context p |}.

(** *** The scan: [performTagging] *)

(** What the two passes share: the document (the overlays are appended to
    it as the scan goes), [elementMap] and [idCounter]. *)
Record Scan : Type := mkScan {
  scanDocument : Document;
  elementMap : ElementMap;
  idCounter : N
}.

(** The static part of the style of an overlay; the declarations that
    place it over the element are left out (nothing reads them back). *)
Definition overlayStyle : JsString :=
  js "position: absolute; pointer-events: none; z-index: 999999;".

Definition overlayNode (label : JsString) : Node :=
  ElementNode (js "DIV")
    [(js "class", js "robo-tester-tag"); (js "style", overlayStyle)]
    noProps
    [ElementNode (js "DIV") [(js "style", overlayStyle)] noProps
       [TextNode label] None]
    None.

Definition optionBadgeNode (label : JsString) : Node :=
  ElementNode (js "DIV")
    [(js "class", js "robo-tester-tag"); (js "style", overlayStyle)]
    noProps [TextNode label] None.

(** The body of the [elements.forEach] of step 1; [None] is an exception
    leaving the scan. *)
Definition tagElement (st : Scan) (element : Element) : option Scan :=
  let doc := scanDocument st in
  if negb (isVisible (propsOf doc element)) then Some st
  else
    let profile := extractElementProfile doc element in
    let profile := withSelector profile (fst (getUniversalSelector doc element)) in
    let elementId := idCounter st in
    let map' := objSet (elementMap st) (numberToString elementId) profile in
    match appendToBody doc (overlayNode (numberToString elementId)) with
    | Some doc' => Some (mkScan doc' map' (elementId + 1))
    | None => None
    end.

(** A [forEach] whose body may throw. *)
Fixpoint forEach {A S : Type} (f : S -> A -> option S) (l : list A) (s : S)
  : option S :=
  match l with
  | [] => Some s
  | a :: rest =>
      match f s a with
      | Some s' => forEach f rest s'
      | None => None
      end
  end.

(** [for (let id in elementMap) if (elementMap[id].selector ===
    selectSelector) { selectId = id; break; }]: the first such key, or
    [None] for the [null] [selectId] starts as. *)
Definition findSelectId (map : ElementMap) (selectSelector : JsString)
  : option JsString :=
  find (fun key =>
          match objGet map key with
          | Some profile =>
              match selector profile with
              | Some s => eqb s selectSelector
              | None => false
              end
          | None => false
          end)
       (forInKeys map).

(** [node.textContent] of an element: the text below it. *)
Fixpoint textContent (n : Node) {struct n} : JsString :=
  match n with
  | TextNode data => data
  | CommentNode _ => []
  | ElementNode _ _ _ cs _ =>
      (fix kids (ns : list Node) {struct ns} : JsString :=
         match ns with
         | [] => []
         | c :: ns' => textContent c ++ kids ns'
         end) cs
  end.

Definition textContentOf (doc : Document) (el : Element) : JsString :=
  match nodeAt doc el with
  | Some n => textContent n
  | None => []
  end.

(** The test that skips an option. *)
Definition skipsOption (doc : Document) (opt : Element) : bool :=
  negb (truthy (el_value (propsOf doc opt)))
  || el_disabled (propsOf doc opt)
  || eqb (el_value (propsOf doc opt)) []
  || eqb (el_value (propsOf doc opt)) (js "select")
  || hasAttribute doc opt (js "disabled").

Definition optionId (selectId : JsString) (validOptionIndex : N) : JsString :=
  selectId ++ fromCharCode (97 + validOptionIndex).

Definition optionProfile (doc : Document) (selectElement opt : Element)
  (selectSelector : JsString) : Profile :=
  let v := el_value (propsOf doc opt) in
  {| selector :=
       Some (selectSelector ++ js " option[value=" ++ dquote ++ v ++ dquote
             ++ js "]");
     text := collapseWhitespace (trim (textContentOf doc opt));
     tag := js "option";
     profileAttributes :=
       objSet (objSet [] (js "value") v) (js "parent-select") selectSelector;
     context :=
       OptionContext (getDirectText doc (parentElement selectElement))
                     (js "select")
                     (orElse (id doc selectElement) []) |}.

Definition badgeLabel (optionId text : JsString) : JsString :=
  let displayText :=
    if (20 <? List.length text)%nat then firstn 20 text ++ js "..." else text in
  optionId ++ js ": " ++ displayText.

(** The state of the [options.forEach] loop: the scan and
    [validOptionIndex]. *)
Definition tagOption (selectElement : Element) (selectId selectSelector : JsString)
  (st : Scan * N) (opt : Element) : option (Scan * N) :=
  let (scan, validOptionIndex) := st in
  let doc := scanDocument scan in
  if skipsOption doc opt then Some st
  else
    let oid := optionId selectId validOptionIndex in
    let profile := optionProfile doc selectElement opt selectSelector in
    let map' := objSet (elementMap scan) oid profile in
    match appendToBody doc (optionBadgeNode (badgeLabel oid (text profile))) with
    | Some doc' =>
        Some (mkScan doc' map' (idCounter scan), (validOptionIndex + 1)%N)
    | None => None
    end.

Definition isTagged (name : JsString) (n : Node) : bool :=
  match n with
  | ElementNode t _ _ _ _ => eqb (toLowerCase t) name
  | _ => false
  end.

(** The body of the [selectElements.forEach] of step 2. *)
Definition expandSelect (st : Scan) (selectElement : Element) : option Scan :=
  let doc := scanDocument st in
  if negb (isSelectVisible (propsOf doc selectElement)) then Some st
  else
    let selectSelector := fst (getUniversalSelector doc selectElement) in
    match findSelectId (elementMap st) selectSelector with
    | None => Some st
    | Some selectId =>
        if negb (truthy selectId) then Some st
        else
          let options :=
            matching doc (isTagged (js "option")) (descendants doc selectElement) in
          match forEach (tagOption selectElement selectId selectSelector)
                        options (st, 0%N) with
          | Some (st', _) => Some st'
          | None => None
          end
    end.

(** Step 1, after the overlays of an earlier run are removed: the
    [elements.forEach] over what the collector found. *)
Definition tagElements (doc : Document) : option Scan :=
  let doc := removeOverlays doc in
  forEach tagElement (getAllElementsIncludingShadow doc) (mkScan doc [] 1).

(** Step 2: the [selectElements.forEach] over the selects of the
    document. *)
Definition expandSelects (st : Scan) : option Scan :=
  forEach expandSelect
          (matching (scanDocument st) (isTagged (js "select"))
                    (documentElements (scanDocument st)))
          st.

(** [performTagging()]; the result is the element map before
    [JSON.stringify]. *)
Definition performTagging (doc : Document) : option ElementMap :=
  match tagElements doc with
  | Some st =>
      match expandSelects st with
      | Some st' => Some (elementMap st')
      | None => None
      end
  | None => None
  end.

End Synthesizer.

End Tagger.

(* ================================================================= *)
(** ** A query engine for concrete documents *)

(** The selectors the script hands to [document.querySelectorAll] are
    ids, attribute tests, tag names with an attribute test or an
    [:nth-child] index, joined by the child combinator, and text selectors
    ([:has-text], [>>]) that no CSS engine parses.  This engine parses the
    first kind, evaluates it on the tree, and throws on everything else. *)
Module MiniDom.

Import Js Dom.

Local Open Scope N_scope.

Inductive Simple : Type :=
| ById (v : JsString)
| ByAttr (name v : JsString)
| ByNthChild (k : N).

Record Compound : Type := mkCompound {
  byTag : JsString;          (* empty: any tag *)
  simples : list Simple
}.

(** The longest prefix of name characters, and the rest. *)
Fixpoint takeName (s : JsString) : JsString * JsString :=
  match s with
  | c :: r =>
      if isWordOrHyphen c
      then let (name, rest) := takeName r in (c :: name, rest)
      else ([], s)
  | [] => ([], [])
  end.

Fixpoint takeDigits (s : JsString) : JsString * JsString :=
  match s with
  | c :: r =>
      if isDigit c
      then let (ds, rest) := takeDigits r in (c :: ds, rest)
      else ([], s)
  | [] => ([], [])
  end.

(** A quoted value up to its closing quote, and what follows the quote. A
    backslash or a line break in the value is not handled: the engine
    throws. *)
Fixpoint takeQuoted (s : JsString) : option (JsString * JsString) :=
  match s with
  | [] => None
  | c :: r =>
      if c =? 34 then Some ([], r)
      else if (c =? 92) || (c =? 10) || (c =? 12) || (c =? 13) then None
      else match takeQuoted r with
           | Some (v, rest) => Some (c :: v, rest)
           | None => None
           end
  end.

Definition dropPrefix (prefix s : JsString) : option JsString :=
  if startsWith prefix s then Some (skipn (List.length prefix) s) else None.

Fixpoint parseSimples (fuel : nat) (s : JsString)
  : option (list Simple * JsString) :=
  match fuel with
  | O => None
  | S fuel' =>
      match s with
      | 35 :: r =>
          let (name, rest) := takeName r in
          if truthy name then
            match parseSimples fuel' rest with
            | Some (l, rest') => Some (ById name :: l, rest')
            | None => None
            end
          else None
      | 91 :: r =>
          let (name, r1) := takeName r in
          if truthy name then
            match dropPrefix (js "=" ++ dquote) r1 with
            | Some r2 =>
                match takeQuoted r2 with
                | Some (v, r3) =>
                    match dropPrefix (js "]") r3 with
                    | Some r4 =>
                        match parseSimples fuel' r4 with
                        | Some (l, rest') => Some (ByAttr name v :: l, rest')
                        | None => None
                        end
                    | None => None
                    end
                | None => None
                end
            | None => None
            end
          else None
      | 58 :: r =>
          match dropPrefix (js "nth-child(") r with
          | Some r1 =>
              let (ds, r2) := takeDigits r1 in
              if truthy ds then
                match dropPrefix (js ")") r2 with
                | Some r3 =>
                    match parseSimples fuel' r3 with
                    | Some (l, rest') =>
                        Some (ByNthChild (digitsValue ds) :: l, rest')
                    | None => None
                    end
                | None => None
                end
              else None
          | None => None
          end
      | _ => Some ([], s)
      end
  end.

Definition parseCompound (fuel : nat) (s : JsString)
  : option (Compound * JsString) :=
  let (t, r) := takeName s in
  if match t with
     | [] => true
     | c :: _ => isLetter c
     end
  then
    match parseSimples fuel r with
    | Some (l, rest) =>
        if truthy t || match l with [] => false | _ :: _ => true end
        then Some (mkCompound t l, rest)
        else None
    | None => None
    end
  else None.

(** Compounds joined by the child combinator, the outermost first. *)
Fixpoint parseComplex (fuel : nat) (s : JsString) : option (list Compound) :=
  match fuel with
  | O => None
  | S fuel' =>
      match parseCompound fuel s with
      | Some (c, []) => Some [c]
      | Some (c, rest) =>
          match dropPrefix (js " > ") rest with
          | Some rest' =>
              match parseComplex fuel' rest' with
              | Some cs => Some (c :: cs)
              | None => None
              end
          | None => None
          end
      | None => None
      end
  end.

Definition parseSelector (s : JsString) : option (list Compound) :=
  parseComplex (S (List.length s)) s.

(** The number of element nodes among the first [i] of [ns]. *)
Fixpoint elementsBefore (ns : list Node) (i : nat) : N :=
  match i, ns with
  | S j, n :: ns' =>
      (if isElementNode n then 1 else 0) + elementsBefore ns' j
  | _, _ => 0
  end.

Definition nthChildIndex (doc : Document) (el : Element) : N :=
  elementsBefore (siblingNodes doc el) (place el) + 1.

Definition matchesSimple (doc : Document) (el : Element) (s : Simple) : bool :=
  match s with
  | ById v =>
      match getAttribute doc el (js "id") with
      | Some w => eqb w v
      | None => false
      end
  | ByAttr name v =>
      match getAttribute doc el name with
      | Some w =>
          if eqb name (js "type") then eqb (toLowerCase w) (toLowerCase v)
          else eqb w v
      | None => false
      end
  | ByNthChild k => nthChildIndex doc el =? k
  end.

Definition matchesCompound (doc : Document) (el : Element) (c : Compound)
  : bool :=
  match byTag c with
  | [] => true
  | t => eqb (toLowerCase (tagName doc el)) (toLowerCase t)
  end
  && forallb (matchesSimple doc el) (simples c).

(** [el] matches the compounds, given innermost first. *)
Fixpoint matchesChain (doc : Document) (el : Element) (cs : list Compound)
  : bool :=
  match cs with
  | [] => true
  | [c] => matchesCompound doc el c
  | c :: outer =>
      matchesCompound doc el c
      && match parentElement el with
         | Some p => matchesChain doc p outer
         | None => false
         end
  end.

(** [document.querySelectorAll(selector)]. *)
Definition querySelectorAll (doc : Document) (sel : JsString)
  : option (list Element) :=
  match parseSelector sel with
  | Some cs =>
      Some (filter (fun el => matchesChain doc el (rev cs))
                   (documentElements doc))
  | None => None
  end.

(** *** Building documents *)

(** An element laid out and shown. *)
Definition shown : Props :=
  mkProps [] [] [] [] false 100%Q 20%Q (js "block") (js "visible") (js "1").

Definition withType (p : Props) (t : JsString) : Props :=
  mkProps (el_name p) t (el_value p) (el_placeholder p) (el_disabled p)
          (rect_width p) (rect_height p) (style_display p)
          (style_visibility p) (style_opacity p).

Definition withValue (p : Props) (v : JsString) : Props :=
  mkProps (el_name p) (el_type p) v (el_placeholder p) (el_disabled p)
          (rect_width p) (rect_height p) (style_display p)
          (style_visibility p) (style_opacity p).

Definition withOpacity (p : Props) (o : JsString) : Props :=
  mkProps (el_name p) (el_type p) (el_value p) (el_placeholder p)
          (el_disabled p) (rect_width p) (rect_height p) (style_display p)
          (style_visibility p) o.

(** [<tag attrs>children</tag>] with the properties [p]. *)
Definition elem (t : string) (attrs : list (string * string)) (p : Props)
  (children : list Node) : Node :=
  ElementNode (js t) (map (fun a => (js (fst a), js (snd a))) attrs) p
              children None.

Definition txt (s : string) : Node := TextNode (js s).

(** [<button>text</button>], of type submit as a button is by default. *)
Definition button (attrs : list (string * string)) (label : string) : Node :=
  elem "BUTTON" attrs (withType shown (js "submit")) [txt label].

(** [<option value=v>label</option>]. *)
Definition optionNode (v label : string) : Node :=
  elem "OPTION" [("value"%string, v)] (withValue shown (js v)) [txt label].

(** [<select attrs>options</select>]. *)
Definition selectNode (attrs : list (string * string)) (p : Props)
  (options : list Node) : Node :=
  elem "SELECT" attrs (withType p (js "select-one")) options.

(** [<html><head></head><body>children</body></html>]. *)
Definition page (children : list Node) : Document :=
  mkDocument (Some (elem "HTML" [] shown
                      [elem "HEAD" [] noProps []; elem "BODY" [] shown children])).

(** The script on a document, with this engine. *)
Definition scan (doc : Document) : option Tagger.ElementMap :=
  Tagger.performTagging querySelectorAll doc.

End MiniDom.

(* ================================================================= *)
(** ** The design document's wording *)

(** What the design document says of the functions above, written from its
    words, to be compared with the code. *)
Module Design.

Import Js Dom Tagger.

(** The elements the profile builder works on: what the collector found
    and the visibility filter kept. *)
Definition visibleSet (doc : Document) : list Element :=
  filter (fun el => isVisible (propsOf doc el))
         (getAllElementsIncludingShadow doc).

(** The line [buildPositionBasedSelector] writes when it returns: the one
    trace a result of the structural tier leaves. *)
Definition positionLine : JsString :=
  logPrefix ++ js "Position-based selector: ".

Definition fromStructuralTier (log : list JsString) : bool :=
  existsb (startsWith positionLine) log.

(** The lines the strategies after the text strategy write: type,
    accessible name, structural fallback. *)
Definition laterStrategyLines : list JsString :=
  [logPrefix ++ js "Using type: ";
   logPrefix ++ js "Using aria-label: ";
   logPrefix ++ js "Using aria-labelledby: ";
   logPrefix ++ js "Falling back to position-based selector"].

Definition fromLaterStrategy (line : JsString) : bool :=
  existsb (fun start => startsWith start line) laterStrategyLines.

(** The line the text strategy writes before it hands over to contextual
    disambiguation. *)
Definition textNotUniqueLine (text : JsString) : JsString :=
  logPrefix ++ js "Text not unique, building contextual selector for: "
  ++ dquote ++ text ++ dquote.

(** A text between double quotes (code unit 34), a backslash (code unit
    92) put before every double quote of the text. *)
Definition quoted (text : JsString) : JsString :=
  [34%N]
  ++ flat_map (fun c => if (c =? 34)%N then [92%N; 34%N] else [c]) text
  ++ [34%N].

(** The text predicate on a tag, spelled out: the tag, [:has-text(], the
    quoted text and the closing parenthesis. *)
Definition withText (tag text : JsString) : JsString :=
  tag ++ js ":has-text(" ++ quoted text ++ js ")".

(** The compound selector, spelled out: the text predicate on the
    ancestor's tag and text, the scoping operator [>>] between spaces, and
    the text predicate on the element's tag and text. *)
Definition compoundSelector (ancestorTag ancestorText tag text : JsString)
  : JsString :=
  withText ancestorTag ancestorText ++ js " >> " ++ withText tag text.

(** The ancestors of an element, nearest first, at most [levels] of them,
    starting from [parent]. *)
Fixpoint ancestors (levels : nat) (parent : option Element) : list Element :=
  match levels, parent with
  | S levels', Some p => p :: ancestors levels' (parentElement p)
  | _, _ => []
  end.

(** An ancestor qualifies for a text when its own direct text is not
    empty and differs from it. *)
Definition qualifiesFor (doc : Document) (text : JsString) (p : Element)
  : bool :=
  truthy (getDirectText doc (Some p))
  && negb (eqb (getDirectText doc (Some p)) text).

Definition qualifies (doc : Document) (el p : Element) : bool :=
  qualifiesFor doc (getDirectText doc (Some el)) p.

(** The first id met among [l], or the empty string. *)
Definition firstId (doc : Document) (l : list Element) : JsString :=
  match find (fun p => truthy (id doc p)) l with
  | Some p => id doc p
  | None => []
  end.

(** The elements of [l] before the first that satisfies [f]. *)
Fixpoint before {A : Type} (f : A -> bool) (l : list A) : list A :=
  match l with
  | [] => []
  | a :: rest => if f a then [] else a :: before f rest
  end.

(** [container_id] as the document words it: the first ancestor id met
    within the five levels, whether or not that ancestor's text
    qualified. *)
Definition firstAncestorId (doc : Document) (el : Element) : JsString :=
  firstId doc (ancestors 5 (parentElement el)).

(** The ancestor the contextual walk takes for [text], starting at
    [parent] with [levels] to go: the nearest one that qualifies, no
    nearer one qualifying or carrying an id. *)
Inductive scopingAncestor (doc : Document) (text : JsString)
  : nat -> option Element -> Element -> Prop :=
| scoping_here (levels : nat) (p : Element) :
    qualifiesFor doc text p = true ->
    scopingAncestor doc text (S levels) (Some p) p
| scoping_above (levels : nat) (p a : Element) :
    qualifiesFor doc text p = false ->
    id doc p = [] ->
    scopingAncestor doc text levels (parentElement p) a ->
    scopingAncestor doc text (S levels) (Some p) a.

(** The options the expander keeps. *)
Definition survivors (doc : Document) (options : list Element) : list Element :=
  filter (fun o => negb (skipsOption doc o)) options.




(** The profiles the expander adds for a select: one per surviving option
    in document order, under the id of its position. *)
Fixpoint expansion (doc : Document) (selectElement : Element)
  (selectId selectSelector : JsString) (position : N) (kept : list Element)
  (map : ElementMap) : ElementMap :=
  match kept with
  | [] => map
  | o :: rest =>
      expansion doc selectElement selectId selectSelector (position + 1) rest
        (objSet map (optionId selectId position)
                (optionProfile doc selectElement o selectSelector))
  end.

(** The text of an input or textarea as the document words it:
    placeholder, then value, and only then the direct text. *)
Definition preferredText (doc : Document) (el : Element) : JsString :=
  orElse (el_placeholder (propsOf doc el))
         (orElse (el_value (propsOf doc el)) (getDirectText doc (Some el))).

End Design.

(* ================================================================= *)
(** ** Notions the properties are stated with *)

Module Notions.

Import Js Dom Tagger Design.

(** [el] is an element of the document with the tag [name]. *)
Definition isElementOf (doc : Document) (name : JsString) (el : Element)
  : bool :=
  match nodeAt doc el with
  | Some n => isTagged name n
  | None => false
  end.

(** The key and the selector of each profile of a scan result. *)
Definition selectorsOf (result : option ElementMap)
  : option (list (JsString * option JsString)) :=
  match result with
  | Some map => Some (List.map (fun kv => (fst kv, selector (snd kv))) map)
  | None => None
  end.

(** No line of the log starts as a line of a later strategy does. *)
Definition earlierLines (log : list JsString) : Prop :=
  forallb (fun line => negb (fromLaterStrategy line)) log = true.

(** The id the ancestor walk holds, or [x] when it holds none yet. *)
Definition held (c : Context) (x : JsString) : JsString :=
  if truthy (container_id c) then container_id c else x.

(** The context of the ancestor walk after an ancestor that did not
    qualify. *)
Definition passed (doc : Document) (p : Element) (c : Context) : Context :=
  if negb (truthy (container_id c)) && truthy (id doc p)
  then setContainerId c (id doc p) else c.

(** The fold of [getDirectText] over child nodes, from any start. *)
Definition directFold (acc : JsString) (ns : list Node) : JsString :=
  fold_left (fun acc node =>
               match node with
               | TextNode data => acc ++ trim data
               | _ => acc
               end) ns acc.

(** Two nodes that the script cannot tell apart unless it looks at the
    child elements: the same kind, tag, attributes and properties, and
    the same text nodes in the same order. *)
Definition sameShell (n n' : Node) : Prop :=
  match n, n' with
  | ElementNode t a p cs _, ElementNode t' a' p' cs' _ =>
      t = t' /\ a = a' /\ p = p'
      /\ forall acc, directFold acc cs' = directFold acc cs
  | TextNode d, TextNode d' => d = d'
  | CommentNode d, CommentNode d' => d = d'
  | _, _ => False
  end.

(** What appending overlays to the body keeps of a document: the body,
    the shell of every node, and every node but the root and the body
    whole. *)
Definition preserved (doc doc' : Document) : Prop :=
  body doc' = body doc
  /\ (forall el n, nodeAt doc el = Some n ->
                   exists n', nodeAt doc' el = Some n' /\ sameShell n n')
  /\ (forall el n, nodeAt doc el = Some n -> el <> [] -> Some el <> body doc ->
                   nodeAt doc' el = Some n).

End Notions.

(* ================================================================= *)
(** ** Documents the properties are run on *)

Module Pages.

Import Js Dom MiniDom.

Local Open Scope string_scope.

(** Two buttons with the same text, each under a section with a text of
    its own. *)
Definition checkout : Document :=
  page [ elem "SECTION" [] shown [txt "Billing"; button [] "Submit"];
         elem "SECTION" [] shown [txt "Shipping"; button [] "Submit"] ].

Definition billingSubmit : Element := [Child 1; Child 0; Child 1].
Definition shippingSubmit : Element := [Child 1; Child 1; Child 1].

(** Two buttons with the same text under two sections with the same
    text. *)
Definition twoForms : Document :=
  page [ elem "SECTION" [] shown [txt "Pay"; button [] "Submit"];
         elem "SECTION" [] shown [txt "Pay"; button [] "Submit"] ].

Definition firstSubmit : Element := [Child 1; Child 0; Child 1].
Definition secondSubmit : Element := [Child 1; Child 1; Child 1].

(** Two buttons with the same text, each in a division with the text
    Actions, under two sections with the texts Billing and Shipping. *)
Definition actionColumns : Document :=
  page [ elem "SECTION" [] shown
           [txt "Billing";
            elem "DIV" [] shown [txt "Actions"; button [] "Submit"]];
         elem "SECTION" [] shown
           [txt "Shipping";
            elem "DIV" [] shown [txt "Actions"; button [] "Submit"]] ].

Definition billingAction : Element := [Child 1; Child 1; Child 0; Child 1].
Definition shippingAction : Element := [Child 1; Child 1; Child 1; Child 1].
Definition billingSection : Element := [Child 0; Child 1].
Definition shippingSection : Element := [Child 1; Child 1].

(** A select with a placeholder option and two real ones. *)
Definition countryForm : Document :=
  page [ selectNode [("id", "country")] shown
           [optionNode "" "Choose"; optionNode "a1" "A one";
            optionNode "a2" "A two"] ].

Definition theSelect : Element := [Child 0; Child 1].

(** Two selects with the same id, the second with opacity 0. *)
Definition twoSelects : Document :=
  page [ selectNode [("id", "dup")] shown [optionNode "x" "X"];
         selectNode [("id", "dup")] (withOpacity shown (js "0"))
           [optionNode "y" "Y"] ].


(** One select with opacity 0 and an id of its own. *)
Definition hiddenSelect : Document :=
  page [ button [] "Go";
         selectNode [("id", "hidden")] (withOpacity shown (js "0"))
           [optionNode "y" "Y"] ].

(** A single select with the id the two of [twoSelects] share. *)
Definition oneSelect : Document :=
  page [ selectNode [("id", "dup")] shown [optionNode "x" "X"] ].

(** A button in a span with an id, in a division with a text and an id. *)
Definition nested : Document :=
  page [ elem "DIV" [("id", "outer")] shown
           [txt "Heading";
            elem "SPAN" [("id", "inner")] shown [button [] "Go"]] ].

Definition nestedButton : Element := [Child 0; Child 1; Child 0; Child 1].

(** A textarea the user has emptied: its default text is still its child,
    its value is empty, and it has no placeholder. *)
Definition emptiedTextarea : Document :=
  page [ elem "TEXTAREA" [] (withType shown (js "textarea")) [txt "draft"] ].

Definition theTextarea : Element := [Child 0; Child 1].

(** The scan after step 1, with the engine of [MiniDom]. *)
Definition afterStepOne (doc : Document) : Tagger.Scan :=
  match Tagger.tagElements querySelectorAll doc with
  | Some st => st
  | None => Tagger.mkScan doc [] 1
  end.


End Pages.

(* ================================================================= *)
(** ** The tagger, version 3.0 ([src/utils/tagger.js]) *)

(** The stability gate, the collector, [isUnique], [getNthChildIndex], the
    visibility tests and the loops of the two steps of version 3.0 are those
    of version 4.0.  What differs is below: the direct text, the structural
    path, the strategy chain (which writes nothing to the console) and the
    profile, which has no context (nor has the profile of an option). *)
Module TaggerV3.

Import Js Dom.

(** A profile: selector, text, tag and attributes. *)
Record Profile : Type := mkProfile {
  selector : option JsString;
  text : JsString;
  tag : JsString;
  profileAttributes : JsObject JsString
}.

Section Synthesizer.

Variable querySelectorAll : Document -> JsString -> option (list Element).

(** [getDirectText(el)]: the trimmed text nodes, joined; no white space
    is collapsed. *)
Definition getDirectText (doc : Document) (el : Element) : JsString :=
  fold_left (fun text node =>
               match node with
               | TextNode data => text ++ trim data
               | _ => text
               end)
            (childNodes doc el) [].

(** The loop of [buildCSSPath], with [left] = [maxDepth] - [depth]. *)
Fixpoint cssPath (doc : Document) (left : nat) (current : option Element)
  (path : list JsString) : list JsString :=
  match left, current with
  | S left', Some cur =>
      let selector := toLowerCase (tagName doc cur) in
      let nthIndex := Tagger.getNthChildIndex doc cur in
      let selector :=
        selector ++ js ":nth-child(" ++ numberToString nthIndex ++ js ")" in
      let path := selector :: path in
      let current := parentElement cur in
      if match current, body doc with
         | Some c, Some b => sameElement c b
         | None, None => true
         | _, _ => false
         end
         || Tagger.isUnique querySelectorAll doc (join (js " > ") path)
      then path
      else cssPath doc left' current path
  | _, _ => path
  end.

(** [buildCSSPath(el)], with the default [maxDepth] of 5. *)
Definition buildCSSPath (doc : Document) (el : Element) : JsString :=
  join (js " > ") (cssPath doc 5 (Some el) []).

(** A strategy gives [Some] when the function returns inside it; the
    strategies but the fourth return a selector that [isUnique] accepts. *)
Definition verified (doc : Document) (selector : JsString) : option JsString :=
  if Tagger.isUnique querySelectorAll doc selector then Some selector else None.

(** Strategy 1: the id. *)
Definition idStrategy (doc : Document) (el : Element) : option JsString :=
  if truthy (id doc el) && isValidId (id doc el)
  then verified doc (js "#" ++ id doc el)
  else None.

(** Strategy 2: the name. *)
Definition nameStrategy (doc : Document) (el : Element) : option JsString :=
  if truthy (el_name (propsOf doc el))
  then verified doc (Tagger.attrSelector [] (js "name") (el_name (propsOf doc el)))
  else None.

(** Strategy 3: the loop over [el.attributes]. *)
Fixpoint dataStrategy (doc : Document) (attrs : list (JsString * JsString))
  : option JsString :=
  match attrs with
  | [] => None
  | (name, v) :: rest =>
      if startsWith (js "data-") name && truthy v then
        match verified doc (Tagger.attrSelector [] name v) with
        | Some selector => Some selector
        | None => dataStrategy doc rest
        end
      else dataStrategy doc rest
  end.

(** Strategy 4: the text selector of a button or an anchor, returned as it
    is. *)
Definition textStrategy (doc : Document) (el : Element) : option JsString :=
  let text := getDirectText doc el in
  if truthy text && (0 <? List.length text)%nat && (List.length text <? 100)%nat
  then
    let tagName' := toLowerCase (tagName doc el) in
    if eqb tagName' (js "button") || eqb tagName' (js "a")
    then Some (Tagger.hasText tagName' (escapeQuotes text))
    else None
  else None.

(** Strategy 5: the type. *)
Definition typeStrategy (doc : Document) (el : Element) : option JsString :=
  if truthy (el_type (propsOf doc el))
     && negb (eqb (toLowerCase (tagName doc el)) (js "div"))
  then verified doc (Tagger.attrSelector (toLowerCase (tagName doc el))
                                         (js "type") (el_type (propsOf doc el)))
  else None.

(** Strategy 6: [aria-label], then [aria-labelledby]. *)
Definition ariaStrategy (doc : Document) (el : Element) (attr : JsString)
  : option JsString :=
  let v := getAttribute doc el attr in
  if Tagger.truthyAttr v
  then verified doc (Tagger.attrSelector (toLowerCase (tagName doc el)) attr
                                         (Tagger.attrText v))
  else None.

Definition orNext (s : option JsString) (next : JsString) : JsString :=
  match s with
  | Some result => result
  | None => next
  end.

(** Strategy 7, after the others: the CSS path. *)
Definition getUniversalSelector (doc : Document) (el : Element) : JsString :=
  orNext (idStrategy doc el)
  (orNext (nameStrategy doc el)
  (orNext (dataStrategy doc (attributes doc el))
  (orNext (textStrategy doc el)
  (orNext (typeStrategy doc el)
  (orNext (ariaStrategy doc el (js "aria-label"))
  (orNext (ariaStrategy doc el (js "aria-labelledby"))
  (buildCSSPath doc el))))))).

End Synthesizer.

(** The text of the profile before it is normalised: the text nodes are
    joined as they are. *)
Definition rawText (doc : Document) (el : Element) : JsString :=
  if eqb (toLowerCase (tagName doc el)) (js "input")
     || eqb (toLowerCase (tagName doc el)) (js "textarea")
  then orElse (el_placeholder (propsOf doc el))
              (orElse (el_value (propsOf doc el)) [])
  else fold_left (fun textContent node =>
                    match node with
                    | TextNode data => textContent ++ data
                    | _ => textContent
                    end)
                 (childNodes doc el) [].

(** [extractElementProfile(el)]: the profile before the selector is set. *)
Definition extractElementProfile (doc : Document) (el : Element) : Profile :=
  {| selector := None;
     text := collapseWhitespace (trim (rawText doc el));
     tag := toLowerCase (tagName doc el);
     profileAttributes :=
       Tagger.dataAttributeValues doc el (Tagger.keyAttributeValues doc el) |}.

End TaggerV3.

(** Step 1 of version 3.0. *)
Module ScanV3.

Import Js Dom TaggerV3.

Definition withSelector (p : Profile) (s : JsString) : Profile :=
  {| selector := Some s;
     text := text p;
     tag := tag p;
     profileAttributes := profileAttributes p |}.

(** The document, [elementMap] and [idCounter]. *)
Record Scan : Type := mkScan {
  scanDocument : Document;
  elementMap : JsObject Profile;
  idCounter : N
}.

Section Scan.

Variable querySelectorAll : Document -> JsString -> option (list Element).

(** The body of the [elements.forEach] of step 1; [None] is an exception
    leaving the scan. *)
Definition tagElement (st : Scan) (element : Element) : option Scan :=
  let doc := scanDocument st in
  if negb (Tagger.isVisible (propsOf doc element)) then Some st
  else
    let profile := extractElementProfile doc element in
    let profile :=
      withSelector profile (getUniversalSelector querySelectorAll doc element) in
    let elementId := idCounter st in
    let map' := objSet (elementMap st) (numberToString elementId) profile in
    match appendToBody doc (Tagger.overlayNode (numberToString elementId)) with
    | Some doc' => Some (mkScan doc' map' (elementId + 1))
    | None => None
    end.

(** Step 1, after the overlays of an earlier run are removed. *)
Definition tagElements (doc : Document) : option Scan :=
  let doc := removeOverlays doc in
  Tagger.forEach tagElement (Tagger.getAllElementsIncludingShadow doc)
                 (mkScan doc [] 1).

End Scan.

(** The tag and the attributes of a profile, in either version. *)
Definition tagAndAttributes (p : Profile) : JsString * JsObject JsString :=
  (tag p, profileAttributes p).

Definition tagAndAttributesV4 (p : Tagger.Profile)
  : JsString * JsObject JsString :=
  (Tagger.tag p, Tagger.profileAttributes p).

End ScanV3.

(* ================================================================= *)
(** ** The uniqueness heuristic of version 4.0, which nothing calls *)

Module Unused.

Import Js Dom Tagger.

(** [s.split(part)[0]]: [s] up to the first occurrence of [part]. *)
Fixpoint beforeFirst (part s : JsString) : JsString :=
  if startsWith part s then []
  else match s with
       | [] => []
       | c :: r => c :: beforeFirst part r
       end.

Section Playwright.

Variable querySelectorAll : Document -> JsString -> option (list Element).

(** [isPlaywrightSelectorUnique(selector)]. *)
Definition isPlaywrightSelectorUnique (doc : Document) (sel : JsString) : bool :=
  if includes (js ">>") sel then true
  else if includes (js ":has-text(") sel then
    match querySelectorAll doc (beforeFirst (js ":has-text(") sel) with
    | Some matches => Nat.eqb (List.length matches) 1
    | None => false
    end
  else isUnique querySelectorAll doc sel.

End Playwright.

End Unused.

(* ================================================================= *)
(** ** Further notions *)

Module GateRunDefs.
Import StabilityGate.

(** The gate of a document with a body after the failsafe fired with the
    debounce timer pending. *)
Definition pending (d : Z) (r : option Z) (runs : list Z) : Gate :=
  {| stabilityTimer := Some d; maxWaitTimer := None; observing := false;
     resolvedAt := r; rejected := false; taggingRuns := runs |}.




End GateRunDefs.

Module TreeDefs.

Import Js Dom Tagger.

(** The steps of the light tree. *)
Definition isChildStep (s : Step) : bool :=
  match s with Child _ => true | ShadowChild _ => false end.

(** The shadow results over a list of sibling nodes. *)
Fixpoint shadowForest (doc : Document) (p : Element) (mk : nat -> Step)
  (i : nat) (ns : list Node) : list Element :=
  match ns with
  | [] => []
  | c :: ns' => shadowResults doc (mk i :: p) c ++ shadowForest doc p mk (S i) ns'
  end.

(** [P] holds of every child of the shadow root, if there is one. *)
Definition shadowAll (P : Node -> Prop) (sh : option (list Node)) : Prop :=
  match sh with
  | Some roots => Forall P roots
  | None => True
  end.

(** Induction on a node with the hypothesis for every child and every
    child of the shadow root. *)
Fixpoint Node_nested_ind (P : Node -> Prop)
  (Htext : forall d, P (TextNode d))
  (Hcomment : forall d, P (CommentNode d))
  (Helement : forall t a pr cs sh,
      Forall P cs -> shadowAll P sh -> P (ElementNode t a pr cs sh))
  (n : Node) {struct n} : P n :=
  match n with
  | TextNode d => Htext d
  | CommentNode d => Hcomment d
  | ElementNode t a pr cs sh =>
      Helement t a pr cs sh
        ((fix all (ns : list Node) : Forall P ns :=
            match ns with
            | [] => Forall_nil P
            | c :: ns' =>
                Forall_cons c (Node_nested_ind P Htext Hcomment Helement c)
                            (all ns')
            end) cs)
        (match sh as o return shadowAll P o with
         | Some roots =>
             (fix all (ns : list Node) : Forall P ns :=
                match ns with
                | [] => Forall_nil P
                | c :: ns' =>
                    Forall_cons c (Node_nested_ind P Htext Hcomment Helement c)
                                (all ns')
                end) roots
         | None => I
         end)
  end.

(** The route enters a shadow root. *)
Definition hasShadowStep (r : list Step) : bool :=
  negb (forallb isChildStep r).

(** What [matching] keeps for a predicate. *)
Definition passes (doc : Document) (pred : Node -> bool) (el : Element) : bool :=
  match nodeAt doc el with
  | Some n => pred n
  | None => false
  end.

End TreeDefs.

Module RescanDefs.
Import Js Dom Tagger.

(** The children [withoutOverlays] keeps of a list of child nodes. *)
Fixpoint keptChildren (ns : list Node) : list Node :=
  match ns with
  | [] => []
  | c :: ns' =>
      if isOverlay c then keptChildren ns' else withoutOverlays c :: keptChildren ns'
  end.

End RescanDefs.

Module NumberingDefs.
Import Js Dom Tagger.

(** [n] successive numbers from [k]. *)
Fixpoint idsFrom (k : N) (n : nat) : list N :=
  match n with
  | O => []
  | S n' => k :: idsFrom (k + 1)%N n'
  end.

(** The LogicalIDs 1 .. [n] as keys. *)
Definition logicalIds (n : nat) : list JsString :=
  map numberToString (idsFrom 1 n).

(** What a profile says of the element alone: its tag, text and
    attributes. *)
Definition shellOf (p : Profile) : JsString * JsString * JsObject JsString :=
  (tag p, text p, profileAttributes p).

End NumberingDefs.

Module CompletionDefs.

Import Js Dom Tagger Notions.

(** What step 2 keeps of a scan: the document up to overlays, the counter
    and the keys of the map, in their order. *)
Definition extends (d : Document) (st st' : Scan) : Prop :=
  preserved d (scanDocument st')
  /\ idCounter st' = idCounter st
  /\ exists added, map fst (elementMap st') = map fst (elementMap st) ++ added.

End CompletionDefs.

Module SelectorDefs.
Import Js Dom Tagger.

(** A profile whose selector is set and is not the empty string. *)
Definition hasSelector (p : Profile) : Prop :=
  exists s, selector p = Some s /\ s <> [].

(** Every profile of the element map of a scan has one. *)
Definition allSelected (st : Scan) : Prop :=
  Forall (fun kv => hasSelector (snd kv)) (elementMap st).

End SelectorDefs.

Module TextDefs.
Import Js.

(** [s] does not start with white space. *)
Definition startsClean (s : JsString) : bool :=
  match s with
  | [] => true
  | c :: _ => negb (isWhiteSpace c)
  end.

(** [s] does not end with white space. *)
Fixpoint endsClean (s : JsString) : bool :=
  match s with
  | [] => true
  | [c] => negb (isWhiteSpace c)
  | _ :: r => endsClean r
  end.

(** Every white space of [s] is a space that follows no white space;
    [afterSpace] says the unit before was one. *)
Fixpoint singleSpaced (afterSpace : bool) (s : JsString) : bool :=
  match s with
  | [] => true
  | c :: r =>
      if isWhiteSpace c
      then (c =? 32)%N && negb afterSpace && singleSpaced true r
      else singleSpaced false r
  end.

(** A normalised text: no white space at either end, and between words
    single spaces only. *)
Definition normalised (s : JsString) : bool :=
  startsClean s && endsClean s && singleSpaced false s.

End TextDefs.

Module AttributeDefs.
Import Js Dom Tagger.

(** [name] is one of the twelve attributes the profile builder asks for. *)
Definition isKeyAttribute (name : JsString) : bool :=
  existsb (eqb name) keyAttributes.

(** What the profile keeps of an attribute value the builder asked for:
    nothing of an absent or empty one. *)
Definition nonEmptyValue (v : option JsString) : option JsString :=
  match v with
  | Some s => if truthy s then Some s else None
  | None => None
  end.

End AttributeDefs.

Module SiblingDefs.
Import Js Dom Tagger.

(** The node at place [j] is an element. *)
Definition isElementAt (ns : list Node) (j : nat) : bool :=
  match nth_error ns j with
  | Some n => isElementNode n
  | None => false
  end.

(** The places before [i] that hold an element, the nearest first. *)
Definition elementPlacesBefore (ns : list Node) (i : nat) : list nat :=
  filter (isElementAt ns) (rev (seq 0 i)).

(** The element siblings before [el], the nearest first. *)
Definition precedingElementSiblings (doc : Document) (el : Element)
  : list Element :=
  map (atPlace el) (elementPlacesBefore (siblingNodes doc el) (place el)).

(** The direct text of [el] is not empty. *)
Definition hasDirectText (doc : Document) (el : Element) : bool :=
  truthy (getDirectText doc (Some el)).

End SiblingDefs.

Module PathDefs.
Import Js Dom Tagger.

(** The element [el] and the elements above it, nearest first, [m] of
    them. *)
Definition upward (el : Element) (m : nat) : list Element :=
  map (fun k => skipn k el) (seq 0 m).

(** The test the loop stops at: an id that is a valid identifier. *)
Definition hasValidId (doc : Document) (el : Element) : bool :=
  truthy (id doc el) && isValidId (id doc el).

(** The segment of the position-based selector for an element. *)
Definition segment (doc : Document) (el : Element) : JsString :=
  if hasValidId doc el then js "#" ++ id doc el
  else toLowerCase (tagName doc el) ++ js ":nth-child("
       ++ numberToString (getNthChildIndex doc el) ++ js ")".

End PathDefs.

Module QuotingDefs.
Import Js Dom Tagger.

(** The value of a string literal as a selector engine reads it after the
    opening double quote: a backslash makes the unit after it part of the
    value, and the first double quote without one ends the literal.  The
    result is the value and what follows the closing quote; [None] is a
    literal that does not end. *)
Fixpoint readQuoted (s : JsString) : option (JsString * JsString) :=
  match s with
  | [] => None
  | c :: r =>
      if (c =? 34)%N then Some ([], r)
      else if (c =? 92)%N then
        match r with
        | [] => None
        | d :: r' =>
            match readQuoted r' with
            | Some (v, rest) => Some (d :: v, rest)
            | None => None
            end
        end
      else
        match readQuoted r with
        | Some (v, rest) => Some (c :: v, rest)
        | None => None
        end
  end.

(** No unit of [s] is a backslash. *)
Definition hasNoBackslash (s : JsString) : bool :=
  forallb (fun c => negb (c =? 92)%N) s.

End QuotingDefs.

Module VersionDefs.
Import Js Dom.

(** No element on the way from [el] up to the root has an id the
    position-based selector of version 4.0 would stop at. *)
Definition noValidIdAbove (doc : Document) (el : Element) : Prop :=
  forall k, truthy (id doc (skipn k el)) && isValidId (id doc (skipn k el)) = false.

(** The first three strategies of version 3.0 return nothing. *)
Definition unidentified
  (querySelectorAll : Document -> JsString -> option (list Element))
  (doc : Document) (el : Element) : Prop :=
  TaggerV3.idStrategy querySelectorAll doc el = None
  /\ TaggerV3.nameStrategy querySelectorAll doc el = None
  /\ TaggerV3.dataStrategy querySelectorAll doc (attributes doc el) = None.

End VersionDefs.

Module ScanPages.

Import Js Dom MiniDom.

(** The scan after step 2, with the engine of [MiniDom]. *)
Definition afterStepTwo (doc : Document) : Tagger.Scan :=
  match Tagger.expandSelects querySelectorAll (Pages.afterStepOne doc) with
  | Some st => st
  | None => Pages.afterStepOne doc
  end.

(** A document whose root is no [html] element, so that it has no body:
    a button under an [svg] root. *)
Definition bodyless : Document :=
  mkDocument (Some (elem "svg" [] shown [button [] "Go"])).

(** A page with one input that has an empty [data-state] and an empty
    [title]. *)
Definition emptyValues : Document :=
  MiniDom.page
    [MiniDom.elem "INPUT"
       [("data-state"%string, ""%string); ("title"%string, ""%string);
        ("name"%string, "q"%string)]
       MiniDom.shown []].

End ScanPages.

(* ================================================================= *)
(** ** Properties *)

Module GateFacts.

Import StabilityGate.

Local Open Scope Z_scope.

Section Facts.

Variable timersFirst : bool.


Lemma dueBefore_mono (d d' m : Z) :
  d <= d' -> dueBefore timersFirst d' m = true -> dueBefore timersFirst d m = true.
Proof. unfold dueBefore; destruct timersFirst; lia. Qed.

Lemma not_dueBefore_ge (due m : Z) : dueBefore timersFirst due m = false -> m <= due.
Proof. unfold dueBefore; destruct timersFirst; lia. Qed.






Lemma debounceExpiry_lower (muts : list Z) (last : Z) :
  scheduleFrom last muts -> last + 300 <= debounceExpiry timersFirst last muts.
Proof.
  revert last; induction muts as [|m rest IH]; intros last H; cbn in *.
  - lia.
  - destruct H as [Hle H]. destruct (dueBefore timersFirst (last + 300) m); [lia|].
    specialize (IH _ H). lia.
Qed.

Lemma dueBefore_min (a b m : Z) :
  dueBefore timersFirst (Z.min a b) m
  = dueBefore timersFirst a m || dueBefore timersFirst b m.
Proof.
  unfold dueBefore; destruct timersFirst; lia.
Qed.

Lemma runTimers_waiting_idle (last m : Z) :
  dueBefore timersFirst (Z.min (last + 300) 3000) m = false ->
  runTimersBefore timersFirst m (waiting last) = waiting last.
Proof.
  rewrite dueBefore_min, orb_false_iff; intros [H1 H2].
  assert (fireNextBefore timersFirst m (waiting last) = waiting last) as E.
  { unfold fireNextBefore, nextTimer; cbn.
    destruct (last + 300 <? 3000); [rewrite H1 | rewrite H2]; reflexivity. }
  unfold runTimersBefore; rewrite E; exact E.
Qed.




(** A gate with no timer pending and the observer disconnected stays as
    it is. *)
Lemma deliver_settled (muts : list Z) (g : Gate) :
  stabilityTimer g = None -> maxWaitTimer g = None -> observing g = false ->
  deliver timersFirst muts g = g.
Proof.
  intros Hs Hm Ho.
  assert (forall m, fireNextBefore timersFirst m g = g) as Hidle.
  { intros m. unfold fireNextBefore, nextTimer. rewrite Hs, Hm. reflexivity. }
  induction muts as [|m rest IH]; cbn [deliver].
  - unfold drain, fireNext, nextTimer. rewrite Hs, Hm. cbn. rewrite Hs, Hm. reflexivity.
  - unfold runTimersBefore. rewrite !Hidle, Ho. exact IH.
Qed.

(** Without a body nothing but the failsafe runs, whatever the mutations:
    the observer never observed and the debounce timer was never set. *)
Lemma run_without_body (muts : list Z) :
  run timersFirst false muts
  = {| stabilityTimer := None; maxWaitTimer := None; observing := false;
       resolvedAt := None; rejected := true; taggingRuns := [3000] |}.
Proof.
  unfold run. induction muts as [|m rest IH]; cbn [deliver]; [reflexivity|].
  assert (fireNextBefore timersFirst m (start false)
          = if dueBefore timersFirst 3000 m
            then {| stabilityTimer := None; maxWaitTimer := None;
                    observing := false; resolvedAt := None; rejected := true;
                    taggingRuns := [3000] |}
            else start false) as E by reflexivity.
  unfold runTimersBefore. rewrite E.
  destruct (dueBefore timersFirst 3000 m) eqn:Hd.
  - rewrite !deliver_settled; reflexivity.
  - rewrite E. cbn [observing start]. exact IH.
Qed.




End Facts.






(** C3 (what the code does). The failsafe callback never clears the
    debounce timer, while the debounce callback clears the failsafe.  So
    when the deadline wins the debounce timer stays pending: for a
    document (with a body) that mutates every 100ms up to 2900ms,
    [performTagging] runs at 3000ms and again at 3200ms.  When the debounce
    wins, the scan runs once. *)
Theorem gate_deadline_leaves_debounce_pending :
  forall timersFirst : bool,
    (forall now g, stabilityTimer (onMaxWait now g) = stabilityTimer g)
    /\ (forall now g, maxWaitTimer (onStability now g) = None)
    /\ taggingRuns (run timersFirst true (every 100 29)) = [3000; 3200]
    /\ taggingRuns (run timersFirst true (every 100 25)) = [2800].
Proof.
  intros tf. split; [|split; [|split]].
  - reflexivity.
  - reflexivity.
  - destruct tf; vm_compute; reflexivity.
  - destruct tf; vm_compute; reflexivity.
Qed.

End GateFacts.

Module SynthesizerFacts.

Import Js Dom Tagger Design Notions Pages.

Lemma eqb_eq (a b : JsString) : eqb a b = true <-> a = b.
Proof.
  revert b; induction a as [|x a IH]; intros [|y b]; cbn; split;
    try discriminate; try reflexivity.
  - intros H. apply andb_true_iff in H as [H1 H2].
    apply N.eqb_eq in H1. apply IH in H2. congruence.
  - intros [= -> ->]. rewrite N.eqb_refl. apply IH. reflexivity.
Qed.

Lemma truthy_nonempty (s : JsString) : truthy s = true <-> s <> [].
Proof. destruct s; cbn; split; intros; congruence. Qed.

(** *** Which strategy a result comes from *)

Lemma returning_result (line sel : JsString) (r : Logged JsString) :
  returning line sel = Some r -> r = (sel, [logPrefix ++ line]).
Proof. intros [= <-]. reflexivity. Qed.

Lemma idStrategy_unique q doc el r :
  idStrategy q doc el = Some r -> isUnique q doc (fst r) = true.
Proof.
  unfold idStrategy.
  destruct (truthy (id doc el) && isValidId (id doc el)); [|discriminate].
  destruct (isUnique q doc (js "#" ++ id doc el)) eqn:E; [|discriminate].
  intros H. apply returning_result in H. subst r. exact E.
Qed.

Lemma nameStrategy_unique q doc el r :
  nameStrategy q doc el = Some r -> isUnique q doc (fst r) = true.
Proof.
  unfold nameStrategy.
  destruct (truthy (el_name (propsOf doc el))); [|discriminate].
  cbv zeta.
  destruct (isUnique q doc (attrSelector [] (js "name") (el_name (propsOf doc el))))
    eqn:E; [|discriminate].
  intros H. apply returning_result in H. subst r. exact E.
Qed.

Lemma dataStrategy_unique q doc attrs r :
  dataStrategy q doc attrs = Some r -> isUnique q doc (fst r) = true.
Proof.
  induction attrs as [|[name v] rest IH]; cbn [dataStrategy]; [discriminate|].
  destruct (startsWith (js "data-") name && truthy v); [|exact IH].
  cbv zeta.
  destruct (isUnique q doc (attrSelector [] name v)) eqn:E; [|exact IH].
  intros H. apply returning_result in H. subst r. exact E.
Qed.

Lemma typeStrategy_unique q doc el r :
  typeStrategy q doc el = Some r -> isUnique q doc (fst r) = true.
Proof.
  unfold typeStrategy.
  destruct (truthy (el_type (propsOf doc el)) && _); [|discriminate].
  cbv zeta.
  destruct (isUnique q doc (attrSelector (toLowerCase (tagName doc el))
                                         (js "type") (el_type (propsOf doc el))))
    eqn:E; [|discriminate].
  intros H. apply returning_result in H. subst r. exact E.
Qed.

Lemma ariaStrategy_unique q doc el attr line r :
  ariaStrategy q doc el attr line = Some r -> isUnique q doc (fst r) = true.
Proof.
  unfold ariaStrategy.
  destruct (truthyAttr (getAttribute doc el attr)); [|discriminate].
  cbv zeta.
  destruct (isUnique q doc (attrSelector (toLowerCase (tagName doc el)) attr
                                         (attrText (getAttribute doc el attr))))
    eqn:E; [|discriminate].
  intros H. apply returning_result in H. subst r. exact E.
Qed.

Lemma textStrategy_cases q doc el r :
  textStrategy q doc el = Some r ->
  isUnique q doc (fst r) = true
  \/ r = (consoleLog (textNotUniqueLine (getDirectText doc (Some el))) ;;;
          buildContextualSelector q doc el (getDirectText doc (Some el))).
Proof.
  unfold textStrategy.
  destruct (truthy _ && _ && _); [|discriminate].
  destruct (eqb _ _ || eqb _ _); [|discriminate].
  cbv zeta.
  destruct (isUnique q doc (hasText (toLowerCase (tagName doc el))
                                    (escapeQuotes (getDirectText doc (Some el)))))
    eqn:E.
  - intros H. apply returning_result in H. subst r. left. exact E.
  - intros [= <-]. right. reflexivity.
Qed.

(** C1 (amended). The selector [getUniversalSelector] returns either
    passed the live uniqueness test when it was returned (the id, name,
    data-attribute, unique-text, type and accessible-name strategies), or
    is the result of contextual disambiguation for the direct text, or is
    the result of the structural fallback; the last two are returned
    without a test of the result. *)
Theorem selector_is_verified_or_from_an_unverified_tier :
  forall (querySelectorAll : Document -> JsString -> option (list Element))
         (doc : Document) (el : Element),
    isUnique querySelectorAll doc
             (fst (getUniversalSelector querySelectorAll doc el)) = true
    \/ getUniversalSelector querySelectorAll doc el
       = (consoleLog (textNotUniqueLine (getDirectText doc (Some el))) ;;;
          buildContextualSelector querySelectorAll doc el
                                  (getDirectText doc (Some el)))
    \/ getUniversalSelector querySelectorAll doc el
       = fallbackStrategy querySelectorAll doc el.
Proof.
  intros q doc el. unfold getUniversalSelector.
  destruct (idStrategy q doc el) as [r|] eqn:E1; cbn [orNext].
  { left. eapply idStrategy_unique; eassumption. }
  destruct (nameStrategy q doc el) as [r|] eqn:E2; cbn [orNext].
  { left. eapply nameStrategy_unique; eassumption. }
  destruct (dataStrategy q doc (attributes doc el)) as [r|] eqn:E3; cbn [orNext].
  { left. eapply dataStrategy_unique; eassumption. }
  destruct (textStrategy q doc el) as [r|] eqn:E4; cbn [orNext].
  { destruct (textStrategy_cases q doc el r E4) as [H|H]; [left | right; left]; assumption. }
  destruct (typeStrategy q doc el) as [r|] eqn:E5; cbn [orNext].
  { left. eapply typeStrategy_unique; eassumption. }
  destruct (ariaStrategy q doc el (js "aria-label") _) as [r|] eqn:E6; cbn [orNext].
  { left. eapply ariaStrategy_unique; eassumption. }
  destruct (ariaStrategy q doc el (js "aria-labelledby") _) as [r|] eqn:E7; cbn [orNext].
  { left. eapply ariaStrategy_unique; eassumption. }
  right; right; reflexivity.
Qed.

(** C1 (as stated, refuted).  Two buttons with the same text under two
    sections with the same text, both in the visible set: each gets the
    same compound selector, which the live query does not resolve to one
    element, and which does not come from the structural tier.  And the
    selector of the structural tier carries no mark: the select of
    [twoSelects] gets from the structural fallback the very string the
    select of [oneSelect] gets from the id strategy. *)
Lemma compound_selector_unverified_and_fallback_unmarked :
  let q := MiniDom.querySelectorAll in
  let compound :=
    compoundSelector (js "section") (js "Pay") (js "button") (js "Submit") in
  In firstSubmit (visibleSet twoForms)
  /\ In secondSubmit (visibleSet twoForms)
  /\ fst (getUniversalSelector q twoForms firstSubmit) = compound
  /\ fst (getUniversalSelector q twoForms secondSubmit) = compound
  /\ isUnique q twoForms compound = false
  /\ fromStructuralTier (snd (getUniversalSelector q twoForms firstSubmit)) = false
  /\ fst (getUniversalSelector q twoSelects theSelect) = js "#dup"
  /\ fromStructuralTier (snd (getUniversalSelector q twoSelects theSelect)) = true
  /\ isUnique q twoSelects (js "#dup") = false
  /\ fst (getUniversalSelector q oneSelect theSelect) = js "#dup"
  /\ fromStructuralTier (snd (getUniversalSelector q oneSelect theSelect)) = false.
Proof.
  cbv zeta. repeat split; try (vm_compute; reflexivity).
  - vm_compute. left; reflexivity.
  - vm_compute. right; left; reflexivity.
Qed.


(** *** The text strategy *)

Lemma earlierLines_app (l1 l2 : list JsString) :
  earlierLines l1 -> earlierLines l2 -> earlierLines (l1 ++ l2).
Proof.
  unfold earlierLines. rewrite forallb_app. intros -> ->. reflexivity.
Qed.

Lemma returning_earlier (line sel : JsString) (r : Logged JsString) :
  fromLaterStrategy (logPrefix ++ line) = false ->
  returning line sel = Some r -> earlierLines (snd r).
Proof.
  intros H E. apply returning_result in E. subst r.
  unfold earlierLines; cbn [snd forallb]. rewrite H. reflexivity.
Qed.

Lemma idStrategy_earlier q doc el r :
  idStrategy q doc el = Some r -> earlierLines (snd r).
Proof.
  unfold idStrategy.
  destruct (truthy (id doc el) && isValidId (id doc el)); [|discriminate].
  cbv zeta. destruct (isUnique q doc (js "#" ++ id doc el)); [|discriminate].
  apply returning_earlier. vm_compute. reflexivity.
Qed.

Lemma nameStrategy_earlier q doc el r :
  nameStrategy q doc el = Some r -> earlierLines (snd r).
Proof.
  unfold nameStrategy.
  destruct (truthy (el_name (propsOf doc el))); [|discriminate].
  cbv zeta.
  destruct (isUnique q doc (attrSelector [] (js "name") (el_name (propsOf doc el))));
    [|discriminate].
  apply returning_earlier. vm_compute. reflexivity.
Qed.

Lemma dataStrategy_earlier q doc attrs r :
  dataStrategy q doc attrs = Some r -> earlierLines (snd r).
Proof.
  induction attrs as [|[name v] rest IH]; cbn [dataStrategy]; [discriminate|].
  destruct (startsWith (js "data-") name && truthy v); [|exact IH].
  cbv zeta.
  destruct (isUnique q doc (attrSelector [] name v)); [|exact IH].
  apply returning_earlier. vm_compute. reflexivity.
Qed.

Lemma buildPositionBasedSelector_earlier q doc el :
  earlierLines (snd (buildPositionBasedSelector q doc el)).
Proof.
  unfold buildPositionBasedSelector, earlierLines; cbn [bind consoleLog ret snd app forallb].
  generalize (join (js " > ") (positionPath q doc 5 (Some el) [])); intros s.
  vm_compute. reflexivity.
Qed.

Lemma contextualScan_earlier doc tag escaped text levels parent r :
  contextualScan doc tag escaped text levels parent = Some r ->
  earlierLines (snd r).
Proof.
  revert parent; induction levels as [|levels IH]; intros [p|]; cbn [contextualScan];
    try discriminate.
  cbv zeta.
  destruct (truthy (getDirectText doc (Some p)) && _ && _).
  - intros [= <-]. unfold earlierLines; cbn [bind consoleLog ret snd app forallb].
    generalize (hasText (toLowerCase (tagName doc p))
                        (escapeQuotes (getDirectText doc (Some p)))
                ++ js " >> " ++ hasText tag escaped); intros s.
    vm_compute. reflexivity.
  - destruct (truthy (id doc p)).
    + intros [= <-]. unfold earlierLines; cbn [bind consoleLog ret snd app forallb].
      generalize (js "#" ++ id doc p ++ js " >> " ++ hasText tag escaped); intros s.
      vm_compute. reflexivity.
    + apply IH.
Qed.

Lemma buildContextualSelector_earlier q doc el text :
  earlierLines (snd (buildContextualSelector q doc el text)).
Proof.
  unfold buildContextualSelector. cbv zeta.
  destruct (contextualScan _ _ _ _ _ _) as [r|] eqn:E.
  - eapply contextualScan_earlier; eassumption.
  - apply buildPositionBasedSelector_earlier.
Qed.

Lemma snd_bind_log (line : JsString) (c : Logged JsString) :
  snd (consoleLog line ;;; c) = line :: snd c.
Proof. destruct c as [a l]. reflexivity. Qed.

Lemma fst_bind_log (line : JsString) (c : Logged JsString) :
  fst (consoleLog line ;;; c) = fst c.
Proof. destruct c as [a l]. reflexivity. Qed.

Lemma handover_earlier q doc el text :
  earlierLines (snd (consoleLog (textNotUniqueLine text) ;;;
                     buildContextualSelector q doc el text)).
Proof.
  rewrite snd_bind_log.
  change (earlierLines ([textNotUniqueLine text]
                        ++ snd (buildContextualSelector q doc el text))).
  apply earlierLines_app; [|apply buildContextualSelector_earlier].
  unfold earlierLines, textNotUniqueLine; cbn [forallb].
  generalize (dquote ++ text ++ dquote); intros s. vm_compute. reflexivity.
Qed.

(** The text strategy of a button or anchor whose text selector is not
    unique. *)
Lemma textStrategy_hands_over q doc el :
  toLowerCase (tagName doc el) = js "button"
  \/ toLowerCase (tagName doc el) = js "a" ->
  getDirectText doc (Some el) <> [] ->
  (List.length (getDirectText doc (Some el)) < 100)%nat ->
  isUnique q doc (hasText (toLowerCase (tagName doc el))
                          (escapeQuotes (getDirectText doc (Some el)))) = false ->
  textStrategy q doc el
  = Some (consoleLog (textNotUniqueLine (getDirectText doc (Some el))) ;;;
          buildContextualSelector q doc el (getDirectText doc (Some el))).
Proof.
  intros Htag Htext Hlen Hnot. unfold textStrategy. cbv zeta.
  assert (truthy (getDirectText doc (Some el)) = true) as ->
    by (apply truthy_nonempty; assumption).
  assert ((0 <? List.length (getDirectText doc (Some el)))%nat = true) as ->.
  { destruct (getDirectText doc (Some el)); [congruence | reflexivity]. }
  assert ((List.length (getDirectText doc (Some el)) <? 100)%nat = true) as ->
    by (apply Nat.ltb_lt; assumption).
  assert (eqb (toLowerCase (tagName doc el)) (js "button")
          || eqb (toLowerCase (tagName doc el)) (js "a") = true) as ->.
  { destruct Htag as [-> | ->]; reflexivity. }
  cbn [andb]. rewrite Hnot. reflexivity.
Qed.

(** C4. For a button or an anchor whose direct text is not empty and
    shorter than 100, when the text selector is not unique the text
    strategy returns what contextual disambiguation gives for that same
    text.  So the chain returns from the id, name or data-attribute
    strategy or returns that result (that result, when the three return
    nothing), and no line of the type, accessible-name or fallback
    strategy is written. *)
Theorem nonunique_text_goes_to_contextual_disambiguation :
  forall (querySelectorAll : Document -> JsString -> option (list Element))
         (doc : Document) (el : Element),
    toLowerCase (tagName doc el) = js "button"
    \/ toLowerCase (tagName doc el) = js "a" ->
    getDirectText doc (Some el) <> [] ->
    (List.length (getDirectText doc (Some el)) < 100)%nat ->
    isUnique querySelectorAll doc
             (hasText (toLowerCase (tagName doc el))
                      (escapeQuotes (getDirectText doc (Some el)))) = false ->
    let contextual :=
      consoleLog (textNotUniqueLine (getDirectText doc (Some el))) ;;;
      buildContextualSelector querySelectorAll doc el
                              (getDirectText doc (Some el)) in
    textStrategy querySelectorAll doc el = Some contextual
    /\ getUniversalSelector querySelectorAll doc el
       = orNext (idStrategy querySelectorAll doc el)
           (orNext (nameStrategy querySelectorAll doc el)
              (orNext (dataStrategy querySelectorAll doc (attributes doc el))
                 contextual))
    /\ (idStrategy querySelectorAll doc el = None ->
        nameStrategy querySelectorAll doc el = None ->
        dataStrategy querySelectorAll doc (attributes doc el) = None ->
        getUniversalSelector querySelectorAll doc el = contextual)
    /\ forallb (fun line => negb (fromLaterStrategy line))
               (snd (getUniversalSelector querySelectorAll doc el)) = true.
Proof.
  intros q doc el Htag Htext Hlen Hnot contextual.
  pose proof (textStrategy_hands_over q doc el Htag Htext Hlen Hnot) as Hts.
  assert (getUniversalSelector q doc el
          = orNext (idStrategy q doc el)
              (orNext (nameStrategy q doc el)
                 (orNext (dataStrategy q doc (attributes doc el)) contextual)))
    as Hchain.
  { unfold getUniversalSelector. rewrite Hts. reflexivity. }
  split; [exact Hts|]. split; [exact Hchain|]. split.
  - intros E1 E2 E3. rewrite Hchain, E1, E2, E3. reflexivity.
  - rewrite Hchain.
    destruct (idStrategy q doc el) as [r|] eqn:E1; cbn [orNext].
    { eapply idStrategy_earlier; eassumption. }
    destruct (nameStrategy q doc el) as [r|] eqn:E2; cbn [orNext].
    { eapply nameStrategy_earlier; eassumption. }
    destruct (dataStrategy q doc (attributes doc el)) as [r|] eqn:E3; cbn [orNext].
    { eapply dataStrategy_earlier; eassumption. }
    apply handover_earlier.
Qed.

Lemma nonunique_text_witness :
  fst (getUniversalSelector MiniDom.querySelectorAll checkout billingSubmit)
  = compoundSelector (js "section") (js "Billing") (js "button") (js "Submit").
Proof.
  assert (toLowerCase (tagName checkout billingSubmit) = js "button"
          \/ toLowerCase (tagName checkout billingSubmit) = js "a") as H1
    by (left; vm_compute; reflexivity).
  assert (getDirectText checkout (Some billingSubmit) <> []) as H2
    by (vm_compute; discriminate).
  assert (List.length (getDirectText checkout (Some billingSubmit)) < 100)%nat as H3
    by (vm_compute; lia).
  assert (isUnique MiniDom.querySelectorAll checkout
            (hasText (toLowerCase (tagName checkout billingSubmit))
               (escapeQuotes (getDirectText checkout (Some billingSubmit))))
          = false) as H4 by (vm_compute; reflexivity).
  destruct (nonunique_text_goes_to_contextual_disambiguation
              MiniDom.querySelectorAll checkout billingSubmit H1 H2 H3 H4)
    as (_ & _ & Hgo & _).
  rewrite Hgo by (vm_compute; reflexivity).
  vm_compute. reflexivity.
Defined.

(** *** Contextual disambiguation *)

Lemma truthy_length (s : JsString) :
  truthy s = true -> (0 <? List.length s)%nat = true.
Proof. destruct s; [discriminate | reflexivity]. Qed.

Lemma scan_condition doc text p :
  truthy (getDirectText doc (Some p))
  && negb (eqb (getDirectText doc (Some p)) text)
  && (0 <? List.length (getDirectText doc (Some p)))%nat
  = qualifiesFor doc text p.
Proof.
  unfold qualifiesFor.
  destruct (truthy (getDirectText doc (Some p))) eqn:E; [|reflexivity].
  rewrite (truthy_length _ E). cbn. apply andb_true_r.
Qed.

(** The selector as the design spells it is the one the code's template
    and its escaping give. *)
Lemma quoted_escapeQuotes text : quoted text = dquote ++ escapeQuotes text ++ dquote.
Proof.
  unfold quoted, dquote. do 2 f_equal.
  induction text as [|c r IH]; [reflexivity|].
  cbn [flat_map escapeQuotes]. rewrite IH. destruct (c =? 34)%N; reflexivity.
Qed.

Lemma withText_hasText tag text : withText tag text = hasText tag (escapeQuotes text).
Proof.
  unfold withText, hasText. rewrite quoted_escapeQuotes, <- !app_assoc. reflexivity.
Qed.

Lemma compoundSelector_code ancestorTag ancestorText tag text :
  compoundSelector ancestorTag ancestorText tag text
  = hasText ancestorTag (escapeQuotes ancestorText) ++ js " >> "
    ++ hasText tag (escapeQuotes text).
Proof. unfold compoundSelector. rewrite !withText_hasText. reflexivity. Qed.

(** The walk returns the compound selector of the scoping ancestor. *)
Lemma contextualScan_scoping doc tag escaped text levels parent a :
  scopingAncestor doc text levels parent a ->
  contextualScan doc tag escaped text levels parent
  = Some (consoleLog
            (logPrefix ++ js "Testing contextual selector: "
             ++ hasText (toLowerCase (tagName doc a))
                        (escapeQuotes (getDirectText doc (Some a)))
             ++ js " >> " ++ hasText tag escaped) ;;;
          ret (hasText (toLowerCase (tagName doc a))
                       (escapeQuotes (getDirectText doc (Some a)))
               ++ js " >> " ++ hasText tag escaped)).
Proof.
  induction 1 as [levels p Hq | levels p a Hq Hid _ IH]; cbn [contextualScan];
    cbv zeta; rewrite scan_condition, Hq.
  - reflexivity.
  - rewrite Hid. cbn [truthy]. exact IH.
Qed.

Lemma buildContextualSelector_scoping q doc el text a :
  scopingAncestor doc text 5 (parentElement el) a ->
  fst (buildContextualSelector q doc el text)
  = compoundSelector (toLowerCase (tagName doc a)) (getDirectText doc (Some a))
                     (toLowerCase (tagName doc el)) text.
Proof.
  intros H. unfold buildContextualSelector. cbv zeta.
  rewrite (contextualScan_scoping doc _ _ text 5 (parentElement el) a H).
  rewrite compoundSelector_code. reflexivity.
Qed.

Lemma buildContextualSelector_no_query q q' doc el text a :
  scopingAncestor doc text 5 (parentElement el) a ->
  buildContextualSelector q doc el text = buildContextualSelector q' doc el text.
Proof.
  intros H. unfold buildContextualSelector. cbv zeta.
  rewrite (contextualScan_scoping doc _ _ text 5 (parentElement el) a H).
  reflexivity.
Qed.

(** Whatever the tags of the two ancestors, the compound selectors for
    Billing and for Shipping differ: read from the end, both strings are
    the same up to the last letters of the ancestor text. *)
Lemma billing_shipping_differ (tag1 tag2 : JsString) :
  compoundSelector tag1 (js "Billing") (js "button") (js "Submit")
  <> compoundSelector tag2 (js "Shipping") (js "button") (js "Submit").
Proof.
  intros H. rewrite !compoundSelector_code in H. apply (f_equal (@rev N)) in H.
  unfold hasText in H.
  repeat rewrite ?rev_app_distr, <- ?app_assoc in H.
  apply (f_equal (fun l => nth 37 l 0%N)) in H.
  vm_compute in H. discriminate H.
Qed.

(** The chain on a button or anchor that gets to the text strategy with a
    text selector that is not unique. *)
Lemma chain_reaches_contextual q doc el :
  toLowerCase (tagName doc el) = js "button"
  \/ toLowerCase (tagName doc el) = js "a" ->
  getDirectText doc (Some el) <> [] ->
  (List.length (getDirectText doc (Some el)) < 100)%nat ->
  isUnique q doc (hasText (toLowerCase (tagName doc el))
                          (escapeQuotes (getDirectText doc (Some el)))) = false ->
  idStrategy q doc el = None ->
  nameStrategy q doc el = None ->
  dataStrategy q doc (attributes doc el) = None ->
  fst (getUniversalSelector q doc el)
  = fst (buildContextualSelector q doc el (getDirectText doc (Some el))).
Proof.
  intros Htag Htext Hlen Hnot E1 E2 E3.
  unfold getUniversalSelector.
  rewrite E1, E2, E3, (textStrategy_hands_over q doc el Htag Htext Hlen Hnot).
  cbn [orNext]. apply fst_bind_log.
Qed.

(** C5 (as stated, refuted). Two buttons with the direct text Submit, the
    first under a section with the direct text Billing and the second
    under a section with the direct text Shipping, each inside a division
    of its section with the direct text Actions: the walk stops at the
    division, the nearest ancestor with a text, so both buttons get the
    same compound selector, which names neither Billing nor Shipping. *)
Lemma same_text_buttons_under_nearer_text_share_a_selector :
  let q := MiniDom.querySelectorAll in
  let shared :=
    js "div:has-text(" ++ [34%N] ++ js "Actions" ++ [34%N]
    ++ js ") >> button:has-text(" ++ [34%N] ++ js "Submit" ++ [34%N] ++ js ")" in
  toLowerCase (tagName actionColumns billingAction) = js "button"
  /\ toLowerCase (tagName actionColumns shippingAction) = js "button"
  /\ getDirectText actionColumns (Some billingAction) = js "Submit"
  /\ getDirectText actionColumns (Some shippingAction) = js "Submit"
  /\ nth_error (ancestors 5 (parentElement billingAction)) 1 = Some billingSection
  /\ nth_error (ancestors 5 (parentElement shippingAction)) 1
     = Some shippingSection
  /\ getDirectText actionColumns (Some billingSection) = js "Billing"
  /\ getDirectText actionColumns (Some shippingSection) = js "Shipping"
  /\ fst (buildContextualSelector q actionColumns billingAction (js "Submit"))
     = shared
  /\ fst (buildContextualSelector q actionColumns shippingAction (js "Submit"))
     = shared
  /\ fst (getUniversalSelector q actionColumns billingAction) = shared
  /\ fst (getUniversalSelector q actionColumns shippingAction) = shared
  /\ selectorsOf (MiniDom.scan actionColumns)
     = Some [(js "1", Some shared); (js "2", Some shared)].
Proof. cbv zeta. repeat split; vm_compute; reflexivity. Qed.

(** C5 (amended). Two buttons with the direct text Submit, each with an
    ancestor that the walk takes (within five levels the nearest one whose
    direct text is not empty and is not Submit, no nearer ancestor having
    an id), the texts of the two being Billing and Shipping: contextual
    disambiguation gives each the compound selector of its ancestor's tag
    and text, [tag:has-text("Billing") >> button:has-text("Submit")] and
    the like for Shipping; the two selectors differ, and the result does
    not depend on the query engine, which is not called.  These are the
    selectors the chain returns for the buttons when it gets to the text
    strategy (no unique id, name or data attribute) and the text selector
    is not unique; on the page with the two sections they are the
    selectors of the two profiles. *)
Theorem same_text_buttons_get_distinct_compound_selectors :
  forall (querySelectorAll : Document -> JsString -> option (list Element))
         (doc : Document) (el1 el2 a1 a2 : Element),
    toLowerCase (tagName doc el1) = js "button" ->
    toLowerCase (tagName doc el2) = js "button" ->
    getDirectText doc (Some el1) = js "Submit" ->
    getDirectText doc (Some el2) = js "Submit" ->
    scopingAncestor doc (js "Submit") 5 (parentElement el1) a1 ->
    scopingAncestor doc (js "Submit") 5 (parentElement el2) a2 ->
    getDirectText doc (Some a1) = js "Billing" ->
    getDirectText doc (Some a2) = js "Shipping" ->
    let s1 := fst (buildContextualSelector querySelectorAll doc el1
                                           (getDirectText doc (Some el1))) in
    let s2 := fst (buildContextualSelector querySelectorAll doc el2
                                           (getDirectText doc (Some el2))) in
    s1 = compoundSelector (toLowerCase (tagName doc a1)) (js "Billing")
                          (js "button") (js "Submit")
    /\ s2 = compoundSelector (toLowerCase (tagName doc a2)) (js "Shipping")
                             (js "button") (js "Submit")
    /\ s1 <> s2
    /\ (forall engine : Document -> JsString -> option (list Element),
          buildContextualSelector engine doc el1 (getDirectText doc (Some el1))
          = buildContextualSelector querySelectorAll doc el1
                                    (getDirectText doc (Some el1))
          /\ buildContextualSelector engine doc el2
                                     (getDirectText doc (Some el2))
             = buildContextualSelector querySelectorAll doc el2
                                       (getDirectText doc (Some el2)))
    /\ (isUnique querySelectorAll doc
                 (hasText (js "button") (escapeQuotes (js "Submit"))) = false ->
        (idStrategy querySelectorAll doc el1 = None ->
         nameStrategy querySelectorAll doc el1 = None ->
         dataStrategy querySelectorAll doc (attributes doc el1) = None ->
         fst (getUniversalSelector querySelectorAll doc el1) = s1)
        /\ (idStrategy querySelectorAll doc el2 = None ->
            nameStrategy querySelectorAll doc el2 = None ->
            dataStrategy querySelectorAll doc (attributes doc el2) = None ->
            fst (getUniversalSelector querySelectorAll doc el2) = s2))
    /\ selectorsOf (MiniDom.scan checkout)
       = Some [(js "1", Some (compoundSelector (js "section") (js "Billing")
                                               (js "button") (js "Submit")));
               (js "2", Some (compoundSelector (js "section") (js "Shipping")
                                               (js "button") (js "Submit")))]
    /\ compoundSelector (js "section") (js "Billing") (js "button") (js "Submit")
       = js "section:has-text(" ++ [34%N] ++ js "Billing" ++ [34%N]
         ++ js ") >> button:has-text(" ++ [34%N] ++ js "Submit" ++ [34%N]
         ++ js ")".
Proof.
  intros q doc el1 el2 a1 a2 Ht1 Ht2 Hx1 Hx2 Ha1 Ha2 Hb Hs s1 s2.
  assert (s1 = compoundSelector (toLowerCase (tagName doc a1)) (js "Billing")
                                (js "button") (js "Submit")) as E1.
  { subst s1. rewrite Hx1.
    rewrite (buildContextualSelector_scoping q doc el1 (js "Submit") a1 Ha1).
    rewrite Ht1, Hb. reflexivity. }
  assert (s2 = compoundSelector (toLowerCase (tagName doc a2)) (js "Shipping")
                                (js "button") (js "Submit")) as E2.
  { subst s2. rewrite Hx2.
    rewrite (buildContextualSelector_scoping q doc el2 (js "Submit") a2 Ha2).
    rewrite Ht2, Hs. reflexivity. }
  split; [exact E1|]. split; [exact E2|]. split; [|split; [|split; [|split]]].
  - rewrite E1, E2. apply billing_shipping_differ.
  - intros engine. rewrite Hx1, Hx2. split.
    + apply buildContextualSelector_no_query with (a := a1); assumption.
    + apply buildContextualSelector_no_query with (a := a2); assumption.
  - intros Hnot. split; intros I1 I2 I3.
    + subst s1. apply chain_reaches_contextual; try assumption.
      * left; assumption.
      * rewrite Hx1; discriminate.
      * rewrite Hx1. vm_compute. lia.
      * rewrite Ht1, Hx1. exact Hnot.
    + subst s2. apply chain_reaches_contextual; try assumption.
      * left; assumption.
      * rewrite Hx2; discriminate.
      * rewrite Hx2. vm_compute. lia.
      * rewrite Ht2, Hx2. exact Hnot.
  - vm_compute. reflexivity.
  - vm_compute. reflexivity.
Qed.

Lemma same_text_buttons_witness :
  fst (buildContextualSelector MiniDom.querySelectorAll checkout shippingSubmit
         (getDirectText checkout (Some shippingSubmit)))
  = compoundSelector (toLowerCase (tagName checkout [Child 1; Child 1]))
                     (js "Shipping") (js "button") (js "Submit").
Proof.
  refine (proj1 (proj2 (
    (same_text_buttons_get_distinct_compound_selectors
       MiniDom.querySelectorAll checkout billingSubmit shippingSubmit
       [Child 0; Child 1] [Child 1; Child 1] _ _ _ _ _ _ _ _))));
    try (vm_compute; reflexivity).
  - apply scoping_here. vm_compute. reflexivity.
  - apply scoping_here. vm_compute. reflexivity.
Defined.

(** *** The context extractor *)

Lemma qualifies_condition doc el p :
  truthy (getDirectText doc (Some p))
  && (0 <? List.length (getDirectText doc (Some p)))%nat
  && negb (eqb (getDirectText doc (Some p)) (getDirectText doc (Some el)))
  = qualifies doc el p.
Proof.
  unfold qualifies, qualifiesFor.
  destruct (truthy (getDirectText doc (Some p))) eqn:E; [|reflexivity].
  rewrite (truthy_length _ E). reflexivity.
Qed.

Lemma held_empty (c : Context) : held c [] = container_id c.
Proof. unfold held. destruct (container_id c); reflexivity. Qed.

Lemma firstId_cons doc p l :
  firstId doc (p :: l)
  = if truthy (id doc p) then id doc p else firstId doc l.
Proof. unfold firstId; cbn [find]. destruct (truthy (id doc p)); reflexivity. Qed.

Lemma passed_fields doc p c :
  sibling_text (passed doc p c) = sibling_text c
  /\ aria_context (passed doc p c) = aria_context c
  /\ parent_text (passed doc p c) = parent_text c
  /\ parent_tag (passed doc p c) = parent_tag c
  /\ parent_classes (passed doc p c) = parent_classes c.
Proof.
  unfold passed.
  destruct (negb (truthy (container_id c)) && truthy (id doc p));
    repeat split; reflexivity.
Qed.

Lemma passed_held doc p c l :
  held (passed doc p c) (firstId doc l) = held c (firstId doc (p :: l)).
Proof.
  rewrite firstId_cons. unfold passed, held.
  destruct (truthy (container_id c)) eqn:E1;
    destruct (truthy (id doc p)) eqn:E2; cbn; rewrite ?E1, ?E2; reflexivity.
Qed.

(** The ancestor walk from any starting context: the text fields come
    from the first qualifying ancestor; the id is that ancestor's if it
    has one, else the one the walk already held, else the first met
    before it. *)
Lemma ancestorScan_spec doc el levels :
  forall parent c,
    sibling_text (ancestorScan doc el levels parent c) = sibling_text c
    /\ aria_context (ancestorScan doc el levels parent c) = aria_context c
    /\ match find (qualifies doc el) (ancestors levels parent) with
       | Some a =>
           parent_text (ancestorScan doc el levels parent c)
           = getDirectText doc (Some a)
           /\ parent_tag (ancestorScan doc el levels parent c)
              = toLowerCase (tagName doc a)
           /\ parent_classes (ancestorScan doc el levels parent c)
              = className doc a
           /\ container_id (ancestorScan doc el levels parent c)
              = if truthy (id doc a) then id doc a
                else held c (firstId doc (before (qualifies doc el)
                                                 (ancestors levels parent)))
       | None =>
           parent_text (ancestorScan doc el levels parent c) = parent_text c
           /\ parent_tag (ancestorScan doc el levels parent c) = parent_tag c
           /\ parent_classes (ancestorScan doc el levels parent c)
              = parent_classes c
           /\ container_id (ancestorScan doc el levels parent c)
              = held c (firstId doc (ancestors levels parent))
       end.
Proof.
  induction levels as [|levels IH]; intros parent c.
  - cbn [ancestorScan ancestors find]. change (firstId doc []) with (@nil N).
    rewrite held_empty. repeat split; reflexivity.
  - destruct parent as [p|]; cbn [ancestorScan ancestors find before].
    2:{ change (firstId doc []) with (@nil N).
        rewrite held_empty. repeat split; reflexivity. }
    cbv zeta. rewrite qualifies_condition.
    destruct (qualifies doc el p) eqn:Hq.
    + change (firstId doc []) with (@nil N). rewrite held_empty.
      destruct (truthy (id doc p)) eqn:Ei; repeat split; reflexivity.
    + fold (passed doc p c).
      destruct (IH (parentElement p) (passed doc p c)) as (Hs & Ha & H).
      destruct (passed_fields doc p c) as (F1 & F2 & F3 & F4 & F5).
      split; [congruence|]. split; [congruence|].
      destruct (find (qualifies doc el) (ancestors levels (parentElement p)))
        as [a|]; destruct H as (H1 & H2 & H3 & H4);
        rewrite H4, passed_held; repeat split; congruence.
Qed.

Lemma siblingScan_keeps doc levels :
  forall sibling c,
    let r := siblingScan doc levels sibling c in
    parent_text r = parent_text c /\ parent_tag r = parent_tag c
    /\ parent_classes r = parent_classes c /\ container_id r = container_id c.
Proof.
  induction levels as [|levels IH]; intros [s|] c; cbn [siblingScan]; cbv zeta;
    try (repeat split; reflexivity).
  destruct (truthy _ && _); [repeat split; reflexivity | apply IH].
Qed.

Lemma ariaScan_keeps doc el c :
  let r := ariaScan doc el c in
  parent_text r = parent_text c /\ parent_tag r = parent_tag c
  /\ parent_classes r = parent_classes c /\ container_id r = container_id c.
Proof.
  unfold ariaScan; cbv zeta.
  destruct (truthyAttr _); [repeat split; reflexivity|].
  destruct (truthyAttr _); [|repeat split; reflexivity].
  destruct (getElementById _ _); repeat split; reflexivity.
Qed.

(** C6 (as stated, refuted). A button in a span with the id inner, in a
    division with the text Heading and the id outer: the first ancestor
    id met is inner, and [container_id] is outer, the id of the ancestor
    whose text qualified. *)
Lemma container_id_taken_from_text_ancestor :
  firstAncestorId nested nestedButton = js "inner"
  /\ container_id (extractContext nested nestedButton) = js "outer"
  /\ parent_text (extractContext nested nestedButton) = js "Heading"
  /\ container_id (extractContext nested nestedButton)
     <> firstAncestorId nested nestedButton.
Proof. vm_compute. repeat split; try reflexivity. discriminate. Qed.

(** C6 (amended). [parent_text], [parent_tag] and [parent_classes] record
    the first ancestor within 5 levels whose direct text is not empty and
    differs from the direct text of the element, and are empty when there
    is none.  [container_id] is the id of that ancestor when it has one,
    and else the first id met among the ancestors before it; with no such
    ancestor it is the first id met among the (at most 5) ancestors.
    Ancestors above the first qualifying one are not looked at. *)
Theorem context_records_text_ancestor_and_container_id :
  forall (doc : Document) (el : Element),
    match find (qualifies doc el) (ancestors 5 (parentElement el)) with
    | Some a =>
        parent_text (extractContext doc el) = getDirectText doc (Some a)
        /\ parent_tag (extractContext doc el) = toLowerCase (tagName doc a)
        /\ parent_classes (extractContext doc el) = className doc a
        /\ container_id (extractContext doc el)
           = if truthy (id doc a) then id doc a
             else firstId doc (before (qualifies doc el)
                                      (ancestors 5 (parentElement el)))
    | None =>
        parent_text (extractContext doc el) = []
        /\ parent_tag (extractContext doc el) = []
        /\ parent_classes (extractContext doc el) = []
        /\ container_id (extractContext doc el)
           = firstId doc (ancestors 5 (parentElement el))
    end.
Proof.
  intros doc el. unfold extractContext. cbv zeta.
  destruct (ariaScan_keeps doc el
              (siblingScan doc 3 (previousElementSibling doc el)
                 (ancestorScan doc el 5 (parentElement el) emptyContext)))
    as (A1 & A2 & A3 & A4).
  destruct (siblingScan_keeps doc 3 (previousElementSibling doc el)
              (ancestorScan doc el 5 (parentElement el) emptyContext))
    as (S1 & S2 & S3 & S4).
  rewrite A1, A2, A3, A4, S1, S2, S3, S4.
  destruct (ancestorScan_spec doc el 5 (parentElement el) emptyContext)
    as (_ & _ & H).
  destruct (find (qualifies doc el) (ancestors 5 (parentElement el)));
    exact H.
Qed.

End SynthesizerFacts.

Module DocumentFacts.

Import Js Dom Tagger Design Notions.

Lemma sameShell_refl n : sameShell n n.
Proof. destruct n; cbn; auto. Qed.

Lemma sameShell_trans n1 n2 n3 :
  sameShell n1 n2 -> sameShell n2 n3 -> sameShell n1 n3.
Proof.
  destruct n1, n2, n3; cbn; try tauto; try congruence.
  intros (-> & -> & -> & H1) (-> & -> & -> & H2).
  repeat split; try reflexivity. intros acc. rewrite H2. apply H1.
Qed.

Lemma preserved_refl doc : preserved doc doc.
Proof.
  repeat split; auto. intros el n H. exists n. auto using sameShell_refl.
Qed.

Lemma preserved_trans d1 d2 d3 :
  preserved d1 d2 -> preserved d2 d3 -> preserved d1 d3.
Proof.
  intros (B1 & S1 & W1) (B2 & S2 & W2). repeat split.
  - congruence.
  - intros el n H. destruct (S1 el n H) as (n' & H' & Sh).
    destruct (S2 el n' H') as (n'' & H'' & Sh').
    exists n''. eauto using sameShell_trans.
  - intros el n H Hne Hnb. apply W2; auto. congruence.
Qed.

(** *** Appending a child to the body *)

Lemma nth_error_appendChildAt_other i cs x j :
  j <> i -> nth_error (appendChildAt i cs x) j = nth_error cs j.
Proof.
  revert i j; induction cs as [|c cs IH]; intros i j Hne; [reflexivity|].
  destruct i as [|i], j as [|j]; try congruence; try reflexivity.
  cbn. apply IH. congruence.
Qed.

Lemma nth_error_appendChildAt_same i cs x t a p c s :
  nth_error cs i = Some (ElementNode t a p c s) ->
  nth_error (appendChildAt i cs x) i = Some (ElementNode t a p (c ++ [x]) s).
Proof.
  revert i; induction cs as [|c0 cs IH]; intros [|i]; cbn; try discriminate.
  - intros [= ->]. reflexivity.
  - apply IH.
Qed.

Lemma firstBody_appendChildAt k i cs x :
  firstBody k (appendChildAt i cs x) = firstBody k cs.
Proof.
  revert k i; induction cs as [|c cs IH]; intros k i; [reflexivity|].
  destruct i as [|i].
  - destruct c; reflexivity.
  - destruct c; cbn; rewrite ?IH; reflexivity.
Qed.

Lemma firstBody_element k cs i :
  firstBody k cs = Some i ->
  exists j t a p c s, i = (k + j)%nat
                      /\ nth_error cs j = Some (ElementNode t a p c s)
                      /\ eqb t (js "BODY") || eqb t (js "FRAMESET") = true.
Proof.
  revert k; induction cs as [|c cs IH]; intros k; cbn [firstBody];
    [discriminate|].
  destruct c as [d|d|t a p c s].
  - intros H. destruct (IH _ H) as (j & t & a & p & c & s & -> & Hn).
    exists (S j), t, a, p, c, s. split; [lia | exact Hn].
  - intros H. destruct (IH _ H) as (j & t & a & p & c & s & -> & Hn).
    exists (S j), t, a, p, c, s. split; [lia | exact Hn].
  - destruct (eqb t (js "BODY") || eqb t (js "FRAMESET")) eqn:Et.
    + intros H. injection H as H. subst i.
      exists 0%nat, t, a, p, c, s. split; [lia | split; [reflexivity | exact Et]].
    + intros H. destruct (IH _ H) as (j & t' & a' & p' & c' & s' & -> & Hn).
      exists (S j), t', a', p', c', s'. split; [lia | exact Hn].
Qed.

Lemma directFold_app acc ns ms :
  directFold acc (ns ++ ms) = directFold (directFold acc ns) ms.
Proof. unfold directFold. apply fold_left_app. Qed.

Lemma directFold_appendChildAt acc i cs x :
  isElementNode x = true ->
  directFold acc (appendChildAt i cs x) = directFold acc cs.
Proof.
  intros Hx. revert acc i; induction cs as [|c cs IH]; intros acc i;
    [reflexivity|].
  destruct i as [|i].
  - destruct c; reflexivity.
  - destruct c; cbn; apply IH.
Qed.

(** The shape of a document that has a body. *)
Lemma body_shape doc b :
  body doc = Some b ->
  exists t a p cs sh i tb ab pb cb sb,
    documentElement doc = Some (ElementNode t a p cs sh)
    /\ b = [Child i]
    /\ firstBody 0 cs = Some i
    /\ nth_error cs i = Some (ElementNode tb ab pb cb sb)
    /\ eqb t (js "HTML") = true
    /\ eqb tb (js "BODY") || eqb tb (js "FRAMESET") = true.
Proof.
  unfold body. destruct (documentElement doc) as [[d|d|t a p cs sh]|]; try discriminate.
  destruct (eqb t (js "HTML")) eqn:Et; [|discriminate].
  destruct (firstBody 0 cs) as [i|] eqn:E; [|discriminate].
  intros [= <-].
  destruct (firstBody_element 0 cs i E) as (j & tb & ab & pb & cb & sb & -> & Hn & Hb).
  exists t, a, p, cs, sh, j, tb, ab, pb, cb, sb. auto 10.
Qed.

Lemma appendToBody_defined doc x :
  body doc <> None -> exists doc', appendToBody doc x = Some doc'.
Proof.
  intros H. destruct (body doc) as [b|] eqn:E; [|congruence].
  destruct (body_shape doc b E) as (t & a & p & cs & sh & i & _ & _ & _ & _ & _ & Hd & -> & _).
  unfold appendToBody. rewrite E, Hd. eauto.
Qed.

Lemma descend_app n r s :
  descend n (r ++ [s])
  = match descend n r with
    | Some m => stepInto m s
    | None => None
    end.
Proof.
  revert n; induction r as [|s0 r IH]; intros n; cbn.
  - destruct (stepInto n s); reflexivity.
  - destruct (stepInto n s0); [apply IH | reflexivity].
Qed.

(** The parent of an element of the document is in the document. *)
Lemma nodeAt_parent doc s p n :
  nodeAt doc (s :: p) = Some n -> exists m, nodeAt doc p = Some m.
Proof.
  unfold nodeAt. destruct (documentElement doc) as [root|]; [|discriminate].
  cbn [rev]. rewrite descend_app.
  destruct (descend root (rev p)) as [m|]; [eauto | discriminate].
Qed.

Lemma appendToBody_preserved doc x doc' :
  isElementNode x = true ->
  appendToBody doc x = Some doc' -> preserved doc doc'.
Proof.
  intros Hx Happ.
  destruct (body doc) as [b|] eqn:Eb;
    [|unfold appendToBody in Happ; rewrite Eb in Happ; discriminate].
  destruct (body_shape doc b Eb)
    as (t & a & p & cs & sh & i & tb & ab & pb & cb & sb & Hd & -> & Hfb & Hnth & _).
  unfold appendToBody in Happ. rewrite Eb, Hd in Happ.
  injection Happ as <-.
  assert (body {| documentElement := Some (ElementNode t a p (appendChildAt i cs x) sh) |}
          = Some [Child i]) as Hbody'.
  { unfold body in *. rewrite Hd in Eb. cbn [documentElement].
    destruct (eqb t (js "HTML")); [|discriminate].
    rewrite firstBody_appendChildAt, Hfb. reflexivity. }
  assert (forall route n,
             descend (ElementNode t a p cs sh) route = Some n ->
             (route = [] /\ n = ElementNode t a p cs sh
              /\ descend (ElementNode t a p (appendChildAt i cs x) sh) route
                 = Some (ElementNode t a p (appendChildAt i cs x) sh))
             \/ (route = [Child i] /\ n = ElementNode tb ab pb cb sb
                 /\ descend (ElementNode t a p (appendChildAt i cs x) sh) route
                    = Some (ElementNode tb ab pb (cb ++ [x]) sb))
             \/ (route <> [] /\ route <> [Child i]
                 /\ descend (ElementNode t a p (appendChildAt i cs x) sh) route
                    = Some n)) as Hroute.
  { intros route n H. destruct route as [|s r].
    - left. cbn in H. injection H as <-. auto.
    - right. destruct s as [j|j].
      + destruct (Nat.eq_dec j i) as [->|Hne].
        * cbn in H |- *. rewrite Hnth in H.
          rewrite (nth_error_appendChildAt_same i cs x _ _ _ _ _ Hnth).
          destruct r as [|s' r'].
          -- left. cbn in H. injection H as <-. auto.
          -- right. split; [discriminate|]. split; [discriminate|].
             cbn in H |- *. destruct s' as [k|k]; cbn in H |- *.
             ++ destruct (nth_error cb k) as [c|] eqn:Ek; [|discriminate].
                rewrite nth_error_app1 by (apply nth_error_Some; congruence).
                rewrite Ek. exact H.
             ++ exact H.
        * right. split; [discriminate|]. split; [congruence|].
          cbn in H |- *. rewrite nth_error_appendChildAt_other by assumption.
          exact H.
      + right. split; [discriminate|]. split; [discriminate|]. exact H. }
  assert (forall el : Element, rev el = [] -> el = []) as Hrev0.
  { intros el H. apply (f_equal (@rev Step)) in H. rewrite rev_involutive in H. exact H. }
  assert (forall el : Element, rev el = [Child i] -> el = [Child i]) as Hrev1.
  { intros el H. apply (f_equal (@rev Step)) in H. rewrite rev_involutive in H. exact H. }
  split; [|split].
  - rewrite Hbody', Eb. reflexivity.
  - intros el n H. unfold nodeAt in *. rewrite Hd in H. cbn [documentElement].
    destruct (Hroute _ _ H) as [(_ & -> & H')|[(_ & -> & H')|(_ & _ & H')]];
      rewrite H'; eexists; split; try reflexivity.
    + cbn. repeat split; try reflexivity.
      intros acc. apply directFold_appendChildAt; assumption.
    + cbn. repeat split; try reflexivity.
      intros acc. rewrite directFold_app. destruct x; try discriminate. reflexivity.
    + apply sameShell_refl.
  - intros el n H Hne Hnb. unfold nodeAt in *. rewrite Hd in H. cbn [documentElement].
    destruct (Hroute _ _ H) as [(E & _ & _)|[(E & _ & _)|(_ & _ & H')]].
    + apply Hrev0 in E. contradiction.
    + apply Hrev1 in E. subst el. rewrite Eb in Hnb. contradiction.
    + exact H'.
Qed.

(** *** What the script reads is the same in a preserved document *)

Section Preserved.

Variables doc doc' : Document.
Hypothesis P : preserved doc doc'.

Lemma preserved_shell el n :
  nodeAt doc el = Some n ->
  tagName doc' el = tagName doc el
  /\ attributes doc' el = attributes doc el
  /\ propsOf doc' el = propsOf doc el
  /\ getDirectText doc' (Some el) = getDirectText doc (Some el).
Proof.
  intros H. destruct P as (_ & S & _). destruct (S el n H) as (n' & H' & Sh).
  unfold tagName, attributes, propsOf, getDirectText, childNodes.
  rewrite H, H'.
  destruct n as [d|d|t a p cs sh], n' as [d'|d'|t' a' p' cs' sh']; cbn in Sh;
    try contradiction; try (repeat split; reflexivity).
  destruct Sh as (-> & -> & -> & Hf). repeat split.
  cbn [childNodesOf]. f_equal. f_equal. apply (Hf []).
Qed.

Lemma preserved_parent_text el n :
  nodeAt doc el = Some n ->
  getDirectText doc' (parentElement el) = getDirectText doc (parentElement el).
Proof.
  intros H. destruct el as [|[i|i] p]; try reflexivity.
  cbn [parentElement].
  destruct (nodeAt_parent doc (Child i) p n H) as (m & Hm).
  apply (preserved_shell p m Hm).
Qed.

End Preserved.


(** An element the script found by its tag is neither the root nor the
    body of a document that has a body. *)
Lemma tagged_below_body doc b name el :
  body doc = Some b ->
  isElementOf doc name el = true ->
  eqb (js "html") name = false ->
  eqb (js "body") name = false ->
  eqb (js "frameset") name = false ->
  el <> [] /\ Some el <> body doc.
Proof.
  intros Hb Ht N1 N2 N3.
  destruct (body_shape doc b Hb)
    as (t & a & p & cs & sh & i & tb & ab & pb & cb & sb & Hd & -> & Hfb & Hnth
        & Eh & Ebd).
  unfold isElementOf, nodeAt in Ht. rewrite Hd in Ht.
  apply SynthesizerFacts.eqb_eq in Eh. subst t.
  split.
  - intros ->. cbn [rev descend isTagged] in Ht.
    change (toLowerCase (js "HTML")) with (js "html") in Ht. congruence.
  - rewrite Hb. intros [= ->]. cbn [rev app descend stepInto childNodesOf] in Ht.
    rewrite Hnth in Ht. cbn [isTagged] in Ht.
    apply orb_true_iff in Ebd as [E|E]; apply SynthesizerFacts.eqb_eq in E; subst tb.
    + change (toLowerCase (js "BODY")) with (js "body") in Ht. congruence.
    + change (toLowerCase (js "FRAMESET")) with (js "frameset") in Ht. congruence.
Qed.

Lemma isElementOf_node doc name el :
  isElementOf doc name el = true -> exists n, nodeAt doc el = Some n.
Proof.
  unfold isElementOf. destruct (nodeAt doc el) as [n|]; [eauto | discriminate].
Qed.

Section PreservedOptions.

Variables doc doc' : Document.
Hypothesis P : preserved doc doc'.
Variable b : Element.
Hypothesis Hbody : body doc = Some b.

Lemma preserved_skipsOption o :
  isElementOf doc (js "option") o = true ->
  skipsOption doc' o = skipsOption doc o.
Proof.
  intros H. destruct (isElementOf_node doc _ o H) as (n & Hn).
  destruct (preserved_shell doc doc' P o n Hn) as (_ & Ha & Hp & _).
  unfold skipsOption, hasAttribute, getAttribute. rewrite Ha, Hp. reflexivity.
Qed.

Lemma preserved_optionProfile sel o ss :
  isElementOf doc (js "select") sel = true ->
  isElementOf doc (js "option") o = true ->
  optionProfile doc' sel o ss = optionProfile doc sel o ss.
Proof.
  intros Hs Ho.
  destruct (isElementOf_node doc _ o Ho) as (n & Hn).
  destruct (isElementOf_node doc _ sel Hs) as (m & Hm).
  destruct (preserved_shell doc doc' P o n Hn) as (_ & _ & Hp & _).
  destruct (preserved_shell doc doc' P sel m Hm) as (_ & Ha & _ & _).
  destruct (tagged_below_body doc b (js "option") o Hbody Ho) as (N1 & N2);
    try reflexivity.
  destruct P as (_ & _ & W).
  unfold optionProfile, textContentOf, id.
  rewrite Hp, Ha, (W o n Hn N1 N2), Hn, (preserved_parent_text doc doc' P sel m Hm).
  reflexivity.
Qed.

End PreservedOptions.

(** The option loop of a select: every surviving option, in order, is
    stored under the id of its position; the others change nothing. *)
Lemma tagOptions_expansion doc0 b sel selectId ss :
  body doc0 = Some b ->
  isElementOf doc0 (js "select") sel = true ->
  forall options st k,
    preserved doc0 (scanDocument st) ->
    (forall o, In o options -> isElementOf doc0 (js "option") o = true) ->
    exists doc',
      preserved doc0 doc'
      /\ forEach (tagOption sel selectId ss) options (st, k)
         = Some (mkScan doc'
                   (expansion doc0 sel selectId ss k (survivors doc0 options)
                              (elementMap st))
                   (idCounter st),
                 (k + N.of_nat (List.length (survivors doc0 options)))%N).
Proof.
  intros Hb Hsel. induction options as [|o options IH]; intros st k P Hopts.
  - exists (scanDocument st). split; [exact P|].
    cbn. rewrite N.add_0_r. destruct st; reflexivity.
  - assert (isElementOf doc0 (js "option") o = true) as Ho
      by (apply Hopts; left; reflexivity).
    assert (forall o', In o' options -> isElementOf doc0 (js "option") o' = true)
      as Hrest by (intros o' Hin; apply Hopts; right; exact Hin).
    cbn [forEach tagOption]. cbv zeta.
    rewrite (preserved_skipsOption doc0 (scanDocument st) P o Ho).
    unfold survivors; cbn [filter]; fold (survivors doc0 options).
    destruct (skipsOption doc0 o) eqn:Hskip; cbn [negb].
    + apply IH; assumption.
    + rewrite (preserved_optionProfile doc0 (scanDocument st) P b Hb sel o ss Hsel Ho).
      pose proof (proj1 P) as PB.
      destruct (appendToBody_defined (scanDocument st)
                  (optionBadgeNode
                     (badgeLabel (optionId selectId k)
                        (text (optionProfile doc0 sel o ss)))))
        as (doc1 & Happ); [congruence|].
      rewrite Happ.
      assert (preserved doc0 doc1) as P1.
      { apply preserved_trans with (d2 := scanDocument st); [exact P|].
        apply appendToBody_preserved with (x := optionBadgeNode
                     (badgeLabel (optionId selectId k)
                        (text (optionProfile doc0 sel o ss))));
          [reflexivity | exact Happ]. }
      destruct (IH (mkScan doc1
                      (objSet (elementMap st) (optionId selectId k)
                              (optionProfile doc0 sel o ss))
                      (idCounter st))
                   (k + 1)%N P1 Hrest) as (doc' & P' & E).
      exists doc'. split; [exact P'|].
      rewrite E. cbn [expansion elementMap idCounter List.length].
      do 2 f_equal. lia.
Qed.

End DocumentFacts.

Module ScanFacts.

Import Js Dom Tagger Design Notions Pages.

Lemma isVisible_isSelectVisible (p : Props) :
  isVisible p = isSelectVisible p && negb (eqb (style_opacity p) (js "0")).
Proof. reflexivity. Qed.

(** C8 (what the code does). The test of the option pass leaves out the
    opacity: a select that is laid out and shown with opacity 0 fails
    [isVisible] and passes [isSelectVisible].  On a page with two selects
    of the same id, the second with opacity 0, only the first gets a
    profile, and the option recorded under its id is the option of the
    second. *)
Theorem select_pass_ignores_opacity :
  isVisible (MiniDom.withOpacity MiniDom.shown (js "0")) = false
  /\ isSelectVisible (MiniDom.withOpacity MiniDom.shown (js "0")) = true
  /\ selectorsOf (MiniDom.scan twoSelects)
     = Some [(js "1", Some (js "#dup"));
             (js "1a", Some (js "#dup option[value=" ++ dquote ++ js "y"
                             ++ dquote ++ js "]"))].
Proof. vm_compute. repeat split; reflexivity. Qed.

(** C9 (as stated, refuted). A textarea without placeholder whose value is
    empty and whose default text is still its child: the document's
    wording gives the direct text, the profile has the empty string. *)
Lemma textarea_direct_text_not_used :
  preferredText emptiedTextarea theTextarea = js "draft"
  /\ text (extractElementProfile emptiedTextarea theTextarea) = []
  /\ text (extractElementProfile emptiedTextarea theTextarea)
     <> preferredText emptiedTextarea theTextarea.
Proof. vm_compute. repeat split; try reflexivity. discriminate. Qed.

(** C9 (amended). For an input or a textarea the text of the profile is
    the placeholder when it is not empty, else the current value when
    that is not empty, else the empty string: whatever the child nodes
    of the element are. *)
Theorem input_text_is_placeholder_then_value :
  forall (doc : Document) (el : Element),
    toLowerCase (tagName doc el) = js "input"
    \/ toLowerCase (tagName doc el) = js "textarea" ->
    text (extractElementProfile doc el)
    = match el_placeholder (propsOf doc el), el_value (propsOf doc el) with
      | _ :: _, _ => el_placeholder (propsOf doc el)
      | [], _ :: _ => el_value (propsOf doc el)
      | [], [] => []
      end.
Proof.
  intros doc el H. unfold extractElementProfile, profileText; cbn [text].
  assert (eqb (toLowerCase (tagName doc el)) (js "input")
          || eqb (toLowerCase (tagName doc el)) (js "textarea") = true) as ->.
  { destruct H as [-> | ->]; reflexivity. }
  unfold orElse.
  destruct (el_placeholder (propsOf doc el)), (el_value (propsOf doc el));
    reflexivity.
Qed.

Lemma input_text_witness :
  text (extractElementProfile emptiedTextarea theTextarea) = [].
Proof.
  apply (input_text_is_placeholder_then_value emptiedTextarea theTextarea).
  right. vm_compute. reflexivity.
Defined.

Lemma objGet_In {V : Type} (o : JsObject V) (key : JsString) (v : V) :
  objGet o key = Some v -> exists k, In (k, v) o.
Proof.
  induction o as [|[k w] rest IH]; cbn; [discriminate|].
  destruct (eqb k key).
  - intros [= ->]. exists k. left; reflexivity.
  - intros H. destruct (IH H) as [k' Hin]. exists k'. right; exact Hin.
Qed.

Lemma find_all_false {A : Type} (f : A -> bool) (l : list A) :
  (forall a, f a = false) -> find f l = None.
Proof.
  intros H. induction l as [|a rest IH]; cbn; [reflexivity|].
  rewrite H. exact IH.
Qed.

Lemma findSelectId_none (map : ElementMap) (selectSelector : JsString) :
  (forall key profile, In (key, profile) map ->
                       selector profile <> Some selectSelector) ->
  findSelectId map selectSelector = None.
Proof.
  intros H. unfold findSelectId.
  apply find_all_false. intros key.
  destruct (objGet map key) as [profile|] eqn:E; [|reflexivity].
  destruct (objGet_In map key profile E) as [k Hin].
  specialize (H k profile Hin).
  destruct (selector profile) as [s|]; [|reflexivity].
  destruct (eqb s selectSelector) eqn:Es; [|reflexivity].
  exfalso. apply H. f_equal.
  clear - Es. revert selectSelector Es.
  induction s as [|c s IH]; intros [|d t] Es; cbn in Es; try discriminate.
  - reflexivity.
  - apply andb_true_iff in Es as [E1 E2].
    apply N.eqb_eq in E1. subst. f_equal. auto.
Qed.

(** C10. A select whose recomputed selector equals the selector of no
    profile of the element map: the lookup finds no id, and the pass goes
    on to the next select with the scan as it was: no exception, no
    option profile, the same map, the same document. *)
Theorem unmatched_select_is_skipped :
  forall (querySelectorAll : Document -> JsString -> option (list Element))
         (st : Scan) (selectElement : Element),
    (forall key profile,
        In (key, profile) (elementMap st) ->
        selector profile
        <> Some (fst (getUniversalSelector querySelectorAll (scanDocument st)
                                           selectElement))) ->
    findSelectId (elementMap st)
                 (fst (getUniversalSelector querySelectorAll (scanDocument st)
                                            selectElement)) = None
    /\ expandSelect querySelectorAll st selectElement = Some st
    /\ forall rest,
        forEach (expandSelect querySelectorAll) (selectElement :: rest) st
        = forEach (expandSelect querySelectorAll) rest st.
Proof.
  intros q st sel Hno.
  pose proof (findSelectId_none (elementMap st) _ Hno) as Hfind.
  assert (expandSelect q st sel = Some st) as Hskip.
  { unfold expandSelect. cbv zeta. rewrite Hfind.
    destruct (isSelectVisible (propsOf (scanDocument st) sel)); reflexivity. }
  split; [exact Hfind|]. split; [exact Hskip|].
  intros rest. cbn [forEach]. rewrite Hskip. reflexivity.
Qed.

Lemma unmatched_select_witness :
  isSelectVisible (propsOf (scanDocument (afterStepOne hiddenSelect))
                           [Child 1; Child 1]) = true
  /\ expandSelect MiniDom.querySelectorAll (afterStepOne hiddenSelect)
                  [Child 1; Child 1]
     = Some (afterStepOne hiddenSelect).
Proof.
  split; [vm_compute; reflexivity|].
  apply (unmatched_select_is_skipped MiniDom.querySelectorAll
           (afterStepOne hiddenSelect) [Child 1; Child 1]).
  intros key profile Hin. vm_compute in Hin.
  destruct Hin as [Hin|[]]. injection Hin as _ <-.
  vm_compute. discriminate.
Defined.

End ScanFacts.

Module ExpanderFacts.

Import Js Dom Tagger Design Notions Pages.

Lemma matching_isElementOf doc name els o :
  In o (matching doc (isTagged name) els) -> isElementOf doc name o = true.
Proof.
  unfold matching, isElementOf. intros H. apply filter_In in H. apply H.
Qed.





End ExpanderFacts.

Module ModelFacts.

Import Js Dom Tagger Design Notions.

Lemma elementsBefore_zero (ns : list Node) : MiniDom.elementsBefore ns 0 = 0%N.
Proof. destruct ns; reflexivity. Qed.

Lemma elementsBefore_succ (ns : list Node) (j : nat) :
  MiniDom.elementsBefore ns (S j)
  = (MiniDom.elementsBefore ns j
     + match nth_error ns j with
       | Some n => if isElementNode n then 1 else 0
       | None => 0
       end)%N.
Proof.
  revert j; induction ns as [|n ns IH]; intros j.
  - destruct j; reflexivity.
  - destruct j as [|j].
    + cbn [MiniDom.elementsBefore nth_error]. rewrite elementsBefore_zero. lia.
    + change (MiniDom.elementsBefore (n :: ns) (S (S j)))
        with ((if isElementNode n then 1 else 0)
              + MiniDom.elementsBefore ns (S j))%N.
      rewrite IH. cbn [MiniDom.elementsBefore nth_error]. lia.
Qed.

Lemma lastElementBefore_count (ns : list Node) (i : nat) :
  match lastElementBefore ns i with
  | Some j => (j < i)%nat
              /\ MiniDom.elementsBefore ns i = (MiniDom.elementsBefore ns j + 1)%N
  | None => MiniDom.elementsBefore ns i = 0%N
  end.
Proof.
  induction i as [|i IH]; cbn [lastElementBefore].
  - apply elementsBefore_zero.
  - rewrite elementsBefore_succ.
    destruct (nth_error ns i) as [[d|d|t a p c s]|] eqn:E; cbn [isElementNode].
    + destruct (lastElementBefore ns i) as [j|];
        [destruct IH as [Hlt Hc]; split; lia | lia].
    + destruct (lastElementBefore ns i) as [j|];
        [destruct IH as [Hlt Hc]; split; lia | lia].
    + split; [lia | reflexivity].
    + destruct (lastElementBefore ns i) as [j|];
        [destruct IH as [Hlt Hc]; split; lia | lia].
Qed.

Lemma siblingNodes_atPlace doc el j :
  siblingNodes doc (atPlace el j) = siblingNodes doc el.
Proof. destruct el as [|[i|i] p]; reflexivity. Qed.

Lemma place_atPlace el j : el <> [] -> place (atPlace el j) = j.
Proof. destruct el as [|[i|i] p]; [congruence | reflexivity | reflexivity]. Qed.

Lemma atPlace_atPlace el j k : atPlace (atPlace el j) k = atPlace el k.
Proof. destruct el as [|[i|i] p]; reflexivity. Qed.

Lemma countSiblings_count doc el :
  el <> [] ->
  forall steps i index,
    (i <= steps)%nat ->
    countSiblings doc steps
      (match lastElementBefore (siblingNodes doc el) i with
       | Some j => Some (atPlace el j)
       | None => None
       end) index
    = (index + MiniDom.elementsBefore (siblingNodes doc el) i)%N.
Proof.
  intros Hel. induction steps as [|steps IH]; intros i index Hle.
  - assert (i = 0)%nat as -> by lia. cbn [lastElementBefore countSiblings].
    rewrite elementsBefore_zero. lia.
  - pose proof (lastElementBefore_count (siblingNodes doc el) i) as Hc.
    destruct (lastElementBefore (siblingNodes doc el) i) as [j|].
    + destruct Hc as [Hlt Hc]. cbn [countSiblings].
      unfold previousElementSibling.
      rewrite siblingNodes_atPlace, (place_atPlace el j Hel).
      replace (match lastElementBefore (siblingNodes doc el) j with
               | Some j0 => Some (atPlace (atPlace el j) j0)
               | None => None
               end)
        with (match lastElementBefore (siblingNodes doc el) j with
              | Some j0 => Some (atPlace el j0)
              | None => None
              end)
        by (destruct (lastElementBefore (siblingNodes doc el) j);
            [rewrite atPlace_atPlace|]; reflexivity).
      rewrite IH by lia. rewrite Hc. lia.
    + cbn [countSiblings]. rewrite Hc. lia.
Qed.

(** X3. [getNthChildIndex] gives 1 plus the number of element siblings
    before the element: the bound on its loop is never what stops it. *)
Theorem getNthChildIndex_counts_preceding_elements :
  forall (doc : Document) (el : Element),
    getNthChildIndex doc el
    = (MiniDom.elementsBefore (siblingNodes doc el) (place el) + 1)%N.
Proof.
  intros doc el. unfold getNthChildIndex.
  destruct el as [|s p] eqn:E; [reflexivity|]. rewrite <- E.
  assert (el <> []) as Hel by (subst el; discriminate).
  unfold previousElementSibling.
  rewrite (countSiblings_count doc el Hel (place el) (place el) 1 (le_n _)).
  lia.
Qed.

End ModelFacts.

(* ================================================================= *)
(** ** Further properties of the code *)

Module GateRunFacts.

Import StabilityGate GateFacts GateRunDefs.

Local Open Scope Z_scope.

Section Runs.

Variable timersFirst : bool.

Lemma runTimers_pending (m d : Z) (r : option Z) (runs : list Z) :
  runTimersBefore timersFirst m (pending d r runs)
  = if dueBefore timersFirst d m then onStability d (pending d r runs)
    else pending d r runs.
Proof.
  unfold runTimersBefore.
  assert (fireNextBefore timersFirst m (pending d r runs)
          = if dueBefore timersFirst d m then onStability d (pending d r runs)
            else pending d r runs) as E by reflexivity.
  rewrite E. destruct (dueBefore timersFirst d m) eqn:Hd.
  - reflexivity.
  - rewrite E. rewrite ?Hd. reflexivity.
Qed.

(** After the failsafe has fired with the debounce timer still pending,
    whatever mutations follow, the debounce timer fires and the scan runs
    once more. *)
Lemma deliver_pending (muts : list Z) (d : Z) (r : option Z) (runs : list Z) :
  taggingRuns (deliver timersFirst muts (pending d r runs)) = runs ++ [d].
Proof.
  induction muts as [|m rest IH]; cbn [deliver].
  - reflexivity.
  - rewrite runTimers_pending. destruct (dueBefore timersFirst d m).
    + cbn [observing onStability resolveWithTagging].
      rewrite deliver_settled; reflexivity.
    + cbn [observing pending]. exact IH.
Qed.

Lemma waiting_runs (muts : list Z) :
  forall last,
    scheduleFrom last muts -> last <= 3000 ->
    if debounceExpiry timersFirst last muts <? 3000
    then taggingRuns (deliver timersFirst muts (waiting last))
         = [debounceExpiry timersFirst last muts]
    else exists e,
        taggingRuns (deliver timersFirst muts (waiting last)) = [3000; e]
        /\ 3000 <= e <= 3300.
Proof.
  induction muts as [|m rest IH]; intros last S Hlast.
  - cbn [debounceExpiry deliver]. unfold drain.
    assert (fireNext (waiting last)
            = if last + 300 <? 3000 then onStability (last + 300) (waiting last)
              else onMaxWait 3000 (waiting last)) as E.
    { unfold fireNext, nextTimer, waiting; cbn [stabilityTimer maxWaitTimer].
      destruct (last + 300 <? 3000); reflexivity. }
    rewrite E.
    destruct (Z.ltb_spec (last + 300) 3000) as [Hlt|Hge].
    + reflexivity.
    + exists (last + 300). split; [reflexivity | lia].
  - destruct S as [Hle S]. cbn [debounceExpiry deliver].
    destruct (dueBefore timersFirst (Z.min (last + 300) 3000) m) eqn:Hd.
    + (* a timer fires before the mutation is delivered *)
      rewrite dueBefore_min in Hd.
      unfold runTimersBefore.
      assert (fireNextBefore timersFirst m (waiting last)
              = if last + 300 <? 3000
                then (if dueBefore timersFirst (last + 300) m
                      then onStability (last + 300) (waiting last)
                      else waiting last)
                else (if dueBefore timersFirst 3000 m
                      then onMaxWait 3000 (waiting last)
                      else waiting last)) as E.
      { unfold fireNextBefore, nextTimer, waiting; cbn [stabilityTimer maxWaitTimer].
        destruct (last + 300 <? 3000); reflexivity. }
      rewrite E.
      destruct (Z.ltb_spec (last + 300) 3000) as [Hlt|Hge].
      * assert (dueBefore timersFirst (last + 300) m = true) as Hs.
        { destruct (dueBefore timersFirst (last + 300) m) eqn:E0; [reflexivity|].
          cbn in Hd. unfold dueBefore in *. destruct timersFirst; lia. }
        rewrite Hs.
        replace (last + 300 <? 3000) with true by lia.
        change (fireNextBefore timersFirst m (onStability (last + 300) (waiting last)))
          with (onStability (last + 300) (waiting last)).
        cbn [observing onStability resolveWithTagging].
        rewrite deliver_settled; reflexivity.
      * assert (dueBefore timersFirst 3000 m = true) as Hm.
        { destruct (dueBefore timersFirst 3000 m) eqn:E0; [reflexivity|].
          rewrite orb_false_r in Hd. unfold dueBefore in *. destruct timersFirst; lia. }
        rewrite Hm.
        assert ((debounceExpiry timersFirst last (m :: rest) <? 3000) = false) as HE.
        { apply Z.ltb_ge.
          pose proof (debounceExpiry_lower timersFirst (m :: rest) last
                        (conj Hle S)). lia. }
        cbn [debounceExpiry] in HE. rewrite HE.
        exists (last + 300). split; [|lia].
        change (onMaxWait 3000 (waiting last))
          with (pending (last + 300) (Some 3000) [3000]).
        change (fireNextBefore timersFirst m
                  (pending (last + 300) (Some 3000) [3000]))
          with (if dueBefore timersFirst (last + 300) m
                then onStability (last + 300)
                       (pending (last + 300) (Some 3000) [3000])
                else pending (last + 300) (Some 3000) [3000]).
        destruct (dueBefore timersFirst (last + 300) m).
        -- cbn [observing onStability resolveWithTagging].
           rewrite deliver_settled; reflexivity.
        -- cbn [observing pending]. apply deliver_pending.
    + rewrite runTimers_waiting_idle by assumption. cbn [observing waiting].
      change (onMutation m (waiting last)) with (waiting m).
      rewrite dueBefore_min, orb_false_iff in Hd. destruct Hd as [Hd1 Hd2].
      rewrite Hd1. apply IH; [assumption|].
      apply (not_dueBefore_ge timersFirst 3000 m Hd2).
Qed.

End Runs.

(** X4. On a document with a body [performTagging] runs once when the
    debounce elapses before the 3000ms deadline, at that time; otherwise
    it runs twice, at 3000ms and again when the debounce timer the
    failsafe left pending fires, no later than 3300ms.  On a document
    without a body it runs once, at 3000ms. *)
Theorem tagging_runs_once_or_twice :
  forall (timersFirst : bool) (muts : list Z),
    scheduleFrom 0 muts ->
    (if debounceExpiry timersFirst 0 muts <? 3000
     then taggingRuns (run timersFirst true muts)
          = [debounceExpiry timersFirst 0 muts]
     else exists e,
         taggingRuns (run timersFirst true muts) = [3000; e]
         /\ 3000 <= e /\ e <= 3300)
    /\ taggingRuns (run timersFirst false muts) = [3000].
Proof.
  intros tf muts S. split.
  - apply (waiting_runs tf muts 0 S). lia.
  - rewrite run_without_body. reflexivity.
Qed.

Lemma tagging_runs_witness :
  (exists e, taggingRuns (run false true (every 100 40)) = [3000; e]
             /\ 3000 <= e /\ e <= 3300)
  /\ taggingRuns (run false false (every 100 40)) = [3000].
Proof.
  assert (scheduleFrom 0 (every 100 40)) as S by (vm_compute; intuition discriminate).
  exact (tagging_runs_once_or_twice false (every 100 40) S).
Defined.

(** *** Nothing is left pending *)







End GateRunFacts.

Module CollectorFacts.

Import Js Dom Tagger Design Notions TreeDefs.

Lemma subtree_unfold p t a pr cs sh :
  subtree p (ElementNode t a pr cs sh) = p :: forest p Child 0 cs.
Proof.
  cbn [subtree]. f_equal. generalize 0%nat.
  induction cs as [|c cs IH]; intros i; [reflexivity|].
  cbn [forest]. rewrite <- IH. reflexivity.
Qed.

Lemma shadowResults_unfold doc p t a pr cs sh :
  shadowResults doc p (ElementNode t a pr cs sh)
  = match sh with
    | Some roots =>
        matching doc matchesInteractive (forest p ShadowChild 0 roots)
        ++ shadowForest doc p ShadowChild 0 roots
    | None => []
    end
    ++ shadowForest doc p Child 0 cs.
Proof.
  cbn [shadowResults]. f_equal.
  - destruct sh as [roots|]; [|reflexivity]. f_equal. generalize 0%nat.
    induction roots as [|c roots IH]; intros i; [reflexivity|].
    cbn [shadowForest]. rewrite <- IH. reflexivity.
  - generalize 0%nat.
    induction cs as [|c cs IH]; intros i; [reflexivity|].
    cbn [shadowForest]. rewrite <- IH. reflexivity.
Qed.

Lemma forest_In p mk ns : forall i k c x,
  nth_error ns k = Some c ->
  In x (subtree (mk (i + k)%nat :: p) c) -> In x (forest p mk i ns).
Proof.
  induction ns as [|n ns IH]; intros i k c x Hn Hin; [destruct k; discriminate|].
  cbn [forest]. apply in_or_app. destruct k as [|k].
  - injection Hn as ->. rewrite Nat.add_0_r in Hin. left; exact Hin.
  - right. apply (IH (S i) k c x Hn). replace (S i + k)%nat with (i + S k)%nat by lia.
    exact Hin.
Qed.

Lemma forest_In_inv p mk ns : forall i x,
  In x (forest p mk i ns) ->
  exists k c, nth_error ns k = Some c /\ In x (subtree (mk (i + k)%nat :: p) c).
Proof.
  induction ns as [|n ns IH]; intros i x Hin; [destruct Hin|].
  cbn [forest] in Hin. apply in_app_or in Hin as [Hin|Hin].
  - exists 0%nat, n. rewrite Nat.add_0_r. auto.
  - destruct (IH (S i) x Hin) as (k & c & Hn & Hx).
    exists (S k), c. split; [exact Hn|].
    replace (i + S k)%nat with (S i + k)%nat by lia. exact Hx.
Qed.

Lemma shadowForest_In doc p mk ns : forall i k c x,
  nth_error ns k = Some c ->
  In x (shadowResults doc (mk (i + k)%nat :: p) c) ->
  In x (shadowForest doc p mk i ns).
Proof.
  induction ns as [|n ns IH]; intros i k c x Hn Hin; [destruct k; discriminate|].
  cbn [shadowForest]. apply in_or_app. destruct k as [|k].
  - injection Hn as ->. rewrite Nat.add_0_r in Hin. left; exact Hin.
  - right. apply (IH (S i) k c x Hn). replace (S i + k)%nat with (i + S k)%nat by lia.
    exact Hin.
Qed.

Lemma shadowForest_In_inv doc p mk ns : forall i x,
  In x (shadowForest doc p mk i ns) ->
  exists k c, nth_error ns k = Some c
              /\ In x (shadowResults doc (mk (i + k)%nat :: p) c).
Proof.
  induction ns as [|n ns IH]; intros i x Hin; [destruct Hin|].
  cbn [shadowForest] in Hin. apply in_app_or in Hin as [Hin|Hin].
  - exists 0%nat, n. rewrite Nat.add_0_r. auto.
  - destruct (IH (S i) x Hin) as (k & c & Hn & Hx).
    exists (S k), c. split; [exact Hn|].
    replace (i + S k)%nat with (S i + k)%nat by lia. exact Hx.
Qed.

(** An element reached from [n] by steps of the light tree is listed by
    [subtree]. *)
Lemma subtree_In_route r : forall n p m,
  forallb isChildStep r = true ->
  descend n r = Some m -> isElementNode m = true ->
  In (rev r ++ p) (subtree p n).
Proof.
  induction r as [|s r IH]; intros n p m Hr Hd Hm.
  - cbn in Hd. injection Hd as ->. destruct m; try discriminate.
    rewrite subtree_unfold. left; reflexivity.
  - cbn [forallb] in Hr. apply andb_true_iff in Hr as [Hs Hr].
    destruct s as [k|k]; [|discriminate].
    cbn [descend stepInto] in Hd.
    destruct n as [d|d|t a pr cs sh]; try (destruct k; discriminate).
    cbn [childNodesOf] in Hd.
    destruct (nth_error cs k) as [c|] eqn:Ek; [|discriminate].
    rewrite subtree_unfold. right.
    apply (forest_In p Child cs 0 k c); [exact Ek|].
    cbn [rev]. rewrite <- app_assoc. apply (IH c (Child k :: p) m Hr Hd Hm).
Qed.

Lemma matching_In doc pred els x :
  In x (matching doc pred els) <-> In x els /\ passes doc pred x = true.
Proof. unfold matching, passes. apply filter_In. Qed.

(** An element reached from [n] through a shadow root is among the shadow
    results of [n], if it matches. *)
Lemma shadowResults_In_route doc r : forall n p m,
  hasShadowStep r = true ->
  descend n r = Some m -> isElementNode m = true ->
  passes doc matchesInteractive (rev r ++ p) = true ->
  In (rev r ++ p) (shadowResults doc p n).
Proof.
  induction r as [|s r IH]; intros n p m Hr Hd Hm Hp; [discriminate|].
  cbn [descend] in Hd.
  destruct (stepInto n s) as [c|] eqn:Es; [|discriminate].
  destruct n as [d|d|t a pr cs sh];
    try (destruct s as [k|k]; cbn in Es; destruct k; discriminate).
  rewrite shadowResults_unfold. cbn [rev] in *. rewrite <- app_assoc in *.
  cbn [app] in *. apply in_or_app.
  destruct s as [k|k]; cbn [stepInto childNodesOf shadowOf] in Es.
  - right. apply (shadowForest_In doc p Child cs 0 k c); [exact Es|].
    apply (IH c (Child k :: p) m); auto.
  - left. destruct sh as [roots|]; [|discriminate]. apply in_or_app.
    destruct (forallb isChildStep r) eqn:Er.
    + left. apply matching_In. split; [|exact Hp].
      apply (forest_In p ShadowChild roots 0 k c); [exact Es|].
      apply (subtree_In_route r c (ShadowChild k :: p) m); auto.
    + right. apply (shadowForest_In doc p ShadowChild roots 0 k c); [exact Es|].
      apply (IH c (ShadowChild k :: p) m); auto.
      unfold hasShadowStep. rewrite Er. reflexivity.
Qed.

Lemma shadowResults_passes doc n : forall p x,
  In x (shadowResults doc p n) -> passes doc matchesInteractive x = true.
Proof.
  induction n as [d|d|t a pr cs sh IHcs IHsh] using Node_nested_ind;
    intros p x Hin; [destruct Hin|destruct Hin|].
  rewrite shadowResults_unfold in Hin. apply in_app_or in Hin as [Hin|Hin].
  - destruct sh as [roots|]; [|destruct Hin].
    apply in_app_or in Hin as [Hin|Hin].
    + apply matching_In in Hin. apply Hin.
    + apply shadowForest_In_inv in Hin as (k & c & Hk & Hx).
      cbn [shadowAll] in IHsh. rewrite Forall_forall in IHsh.
      apply (IHsh c (nth_error_In _ _ Hk) _ _ Hx).
  - apply shadowForest_In_inv in Hin as (k & c & Hk & Hx).
    rewrite Forall_forall in IHcs.
    apply (IHcs c (nth_error_In _ _ Hk) _ _ Hx).
Qed.

Lemma matchesInteractive_element n :
  matchesInteractive n = true -> isElementNode n = true.
Proof. destruct n; [discriminate|discriminate|reflexivity]. Qed.

Lemma collected_matches doc el :
  In el (getAllElementsIncludingShadow doc) ->
  exists n, nodeAt doc el = Some n /\ matchesInteractive n = true.
Proof.
  intros Hin. unfold getAllElementsIncludingShadow in Hin.
  assert (passes doc matchesInteractive el = true) as Hp.
  { apply in_app_or in Hin as [Hin|Hin].
    - apply matching_In in Hin. apply Hin.
    - destruct (documentElement doc) as [root|]; [|destruct Hin].
      apply (shadowResults_passes _ _ _ _ Hin). }
  unfold passes in Hp. destruct (nodeAt doc el) as [n|]; [|discriminate]. eauto.
Qed.

(** X6. The collector returns exactly the elements of the document, at
    any depth of shadow roots, that match one of its thirteen selectors. *)
Theorem collector_returns_exactly_the_matching_elements :
  forall (doc : Document) (el : Element),
    In el (getAllElementsIncludingShadow doc)
    <-> exists n, nodeAt doc el = Some n /\ matchesInteractive n = true.
Proof.
  intros doc el. split; [apply collected_matches|].
  unfold getAllElementsIncludingShadow.
  intros (n & Hn & Hm).
  assert (passes doc matchesInteractive el = true) as Hp
    by (unfold passes; rewrite Hn; exact Hm).
  unfold nodeAt in Hn. unfold documentElements.
  destruct (documentElement doc) as [root|] eqn:Er; [|discriminate].
  apply in_or_app.
  pose proof (matchesInteractive_element n Hm) as He.
  destruct (forallb isChildStep (rev el)) eqn:Ec.
  - left. apply matching_In. split; [|exact Hp].
    pose proof (subtree_In_route (rev el) root [] n Ec Hn He) as H.
    rewrite rev_involutive, app_nil_r in H. exact H.
  - right.
    assert (hasShadowStep (rev el) = true) as Hs
      by (unfold hasShadowStep; rewrite Ec; reflexivity).
    assert (passes doc matchesInteractive (rev (rev el) ++ []) = true) as Hp'
      by (rewrite rev_involutive, app_nil_r; exact Hp).
    pose proof (shadowResults_In_route doc (rev el) root [] n Hs Hn He Hp') as H.
    rewrite rev_involutive, app_nil_r in H. exact H.
Qed.

(** *** No element is returned twice *)

Lemma tail_step_inj (q q' p : Element) (a b : Step) :
  q ++ a :: p = q' ++ b :: p -> q = q' /\ a = b.
Proof.
  intros H. apply app_inj_tail.
  apply (app_inv_tail p). rewrite <- !app_assoc. exact H.
Qed.

Lemma longer_differs (q p : Element) (a : Step) : p <> q ++ a :: p.
Proof.
  intros H. apply (f_equal (@List.length Step)) in H.
  rewrite length_app in H. cbn in H. lia.
Qed.

Lemma subtree_form n : forall p x,
  In x (subtree p n) ->
  exists q, x = q ++ p /\ forallb isChildStep q = true.
Proof.
  induction n as [d|d|t a pr cs sh IHcs _] using Node_nested_ind;
    intros p x Hin; [destruct Hin|destruct Hin|].
  rewrite subtree_unfold in Hin. destruct Hin as [<-|Hin].
  - exists []. auto.
  - apply forest_In_inv in Hin as (k & c & Hk & Hx).
    rewrite Forall_forall in IHcs.
    destruct (IHcs c (nth_error_In _ _ Hk) _ _ Hx) as (q & -> & Hq).
    exists (q ++ [Child (0 + k)]). rewrite <- app_assoc. split; [reflexivity|].
    rewrite forallb_app, Hq. reflexivity.
Qed.

Lemma forest_form p mk ns i x :
  In x (forest p mk i ns) ->
  exists q k, x = q ++ mk k :: p /\ (i <= k)%nat
              /\ forallb isChildStep q = true.
Proof.
  intros Hin. apply forest_In_inv in Hin as (k & c & Hk & Hx).
  apply subtree_form in Hx as (q & -> & Hq).
  exists q, (i + k)%nat. repeat split; [lia|exact Hq].
Qed.

Lemma shadowForest_form doc p mk ns i x :
  (forall c, In c ns -> forall p x, In x (shadowResults doc p c) ->
     exists q, x = q ++ p /\ hasShadowStep q = true) ->
  In x (shadowForest doc p mk i ns) ->
  exists q k, x = q ++ mk k :: p /\ (i <= k)%nat /\ hasShadowStep q = true.
Proof.
  intros IH Hin. apply shadowForest_In_inv in Hin as (k & c & Hk & Hx).
  apply (IH c (nth_error_In _ _ Hk)) in Hx as (q & -> & Hq).
  exists q, (i + k)%nat. repeat split; [lia|exact Hq].
Qed.

Lemma hasShadowStep_app_l q r :
  hasShadowStep q = true -> hasShadowStep (q ++ r) = true.
Proof.
  unfold hasShadowStep. rewrite forallb_app.
  destruct (forallb isChildStep q); [discriminate|reflexivity].
Qed.

Lemma hasShadowStep_app_r q r :
  hasShadowStep r = true -> hasShadowStep (q ++ r) = true.
Proof.
  unfold hasShadowStep. rewrite forallb_app.
  destruct (forallb isChildStep r); [discriminate|].
  rewrite andb_false_r. reflexivity.
Qed.

Lemma shadowResults_form doc n : forall p x,
  In x (shadowResults doc p n) ->
  exists q, x = q ++ p /\ hasShadowStep q = true.
Proof.
  induction n as [d|d|t a pr cs sh IHcs IHsh] using Node_nested_ind;
    intros p x Hin; [destruct Hin|destruct Hin|].
  rewrite Forall_forall in IHcs.
  rewrite shadowResults_unfold in Hin. apply in_app_or in Hin as [Hin|Hin].
  - destruct sh as [roots|]; [|destruct Hin].
    cbn [shadowAll] in IHsh. rewrite Forall_forall in IHsh.
    apply in_app_or in Hin as [Hin|Hin].
    + apply matching_In in Hin as [Hin _].
      apply forest_form in Hin as (q & k & -> & _ & Hq).
      exists (q ++ [ShadowChild k]). rewrite <- app_assoc. split; [reflexivity|].
      apply hasShadowStep_app_r. reflexivity.
    + apply shadowForest_form in Hin as (q & k & -> & _ & Hq); [|exact IHsh].
      exists (q ++ [ShadowChild k]). rewrite <- app_assoc. split; [reflexivity|].
      apply hasShadowStep_app_l. exact Hq.
  - apply shadowForest_form in Hin as (q & k & -> & _ & Hq); [|exact IHcs].
    exists (q ++ [Child k]). rewrite <- app_assoc. split; [reflexivity|].
    apply hasShadowStep_app_l. exact Hq.
Qed.

Lemma forest_NoDup p mk ns :
  (forall i j, mk i = mk j -> i = j) ->
  (forall c, In c ns -> forall p, NoDup (subtree p c)) ->
  forall i, NoDup (forest p mk i ns).
Proof.
  intros Hmk. induction ns as [|c ns IH]; intros Hc i; [constructor|].
  cbn [forest]. apply NoDup_app.
  - apply Hc. left; reflexivity.
  - apply IH. intros c' Hc'. apply Hc. right; exact Hc'.
  - intros x Hx Hx'. apply subtree_form in Hx as (q & -> & _).
    apply forest_form in Hx' as (q' & k & He & Hk & _).
    apply tail_step_inj in He as [_ He]. apply Hmk in He. lia.
Qed.

Lemma subtree_NoDup n : forall p, NoDup (subtree p n).
Proof.
  induction n as [d|d|t a pr cs sh IHcs _] using Node_nested_ind;
    intros p; [constructor|constructor|].
  rewrite Forall_forall in IHcs. rewrite subtree_unfold. constructor.
  - intros Hin. apply forest_form in Hin as (q & k & He & _).
    exact (longer_differs _ _ _ He).
  - apply forest_NoDup; [intros i j H; injection H; auto|exact IHcs].
Qed.

Lemma shadowForest_NoDup doc p mk ns :
  (forall i j, mk i = mk j -> i = j) ->
  (forall c, In c ns -> forall p, NoDup (shadowResults doc p c)) ->
  forall i, NoDup (shadowForest doc p mk i ns).
Proof.
  intros Hmk. induction ns as [|c ns IH]; intros Hc i; [constructor|].
  cbn [shadowForest]. apply NoDup_app.
  - apply Hc. left; reflexivity.
  - apply IH. intros c' Hc'. apply Hc. right; exact Hc'.
  - intros x Hx Hx'. apply shadowResults_form in Hx as (q & -> & _).
    apply shadowForest_form in Hx' as (q' & k & He & Hk & _);
      [|intros; eapply shadowResults_form; eassumption].
    apply tail_step_inj in He as [_ He]. apply Hmk in He. lia.
Qed.

Lemma shadowResults_NoDup doc n : forall p, NoDup (shadowResults doc p n).
Proof.
  induction n as [d|d|t a pr cs sh IHcs IHsh] using Node_nested_ind;
    intros p; [constructor|constructor|].
  rewrite Forall_forall in IHcs. rewrite shadowResults_unfold.
  assert (forall c, In c cs -> forall p x, In x (shadowResults doc p c) ->
            exists q, x = q ++ p /\ hasShadowStep q = true) as Fcs
    by (intros; eapply shadowResults_form; eassumption).
  apply NoDup_app.
  - destruct sh as [roots|]; [|constructor].
    cbn [shadowAll] in IHsh. rewrite Forall_forall in IHsh.
    apply NoDup_app.
    + apply NoDup_filter. apply forest_NoDup.
      * intros i j H; injection H; auto.
      * intros; apply subtree_NoDup.
    + apply shadowForest_NoDup; [intros i j H; injection H; auto|exact IHsh].
    + intros x Hx Hx'. apply matching_In in Hx as [Hx _].
      apply forest_form in Hx as (q & k & -> & _ & Hq).
      apply shadowForest_form in Hx' as (q' & k' & He & _ & Hq');
        [|intros; eapply shadowResults_form; eassumption].
      apply tail_step_inj in He as [-> _]. unfold hasShadowStep in Hq'.
      rewrite Hq in Hq'. discriminate.
  - apply shadowForest_NoDup; [intros i j H; injection H; auto|exact IHcs].
  - intros x Hx Hx'.
    apply shadowForest_form in Hx' as (q' & k' & -> & _); [|exact Fcs].
    destruct sh as [roots|]; [|destruct Hx].
    apply in_app_or in Hx as [Hx|Hx].
    + apply matching_In in Hx as [Hx _].
      apply forest_form in Hx as (q & k & He & _).
      apply tail_step_inj in He as [_ He]. discriminate.
    + apply shadowForest_form in Hx as (q & k & He & _);
        [|intros; eapply shadowResults_form; eassumption].
      apply tail_step_inj in He as [_ He]. discriminate.
Qed.

(** X7. The collector returns no element twice. *)
Theorem collector_returns_no_element_twice :
  forall doc : Document, NoDup (getAllElementsIncludingShadow doc).
Proof.
  intros doc. unfold getAllElementsIncludingShadow, documentElements.
  destruct (documentElement doc) as [root|]; [|constructor].
  apply NoDup_app.
  - apply NoDup_filter. apply subtree_NoDup.
  - apply shadowResults_NoDup.
  - intros x Hx Hx'. apply matching_In in Hx as [Hx _].
    apply subtree_form in Hx as (q & -> & Hq).
    apply shadowResults_form in Hx' as (q' & He & Hq').
    apply app_inv_tail in He. subst q'. unfold hasShadowStep in Hq'.
    rewrite Hq in Hq'. discriminate.
Qed.

End CollectorFacts.

Module RescanFacts.

Import Js Dom Tagger Design Notions TreeDefs RescanDefs.

Lemma withoutOverlays_unfold t a p cs sh :
  withoutOverlays (ElementNode t a p cs sh) = ElementNode t a p (keptChildren cs) sh.
Proof.
  reflexivity.
Qed.

Lemma keptChildren_app ns ms :
  keptChildren (ns ++ ms) = keptChildren ns ++ keptChildren ms.
Proof.
  induction ns as [|c ns IH]; [reflexivity|].
  cbn [app keptChildren]. destruct (isOverlay c); rewrite IH; reflexivity.
Qed.

Lemma isOverlay_withChild c x : isOverlay (withChild c x) = isOverlay c.
Proof. destruct c; reflexivity. Qed.

Lemma withoutOverlays_withChild c x :
  isOverlay x = true -> withoutOverlays (withChild c x) = withoutOverlays c.
Proof.
  intros Hx. destruct c as [d|d|t a p cs sh]; try reflexivity.
  cbn [withChild]. rewrite !withoutOverlays_unfold, keptChildren_app.
  cbn [keptChildren]. rewrite Hx, app_nil_r. reflexivity.
Qed.

Lemma keptChildren_appendChildAt i cs x :
  isOverlay x = true -> keptChildren (appendChildAt i cs x) = keptChildren cs.
Proof.
  intros Hx. revert i; induction cs as [|c cs IH]; intros i; [reflexivity|].
  destruct i as [|i]; cbn [appendChildAt keptChildren].
  - rewrite isOverlay_withChild, withoutOverlays_withChild by exact Hx.
    reflexivity.
  - rewrite IH. reflexivity.
Qed.

(** Removing the overlays undoes appending one to the body. *)
Lemma removeOverlays_appendToBody doc x doc' :
  isOverlay x = true ->
  appendToBody doc x = Some doc' -> removeOverlays doc' = removeOverlays doc.
Proof.
  intros Hx. unfold appendToBody, removeOverlays.
  destruct (body doc) as [[|[i|i] [|s b]]|]; try discriminate.
  destruct (documentElement doc) as [[d|d|t a p cs sh]|]; try discriminate.
  intros [= <-]. cbn [documentElement isOverlay].
  rewrite !withoutOverlays_unfold, keptChildren_appendChildAt by exact Hx.
  reflexivity.
Qed.

Lemma isOverlay_withoutOverlays n : isOverlay (withoutOverlays n) = isOverlay n.
Proof. destruct n; reflexivity. Qed.

Lemma withoutOverlays_idempotent n :
  withoutOverlays (withoutOverlays n) = withoutOverlays n.
Proof.
  induction n as [d|d|t a p cs sh IHcs _] using Node_nested_ind;
    [reflexivity|reflexivity|].
  rewrite !withoutOverlays_unfold. f_equal.
  induction cs as [|c cs IH]; [reflexivity|].
  inversion IHcs as [|c' cs' Hc Hcs]; subst.
  cbn [keptChildren]. destruct (isOverlay c) eqn:Eo.
  - apply IH. exact Hcs.
  - cbn [keptChildren]. rewrite isOverlay_withoutOverlays, Eo, Hc, (IH Hcs).
    reflexivity.
Qed.

Lemma removeOverlays_idempotent doc :
  removeOverlays (removeOverlays doc) = removeOverlays doc.
Proof.
  unfold removeOverlays. destruct (documentElement doc) as [root|] eqn:E.
  - destruct (isOverlay root) eqn:Eo; cbn [documentElement]; [reflexivity|].
    rewrite isOverlay_withoutOverlays, Eo, withoutOverlays_idempotent.
    reflexivity.
  - rewrite E. reflexivity.
Qed.

Lemma overlayNode_isOverlay label : isOverlay (overlayNode label) = true.
Proof. reflexivity. Qed.

Lemma optionBadgeNode_isOverlay label :
  isOverlay (optionBadgeNode label) = true.
Proof. reflexivity. Qed.

(** What holds of the state before a [forEach] and is kept by its body
    holds after it. *)
Lemma forEach_invariant {A S : Type} (I : S -> Prop) (f : S -> A -> option S) :
  (forall s a s', I s -> f s a = Some s' -> I s') ->
  forall l s s', I s -> forEach f l s = Some s' -> I s'.
Proof.
  intros Hf. induction l as [|a l IH]; intros s s' Hs H; cbn [forEach] in H.
  - injection H as <-. exact Hs.
  - destruct (f s a) as [s1|] eqn:E; [|discriminate].
    apply (IH s1 s' (Hf s a s1 Hs E) H).
Qed.

Section Rescan.

Variable querySelectorAll : Document -> JsString -> option (list Element).

Lemma tagElement_overlays st el st' :
  tagElement querySelectorAll st el = Some st' ->
  removeOverlays (scanDocument st') = removeOverlays (scanDocument st).
Proof.
  unfold tagElement.
  destruct (negb (isVisible (propsOf (scanDocument st) el))).
  - intros [= <-]. reflexivity.
  - destruct (appendToBody (scanDocument st)
                (overlayNode (numberToString (idCounter st)))) as [doc'|] eqn:E;
      [|discriminate].
    intros [= <-]. cbn [scanDocument].
    apply (removeOverlays_appendToBody _ _ _ (overlayNode_isOverlay _) E).
Qed.

Lemma tagOption_overlays sel sid ss st opt st' :
  tagOption sel sid ss st opt = Some st' ->
  removeOverlays (scanDocument (fst st')) = removeOverlays (scanDocument (fst st)).
Proof.
  unfold tagOption. destruct st as [scan k].
  destruct (skipsOption (scanDocument scan) opt).
  - intros [= <-]. reflexivity.
  - match goal with
    | |- match appendToBody ?d ?x with _ => _ end = _ -> _ =>
        destruct (appendToBody d x) as [doc'|] eqn:E; [|discriminate];
        intros [= <-]; cbn [fst scanDocument];
        apply (removeOverlays_appendToBody d x doc' (optionBadgeNode_isOverlay _) E)
    end.
Qed.

Lemma expandSelect_overlays st sel st' :
  expandSelect querySelectorAll st sel = Some st' ->
  removeOverlays (scanDocument st') = removeOverlays (scanDocument st).
Proof.
  unfold expandSelect.
  destruct (negb (isSelectVisible (propsOf (scanDocument st) sel)));
    [intros [= <-]; reflexivity|].
  destruct (findSelectId (elementMap st)
              (fst (getUniversalSelector querySelectorAll (scanDocument st) sel)))
    as [sid|]; [|intros [= <-]; reflexivity].
  destruct (negb (truthy sid)); [intros [= <-]; reflexivity|].
  match goal with
  | |- match forEach ?f ?l ?s0 with _ => _ end = _ -> _ =>
      destruct (forEach f l s0) as [[st1 k1]|] eqn:E; [|discriminate];
      intros [= <-];
      apply (forEach_invariant
               (fun x => removeOverlays (scanDocument (fst x))
                         = removeOverlays (scanDocument st))
               f
               (fun x a y Hx Hf =>
                  eq_trans (tagOption_overlays _ _ _ _ _ _ Hf) Hx)
               l s0 (st1, k1) eq_refl E)
  end.
Qed.

End Rescan.

(** X8. A scan leaves a document that differs from the scanned one by
    overlays only, so that scanning it again gives the same element map. *)
Theorem rescan_gives_the_same_element_map :
  forall (querySelectorAll : Document -> JsString -> option (list Element))
         (doc : Document) (st st' : Scan),
    tagElements querySelectorAll doc = Some st ->
    expandSelects querySelectorAll st = Some st' ->
    removeOverlays (scanDocument st') = removeOverlays doc
    /\ performTagging querySelectorAll (scanDocument st') = Some (elementMap st').
Proof.
  intros q doc st st' H1 H2.
  assert (removeOverlays (scanDocument st') = removeOverlays doc) as R.
  { unfold tagElements in H1. unfold expandSelects in H2.
    apply (forEach_invariant
             (fun s => removeOverlays (scanDocument s) = removeOverlays doc)
             (expandSelect q)) in H2.
    - exact H2.
    - intros s a s' Hs Hf. rewrite <- Hs. apply (expandSelect_overlays q _ _ _ Hf).
    - apply (forEach_invariant
               (fun s => removeOverlays (scanDocument s) = removeOverlays doc)
               (tagElement q)) in H1.
      + exact H1.
      + intros s a s' Hs Hf. rewrite <- Hs. apply (tagElement_overlays q _ _ _ Hf).
      + cbn [scanDocument]. apply removeOverlays_idempotent. }
  split; [exact R|].
  unfold performTagging.
  assert (tagElements q (scanDocument st') = tagElements q doc) as E
    by (unfold tagElements; rewrite R; reflexivity).
  rewrite E, H1, H2. reflexivity.
Qed.

Lemma rescan_witness :
  removeOverlays (scanDocument (ScanPages.afterStepTwo Pages.countryForm))
  = removeOverlays Pages.countryForm
  /\ performTagging MiniDom.querySelectorAll (scanDocument (ScanPages.afterStepTwo Pages.countryForm))
     = Some (elementMap (ScanPages.afterStepTwo Pages.countryForm)).
Proof.
  apply (rescan_gives_the_same_element_map MiniDom.querySelectorAll Pages.countryForm
           (Pages.afterStepOne Pages.countryForm) (ScanPages.afterStepTwo Pages.countryForm));
    vm_compute; reflexivity.
Defined.
End RescanFacts.

Module NumberingFacts.

Import Js Dom Tagger Design Notions NumberingDefs.

Lemma js_inj a b : js a = js b -> a = b.
Proof.
  unfold js. intros H.
  rewrite <- (string_of_list_ascii_of_string a), <- (string_of_list_ascii_of_string b).
  f_equal. revert H. generalize (list_ascii_of_string a) (list_ascii_of_string b).
  induction l as [|x l IH]; intros [|y l']; cbn; try discriminate; [reflexivity|].
  intros [= Hxy Hl]. f_equal; [|apply IH; exact Hl].
  rewrite <- (ascii_N_embedding x), <- (ascii_N_embedding y), Hxy. reflexivity.
Qed.

Lemma numberToString_inj a b : numberToString a = numberToString b -> a = b.
Proof.
  unfold numberToString. intros H. apply js_inj in H.
  apply DecimalN.Unsigned.to_uint_inj.
  pose proof (NilEmpty.usu (N.to_uint a)) as Ha.
  pose proof (NilEmpty.usu (N.to_uint b)) as Hb.
  rewrite H in Ha. congruence.
Qed.

Lemma idsFrom_range k n x : In x (idsFrom k n) -> (k <= x < k + N.of_nat n)%N.
Proof.
  revert k; induction n as [|n IH]; intros k; [intros []|].
  cbn [idsFrom]. intros [<-|H]; [lia|]. apply IH in H. lia.
Qed.

Lemma idsFrom_snoc k n : idsFrom k (S n) = idsFrom k n ++ [(k + N.of_nat n)%N].
Proof.
  revert k; induction n as [|n IH]; intros k.
  - cbn. rewrite N.add_0_r. reflexivity.
  - change (idsFrom k (S (S n))) with (k :: idsFrom (k + 1) (S n)).
    rewrite IH. cbn [idsFrom app]. do 3 f_equal. lia.
Qed.

Lemma objSet_fresh {V : Type} (o : JsObject V) key (v : V) :
  ~ In key (map fst o) -> objSet o key v = o ++ [(key, v)].
Proof.
  induction o as [|[k w] o IH]; intros Hn; [reflexivity|].
  cbn [objSet app]. destruct (eqb k key) eqn:E.
  - apply SynthesizerFacts.eqb_eq in E. subst k. exfalso. apply Hn. left; reflexivity.
  - f_equal. apply IH. intros H. apply Hn. right; exact H.
Qed.

Section Numbering.

Variable querySelectorAll : Document -> JsString -> option (list Element).
Variable d0 : Document.
Hypothesis Hbody : body d0 <> None.

Lemma preserved_profile_shell doc' el n :
  preserved d0 doc' -> nodeAt d0 el = Some n ->
  shellOf (extractElementProfile doc' el) = shellOf (extractElementProfile d0 el)
  /\ isVisible (propsOf doc' el) = isVisible (propsOf d0 el).
Proof.
  intros P Hn.
  destruct (DocumentFacts.preserved_shell d0 doc' P el n Hn) as (Ht & Ha & Hp & Hd).
  unfold shellOf, extractElementProfile, profileText, dataAttributeValues,
    keyAttributeValues, getAttribute.
  cbn [tag text profileAttributes]. rewrite Ht, Ha, Hp, Hd. split; reflexivity.
Qed.

Lemma tagElements_from els : forall done st,
  preserved d0 (scanDocument st) ->
  (forall el, In el els -> exists n, nodeAt d0 el = Some n) ->
  idCounter st = (1 + N.of_nat (List.length done))%N ->
  map fst (elementMap st) = logicalIds (List.length done) ->
  map (fun kv => shellOf (snd kv)) (elementMap st)
  = map (fun el => shellOf (extractElementProfile d0 el)) done ->
  exists st',
    forEach (tagElement querySelectorAll) els st = Some st'
    /\ preserved d0 (scanDocument st')
    /\ let all := done ++ filter (fun el => isVisible (propsOf d0 el)) els in
       idCounter st' = (1 + N.of_nat (List.length all))%N
       /\ map fst (elementMap st') = logicalIds (List.length all)
       /\ map (fun kv => shellOf (snd kv)) (elementMap st')
          = map (fun el => shellOf (extractElementProfile d0 el)) all.
Proof.
  induction els as [|el els IH]; intros done st P Hels Hc Hk Hs.
  - exists st. cbn [forEach filter]. rewrite app_nil_r. auto.
  - destruct (Hels el (or_introl eq_refl)) as (n & Hn).
    destruct (preserved_profile_shell (scanDocument st) el n P Hn) as (Hshell & Hvis).
    assert (forall e, In e els -> exists n, nodeAt d0 e = Some n) as Hrest
      by (intros e He; apply Hels; right; exact He).
    cbn [forEach filter]. unfold tagElement at 1. cbv zeta. rewrite Hvis.
    destruct (isVisible (propsOf d0 el)) eqn:Ev; cbn [negb].
    + destruct (DocumentFacts.appendToBody_defined (scanDocument st)
                  (overlayNode (numberToString (idCounter st))))
        as (doc1 & Happ); [rewrite (proj1 P); exact Hbody|].
      rewrite Happ.
      assert (preserved d0 doc1) as P1.
      { apply DocumentFacts.preserved_trans with (d2 := scanDocument st); [exact P|].
        apply (DocumentFacts.appendToBody_preserved (scanDocument st)
                 (overlayNode (numberToString (idCounter st))) doc1);
          [reflexivity | exact Happ]. }
      assert (~ In (numberToString (idCounter st)) (map fst (elementMap st))) as Hfresh.
      { rewrite Hk. unfold logicalIds. intros Hin. apply in_map_iff in Hin as (x & Hx & Hin).
        apply numberToString_inj in Hx. subst x. apply idsFrom_range in Hin. lia. }
      destruct (IH (done ++ [el])
                  (mkScan doc1
                     (objSet (elementMap st) (numberToString (idCounter st))
                        (withSelector (extractElementProfile (scanDocument st) el)
                           (fst (getUniversalSelector querySelectorAll
                                   (scanDocument st) el))))
                     (idCounter st + 1)))
        as (st' & Hf & P' & H').
      * exact P1.
      * exact Hrest.
      * cbn [idCounter]. rewrite length_app. cbn [List.length]. lia.
      * cbn [elementMap]. rewrite (objSet_fresh _ _ _ Hfresh), map_app, Hk.
        rewrite length_app. cbn [List.length map fst]. rewrite Nat.add_1_r.
        unfold logicalIds. rewrite idsFrom_snoc, map_app. cbn [map].
        rewrite Hc. reflexivity.
      * cbn [elementMap]. rewrite (objSet_fresh _ _ _ Hfresh), !map_app, Hs.
        cbn [map snd]. f_equal. f_equal. rewrite <- Hshell. reflexivity.
      * exists st'. split; [exact Hf|]. split; [exact P'|].
        cbv zeta in H' |- *. rewrite <- app_assoc in H'. exact H'.
    + apply IH; assumption.
Qed.

End Numbering.

Lemma tagElements_numbered
  (querySelectorAll : Document -> JsString -> option (list Element))
  (doc : Document) :
  body (removeOverlays doc) <> None ->
  exists st,
    tagElements querySelectorAll doc = Some st
    /\ preserved (removeOverlays doc) (scanDocument st)
    /\ map fst (elementMap st)
       = logicalIds (List.length (visibleSet (removeOverlays doc)))
    /\ idCounter st
       = (1 + N.of_nat (List.length (visibleSet (removeOverlays doc))))%N
    /\ map (fun kv => shellOf (snd kv)) (elementMap st)
       = map (fun el => shellOf (extractElementProfile (removeOverlays doc) el))
             (visibleSet (removeOverlays doc)).
Proof.
  intros Hb. unfold tagElements.
  destruct (tagElements_from querySelectorAll (removeOverlays doc) Hb
              (getAllElementsIncludingShadow (removeOverlays doc)) []
              (mkScan (removeOverlays doc) [] 1))
    as (st & Hf & P & Hc & Hk & Hs).
  - apply DocumentFacts.preserved_refl.
  - intros el Hin. apply CollectorFacts.collected_matches in Hin as (n & Hn & _).
    eauto.
  - reflexivity.
  - reflexivity.
  - reflexivity.
  - exists st. cbn [app] in Hc, Hk, Hs. auto 6.
Qed.

(** X9. On a document with a body, step 1 gives the visible elements
    the collector returns the LogicalIDs 1, 2, ... in order, without gaps,
    and stores under each the tag, the text and the attributes the element
    has in the scanned document. *)
Theorem step_one_numbers_the_visible_elements :
  forall (querySelectorAll : Document -> JsString -> option (list Element))
         (doc : Document),
    body (removeOverlays doc) <> None ->
    exists st,
      tagElements querySelectorAll doc = Some st
      /\ map fst (elementMap st)
         = logicalIds (List.length (visibleSet (removeOverlays doc)))
      /\ idCounter st
         = (1 + N.of_nat (List.length (visibleSet (removeOverlays doc))))%N
      /\ map (fun kv => shellOf (snd kv)) (elementMap st)
         = map (fun el => shellOf (extractElementProfile (removeOverlays doc) el))
               (visibleSet (removeOverlays doc)).
Proof.
  intros q doc Hb.
  destruct (tagElements_numbered q doc Hb) as (st & H1 & _ & H2 & H3 & H4).
  exists st. auto.
Qed.

Lemma step_one_witness :
  exists st,
    tagElements MiniDom.querySelectorAll Pages.checkout = Some st
    /\ map fst (elementMap st)
       = logicalIds (List.length (visibleSet (removeOverlays Pages.checkout)))
    /\ idCounter st
       = (1 + N.of_nat (List.length (visibleSet (removeOverlays Pages.checkout))))%N
    /\ map (fun kv => shellOf (snd kv)) (elementMap st)
       = map (fun el => shellOf (extractElementProfile
                                   (removeOverlays Pages.checkout) el))
             (visibleSet (removeOverlays Pages.checkout)).
Proof.
  apply (step_one_numbers_the_visible_elements MiniDom.querySelectorAll
           Pages.checkout).
  vm_compute. discriminate.
Defined.

End NumberingFacts.

Module CompletionFacts.

Import Js Dom Tagger Design Notions NumberingDefs CompletionDefs.

Lemma objSet_keys {V : Type} (o : JsObject V) key (v : V) :
  exists added, map fst (objSet o key v) = map fst o ++ added.
Proof.
  induction o as [|[k w] o (added & IH)]; cbn [objSet].
  - exists [key]. reflexivity.
  - destruct (eqb k key).
    + exists []. rewrite app_nil_r. reflexivity.
    + exists added. cbn [map fst app]. rewrite IH. reflexivity.
Qed.

Lemma expansion_keys doc sel sid ss kept : forall position map0,
  exists added,
    map fst (expansion doc sel sid ss position kept map0) = map fst map0 ++ added.
Proof.
  induction kept as [|o kept IH]; intros position map0; cbn [expansion].
  - exists []. rewrite app_nil_r. reflexivity.
  - destruct (IH (position + 1)%N
                (objSet map0 (optionId sid position) (optionProfile doc sel o ss)))
      as (added & E).
    destruct (objSet_keys map0 (optionId sid position)
                (optionProfile doc sel o ss)) as (added0 & E0).
    exists (added0 ++ added). rewrite E, E0, app_assoc. reflexivity.
Qed.

Lemma preserved_isElementOf d d' name el :
  preserved d d' -> isElementOf d name el = true -> isElementOf d' name el = true.
Proof.
  intros (_ & S & _). unfold isElementOf.
  destruct (nodeAt d el) as [n|] eqn:E; [|discriminate].
  destruct (S el n E) as (n' & -> & Sh).
  destruct n as [x|x|t a p cs sh], n' as [x'|x'|t' a' p' cs' sh'];
    cbn in Sh; try contradiction; try discriminate.
  destruct Sh as (-> & _). auto.
Qed.

Section Completion.

Variable querySelectorAll : Document -> JsString -> option (list Element).

Lemma expandSelect_completes d b st sel :
  body d = Some b ->
  preserved d (scanDocument st) ->
  isElementOf d (js "select") sel = true ->
  exists st', expandSelect querySelectorAll st sel = Some st' /\ extends d st st'.
Proof.
  intros Hb P Hsel.
  assert (extends d st st) as Hsame.
  { split; [exact P|]. split; [reflexivity|]. exists []. rewrite app_nil_r. reflexivity. }
  unfold expandSelect. cbv zeta.
  destruct (negb (isSelectVisible _)); [eauto|].
  destruct (findSelectId _ _) as [sid|]; [|eauto].
  destruct (negb (truthy sid)); [eauto|].
  destruct (DocumentFacts.tagOptions_expansion (scanDocument st) b sel sid
              (fst (getUniversalSelector querySelectorAll (scanDocument st) sel)))
    with (options := matching (scanDocument st) (isTagged (js "option"))
                       (descendants (scanDocument st) sel))
         (st := st) (k := 0%N)
    as (doc' & P' & E).
  - rewrite (proj1 P). exact Hb.
  - apply (preserved_isElementOf d _ _ _ P Hsel).
  - apply DocumentFacts.preserved_refl.
  - intros o Ho. apply (ExpanderFacts.matching_isElementOf _ _ _ _ Ho).
  - rewrite E. eexists. split; [reflexivity|].
    split; [|split; [reflexivity|]]; cbn [scanDocument elementMap].
    + apply (DocumentFacts.preserved_trans _ _ _ P P').
    + apply expansion_keys.
Qed.

Lemma expandSelects_complete d b sels : forall st,
  body d = Some b ->
  preserved d (scanDocument st) ->
  (forall sel, In sel sels -> isElementOf d (js "select") sel = true) ->
  exists st', forEach (expandSelect querySelectorAll) sels st = Some st'
              /\ extends d st st'.
Proof.
  induction sels as [|sel sels IH]; intros st Hb P Hs.
  - exists st. split; [reflexivity|]. split; [exact P|]. split; [reflexivity|].
    exists []. rewrite app_nil_r. reflexivity.
  - destruct (expandSelect_completes d b st sel Hb P (Hs sel (or_introl eq_refl)))
      as (st1 & E1 & P1 & C1 & added1 & K1).
    destruct (IH st1 Hb P1 (fun s H => Hs s (or_intror H)))
      as (st' & E' & P' & C' & added' & K').
    exists st'. cbn [forEach]. rewrite E1. split; [exact E'|].
    split; [exact P'|]. split; [congruence|].
    exists (added1 ++ added'). rewrite K', K1, app_assoc. reflexivity.
Qed.

End Completion.

(** X10. On a document with a body the scan does not throw, and the
    keys of the element map start with the LogicalIDs 1, 2, ... of the
    visible elements: the option pass removes no key and changes no
    LogicalID. *)
Theorem scan_of_a_document_with_body_completes :
  forall (querySelectorAll : Document -> JsString -> option (list Element))
         (doc : Document),
    body (removeOverlays doc) <> None ->
    exists elementMap optionKeys,
      performTagging querySelectorAll doc = Some elementMap
      /\ map fst elementMap
         = logicalIds (List.length (visibleSet (removeOverlays doc)))
           ++ optionKeys.
Proof.
  intros q doc Hb.
  destruct (NumberingFacts.tagElements_numbered q doc Hb)
    as (st & H1 & P & Hk & _).
  destruct (body (scanDocument st)) as [b|] eqn:Eb;
    [|rewrite (proj1 P) in Eb; congruence].
  destruct (expandSelects_complete q (scanDocument st) b
              (matching (scanDocument st) (isTagged (js "select"))
                 (documentElements (scanDocument st)))
              st Eb (DocumentFacts.preserved_refl _))
    as (st' & E & _ & _ & added & K).
  - intros sel Hs. apply (ExpanderFacts.matching_isElementOf _ _ _ _ Hs).
  - exists (Tagger.elementMap st'), added. unfold performTagging, expandSelects.
    rewrite H1, E. split; [reflexivity|]. rewrite K, Hk. reflexivity.
Qed.

Lemma scan_with_body_witness :
  exists elementMap optionKeys,
    performTagging MiniDom.querySelectorAll Pages.countryForm = Some elementMap
    /\ map fst elementMap
       = logicalIds (List.length (visibleSet (removeOverlays Pages.countryForm)))
         ++ optionKeys.
Proof.
  apply (scan_of_a_document_with_body_completes MiniDom.querySelectorAll
           Pages.countryForm).
  vm_compute. discriminate.
Defined.

End CompletionFacts.

Module BodylessFacts.

Import Js Dom Tagger Design Notions NumberingDefs RescanFacts.

Lemma appendToBody_bodyless doc x : body doc = None -> appendToBody doc x = None.
Proof. unfold appendToBody. intros ->. reflexivity. Qed.

Section Bodyless.

Variable querySelectorAll : Document -> JsString -> option (list Element).

(** Step 1 on a document without a body: the first visible element makes
    [appendChild] throw; while there is none the state stays as it is. *)
Lemma tagElements_bodyless (st : Scan) (els : list Element) :
  body (scanDocument st) = None ->
  forEach (tagElement querySelectorAll) els st
  = match filter (fun el => isVisible (propsOf (scanDocument st) el)) els with
    | [] => Some st
    | _ :: _ => None
    end.
Proof.
  intros Hb. induction els as [|el els IH]; [reflexivity|].
  cbn [forEach filter]. unfold tagElement at 1. cbv zeta.
  destruct (isVisible (propsOf (scanDocument st) el)); cbn [negb].
  - rewrite (appendToBody_bodyless _ _ Hb). reflexivity.
  - exact IH.
Qed.

(** With an empty element map no select is expanded. *)
Lemma expandSelects_empty (st : Scan) (sels : list Element) :
  elementMap st = [] -> forEach (expandSelect querySelectorAll) sels st = Some st.
Proof.
  intros Hm. induction sels as [|sel sels IH]; [reflexivity|].
  cbn [forEach]. unfold expandSelect at 1. cbv zeta.
  destruct (negb (isSelectVisible _)); [exact IH|].
  rewrite Hm. cbn [findSelectId forInKeys indexKeys otherKeys sortAscending
                   fold_right map app find]. exact IH.
Qed.

End Bodyless.

(** X11. On a document without a body the scan throws when the collector
    found an element that passes the visibility test, and gives the empty
    element map when it found none. *)
Theorem scan_of_a_document_without_body :
  forall (querySelectorAll : Document -> JsString -> option (list Element))
         (doc : Document),
    body (removeOverlays doc) = None ->
    performTagging querySelectorAll doc
    = match visibleSet (removeOverlays doc) with
      | [] => Some []
      | _ :: _ => None
      end.
Proof.
  intros q doc Hb. unfold performTagging, tagElements.
  rewrite (tagElements_bodyless q (mkScan (removeOverlays doc) [] 1) _ Hb).
  cbn [scanDocument]. unfold visibleSet.
  destruct (filter _ (getAllElementsIncludingShadow (removeOverlays doc)));
    [|reflexivity].
  unfold expandSelects. rewrite expandSelects_empty by reflexivity. reflexivity.
Qed.

Lemma scan_without_body_witness :
  performTagging MiniDom.querySelectorAll ScanPages.bodyless = None.
Proof.
  exact (scan_of_a_document_without_body MiniDom.querySelectorAll
           ScanPages.bodyless eq_refl).
Defined.

End BodylessFacts.

Module SelectorFacts.

Import Js Dom Tagger Design Notions SelectorDefs RescanFacts.

Lemma some_eq {A : Type} (x y : A) : Some x = Some y -> x = y.
Proof. intros [= ->]. reflexivity. Qed.

Lemma app_nonempty_l (a b : JsString) : a <> [] -> a ++ b <> [].
Proof. destruct a; [congruence | discriminate]. Qed.

Lemma app_nonempty_r (a b : JsString) : b <> [] -> a ++ b <> [].
Proof. destruct a; [auto | discriminate]. Qed.

Lemma join_nonempty sep p rest : p <> [] -> join sep (p :: rest) <> [].
Proof.
  intros Hp. destruct rest; cbn [join]; [exact Hp | apply app_nonempty_l; exact Hp].
Qed.

Lemma hasText_nonempty t x : hasText t x <> [].
Proof. unfold hasText. apply app_nonempty_r. discriminate. Qed.

Lemma attrSelector_nonempty prefix name v : attrSelector prefix name v <> [].
Proof. unfold attrSelector. apply app_nonempty_r. discriminate. Qed.

Section Selectors.

Variable querySelectorAll : Document -> JsString -> option (list Element).

(** The path of the position-based selector starts with a token that is
    not empty, once the loop has run a round or started from such a
    path. *)
Lemma positionPath_head doc left : forall current path,
  (match path with [] => left <> 0%nat /\ current <> None | t :: _ => t <> [] end) ->
  match positionPath querySelectorAll doc left current path with
  | [] => False
  | t :: _ => t <> []
  end.
Proof.
  induction left as [|left IH]; intros current path H.
  - cbn [positionPath]. destruct path; [destruct H; congruence | exact H].
  - cbn [positionPath]. destruct current as [cur|].
    + destruct (truthy (id doc cur) && isValidId (id doc cur)); [discriminate|].
      cbv zeta.
      match goal with
      | |- context [if ?b then _ else _] => destruct b
      end.
      * apply app_nonempty_r. discriminate.
      * apply IH. apply app_nonempty_r. discriminate.
    + destruct path; [destruct H; congruence | exact H].
Qed.

Lemma buildPositionBasedSelector_nonempty doc el :
  fst (buildPositionBasedSelector querySelectorAll doc el) <> [].
Proof.
  unfold buildPositionBasedSelector. rewrite SynthesizerFacts.fst_bind_log.
  cbn [ret fst].
  assert (5%nat <> 0%nat /\ Some el <> None) as H0 by (split; discriminate).
  pose proof (positionPath_head doc 5 (Some el) (@nil JsString) H0) as H.
  destruct (positionPath querySelectorAll doc 5 (Some el) []) as [|t rest].
  - exfalso. exact H.
  - apply join_nonempty. exact H.
Qed.

Lemma contextualScan_nonempty doc t e x left : forall parent r,
  contextualScan doc t e x left parent = Some r -> fst r <> [].
Proof.
  induction left as [|left IH]; intros parent r; cbn [contextualScan];
    [discriminate|].
  destruct parent as [p|]; [|discriminate]. cbv zeta.
  destruct (truthy _ && _ && _).
  - intros [= <-]. unfold bind, consoleLog, ret. cbn [fst].
    apply app_nonempty_l, hasText_nonempty.
  - destruct (truthy (id doc p)); [|apply IH].
    intros [= <-]. unfold bind, consoleLog, ret. cbn [fst].
    discriminate.
Qed.

Lemma buildContextualSelector_nonempty doc el x :
  fst (buildContextualSelector querySelectorAll doc el x) <> [].
Proof.
  unfold buildContextualSelector. cbv zeta.
  destruct (contextualScan doc _ _ x 5 (parentElement el)) as [r|] eqn:E.
  - apply (contextualScan_nonempty _ _ _ _ _ _ _ E).
  - apply buildPositionBasedSelector_nonempty.
Qed.

Lemma returning_nonempty line sel r :
  returning line sel = Some r -> sel <> [] -> fst r <> [].
Proof. intros H Hs. apply SynthesizerFacts.returning_result in H. subst r. exact Hs. Qed.

Lemma getUniversalSelector_nonempty doc el :
  fst (getUniversalSelector querySelectorAll doc el) <> [].
Proof.
  unfold getUniversalSelector.
  destruct (idStrategy querySelectorAll doc el) as [r|] eqn:E1; cbn [orNext].
  { unfold idStrategy in E1. destruct (truthy _ && _); [|discriminate].
    cbv zeta in E1. destruct (isUnique _ _ _); [|discriminate].
    apply (returning_nonempty _ _ _ E1). discriminate. }
  destruct (nameStrategy querySelectorAll doc el) as [r|] eqn:E2; cbn [orNext].
  { unfold nameStrategy in E2. destruct (truthy _); [|discriminate].
    cbv zeta in E2. destruct (isUnique _ _ _); [|discriminate].
    apply (returning_nonempty _ _ _ E2), attrSelector_nonempty. }
  destruct (dataStrategy querySelectorAll doc (attributes doc el)) as [r|] eqn:E3;
    cbn [orNext].
  { revert E3. generalize (attributes doc el). intros attrs.
    induction attrs as [|[name v] rest IH]; cbn [dataStrategy]; [discriminate|].
    destruct (startsWith (js "data-") name && truthy v); [|exact IH].
    cbv zeta. destruct (isUnique _ _ _); [|exact IH].
    intros E3. apply (returning_nonempty _ _ _ E3), attrSelector_nonempty. }
  destruct (textStrategy querySelectorAll doc el) as [r|] eqn:E4; cbn [orNext].
  { unfold textStrategy in E4. cbv zeta in E4.
    destruct (truthy _ && _ && _); [|discriminate].
    destruct (eqb _ _ || eqb _ _); [|discriminate].
    destruct (isUnique _ _ _).
    - apply (returning_nonempty _ _ _ E4), hasText_nonempty.
    - apply some_eq in E4. subst r. rewrite SynthesizerFacts.fst_bind_log.
      apply buildContextualSelector_nonempty. }
  destruct (typeStrategy querySelectorAll doc el) as [r|] eqn:E5; cbn [orNext].
  { unfold typeStrategy in E5. cbv zeta in E5.
    destruct (truthy _ && _); [|discriminate].
    destruct (isUnique _ _ _); [|discriminate].
    apply (returning_nonempty _ _ _ E5), attrSelector_nonempty. }
  assert (forall attr line r,
             ariaStrategy querySelectorAll doc el attr line = Some r ->
             fst r <> []) as Haria.
  { intros attr line r E. unfold ariaStrategy in E. cbv zeta in E.
    destruct (truthyAttr _); [|discriminate].
    destruct (isUnique _ _ _); [|discriminate].
    apply (returning_nonempty _ _ _ E), attrSelector_nonempty. }
  destruct (ariaStrategy querySelectorAll doc el (js "aria-label") _) as [r|] eqn:E6;
    cbn [orNext]; [apply (Haria _ _ _ E6)|].
  destruct (ariaStrategy querySelectorAll doc el (js "aria-labelledby") _)
    as [r|] eqn:E7; cbn [orNext]; [apply (Haria _ _ _ E7)|].
  unfold fallbackStrategy. rewrite SynthesizerFacts.fst_bind_log.
  apply buildPositionBasedSelector_nonempty.
Qed.

Lemma objSet_Forall {V : Type} (Q : V -> Prop) (o : JsObject V) key v :
  Forall (fun kv => Q (snd kv)) o -> Q v ->
  Forall (fun kv => Q (snd kv)) (objSet o key v).
Proof.
  intros Ho Hv. induction o as [|[k w] o IH]; cbn [objSet].
  - constructor; [exact Hv | constructor].
  - inversion Ho as [|x l Hx Hl]; subst. destruct (eqb k key).
    + constructor; [exact Hv | exact Hl].
    + constructor; [exact Hx | apply IH; exact Hl].
Qed.

Lemma tagElement_selected st el st' :
  allSelected st -> tagElement querySelectorAll st el = Some st' -> allSelected st'.
Proof.
  unfold tagElement, allSelected. cbv zeta.
  destruct (negb (isVisible _)); [intros H [= <-]; exact H|].
  destruct (appendToBody _ _) as [doc'|]; [|discriminate].
  intros H [= <-]. cbn [elementMap]. apply objSet_Forall; [exact H|].
  eexists. split; [reflexivity|]. apply getUniversalSelector_nonempty.
Qed.

Lemma tagOption_selected sel sid ss st opt st' :
  allSelected (fst st) -> tagOption sel sid ss st opt = Some st' ->
  allSelected (fst st').
Proof.
  unfold tagOption, allSelected. destruct st as [scan k]. cbv zeta. cbn [fst].
  destruct (skipsOption _ _); [intros H [= <-]; exact H|].
  destruct (appendToBody _ _) as [doc'|]; [|discriminate].
  intros H [= <-]. cbn [elementMap fst]. apply objSet_Forall; [exact H|].
  eexists. split; [reflexivity|]. apply app_nonempty_r. discriminate.
Qed.

Lemma expandSelect_selected st sel st' :
  allSelected st -> expandSelect querySelectorAll st sel = Some st' ->
  allSelected st'.
Proof.
  intros H. unfold expandSelect. cbv zeta.
  destruct (negb (isSelectVisible _)); [intros [= <-]; exact H|].
  destruct (findSelectId _ _) as [sid|]; [|intros [= <-]; exact H].
  destruct (negb (truthy sid)); [intros [= <-]; exact H|].
  match goal with
  | |- match forEach ?f ?l ?s0 with _ => _ end = _ -> _ =>
      destruct (forEach f l s0) as [[st1 k1]|] eqn:E; [|discriminate];
      intros [= <-];
      apply (forEach_invariant (fun x => allSelected (fst x)) f
               (fun x a y Hx Hf => tagOption_selected _ _ _ _ _ _ Hx Hf)
               l s0 (st1, k1) H E)
  end.
Qed.

End Selectors.

(** X12. Every profile of the element map a scan returns has a selector,
    and the selector is not the empty string. *)
Theorem every_profile_has_a_selector :
  forall (querySelectorAll : Document -> JsString -> option (list Element))
         (doc : Document) (map : ElementMap),
    performTagging querySelectorAll doc = Some map ->
    Forall (fun kv => hasSelector (snd kv)) map.
Proof.
  intros q doc m H. unfold performTagging in H.
  destruct (tagElements q doc) as [st|] eqn:E1; [|discriminate].
  destruct (expandSelects q st) as [st'|] eqn:E2; [|discriminate].
  apply some_eq in H. subst m.
  assert (allSelected st) as H1.
  { unfold tagElements in E1.
    apply (forEach_invariant allSelected (tagElement q)
             (tagElement_selected q) _ (mkScan (removeOverlays doc) [] 1) st
             (Forall_nil _) E1). }
  unfold expandSelects in E2.
  apply (forEach_invariant allSelected (expandSelect q)
           (expandSelect_selected q) _ _ _ H1 E2).
Qed.

Lemma every_profile_witness :
  Forall (fun kv => hasSelector (snd kv))
         (elementMap (ScanPages.afterStepTwo Pages.countryForm)).
Proof.
  apply (every_profile_has_a_selector MiniDom.querySelectorAll Pages.countryForm).
  vm_compute. reflexivity.
Defined.

End SelectorFacts.

Module TextFacts.
Import Js Dom Tagger TextDefs.

Lemma trimStart_startsClean s : startsClean (trimStart s) = true.
Proof.
  induction s as [|c r IH]; [reflexivity|].
  cbn [trimStart]. destruct (isWhiteSpace c) eqn:E; [exact IH|].
  cbn [startsClean]. rewrite E. reflexivity.
Qed.

Lemma trimStart_clean s : startsClean s = true -> trimStart s = s.
Proof.
  destruct s as [|c r]; [reflexivity|]. cbn [startsClean trimStart].
  destruct (isWhiteSpace c); [discriminate|reflexivity].
Qed.

(** [trimStart] drops a prefix. *)
Lemma trimStart_suffix s : exists w, s = w ++ trimStart s.
Proof.
  induction s as [|c r [w IH]]; [exists []; reflexivity|].
  cbn [trimStart]. destruct (isWhiteSpace c).
  - exists (c :: w). cbn. f_equal. exact IH.
  - exists []. reflexivity.
Qed.

Lemma endsClean_snoc s c : endsClean (s ++ [c]) = negb (isWhiteSpace c).
Proof.
  induction s as [|d r IH]; [reflexivity|].
  cbn [app endsClean]. destruct (r ++ [c]) eqn:E; [destruct r; discriminate|].
  exact IH.
Qed.

Lemma endsClean_rev s : endsClean (rev s) = startsClean s.
Proof.
  destruct s as [|c r]; [reflexivity|]. cbn [rev startsClean].
  apply endsClean_snoc.
Qed.

Lemma startsClean_rev s : startsClean (rev s) = endsClean s.
Proof. rewrite <- (rev_involutive s) at 2. rewrite endsClean_rev. reflexivity. Qed.

Lemma startsClean_prefix a b :
  startsClean (a ++ b) = true -> a <> [] -> startsClean a = true.
Proof. destruct a; [congruence|auto]. Qed.

Lemma trim_startsClean s : startsClean (trim s) = true.
Proof.
  unfold trim.
  destruct (trimStart_suffix (rev (trimStart s))) as [w Hw].
  remember (trimStart (rev (trimStart s))) as y eqn:Ey.
  destruct (rev y) as [|c r] eqn:Er; [reflexivity|].
  apply (f_equal (@rev N)) in Hw. rewrite rev_involutive, rev_app_distr in Hw.
  pose proof (trimStart_startsClean s) as H. rewrite Hw, Er in H.
  exact H.
Qed.

Lemma trim_endsClean s : endsClean (trim s) = true.
Proof. unfold trim. rewrite endsClean_rev. apply trimStart_startsClean. Qed.

Lemma trim_clean s :
  startsClean s = true -> endsClean s = true -> trim s = s.
Proof.
  intros H1 H2. unfold trim. rewrite (trimStart_clean s H1).
  rewrite trimStart_clean by (rewrite startsClean_rev; exact H2).
  apply rev_involutive.
Qed.

Lemma collapseFrom_startsClean b s :
  startsClean s = true -> startsClean (collapseFrom b s) = true.
Proof.
  destruct s as [|c r]; [reflexivity|]. cbn [startsClean collapseFrom].
  destruct (isWhiteSpace c) eqn:E; [discriminate|].
  intros _. cbn [startsClean]. rewrite E. reflexivity.
Qed.

Lemma collapseFrom_nil b s : collapseFrom b s = [] -> forallb isWhiteSpace s = true.
Proof.
  revert b; induction s as [|c r IH]; intros b; [reflexivity|].
  cbn [collapseFrom forallb]. destruct (isWhiteSpace c); [|discriminate].
  destruct b; [apply IH | discriminate].
Qed.

Lemma endsClean_allWhite s :
  forallb isWhiteSpace s = true -> endsClean s = true -> s = [].
Proof.
  induction s as [|c r IH]; [reflexivity|].
  cbn [forallb endsClean]. intros H. apply andb_true_iff in H as [Hc Hr].
  destruct r as [|d r']; [rewrite Hc; discriminate|].
  intros He. specialize (IH Hr He). discriminate.
Qed.

Lemma collapseFrom_cons b c r :
  collapseFrom b (c :: r)
  = if isWhiteSpace c
    then (if b then collapseFrom true r else 32%N :: collapseFrom true r)
    else c :: collapseFrom false r.
Proof. reflexivity. Qed.

Lemma endsClean_cons c s : s <> [] -> endsClean (c :: s) = endsClean s.
Proof. destruct s; [congruence|reflexivity]. Qed.

Lemma collapseFrom_endsClean b s :
  endsClean s = true -> endsClean (collapseFrom b s) = true.
Proof.
  revert b; induction s as [|c r IH]; intros b He; [reflexivity|].
  destruct r as [|d r'].
  - cbn [endsClean] in He. cbn [collapseFrom].
    destruct (isWhiteSpace c) eqn:E; [discriminate|].
    cbn [endsClean]. rewrite E. reflexivity.
  - assert (endsClean (d :: r') = true) as He' by exact He.
    assert (forall b', collapseFrom b' (d :: r') <> []) as Hne.
    { intros b' Ec. apply collapseFrom_nil in Ec.
      pose proof (endsClean_allWhite _ Ec He'). discriminate. }
    rewrite collapseFrom_cons. destruct (isWhiteSpace c).
    + destruct b; [apply IH; exact He'|].
      rewrite endsClean_cons by apply Hne. apply IH. exact He'.
    + rewrite endsClean_cons by apply Hne. apply IH. exact He'.
Qed.

Lemma collapseFrom_singleSpaced b s : singleSpaced b (collapseFrom b s) = true.
Proof.
  revert b; induction s as [|c r IH]; intros b; [reflexivity|].
  cbn [collapseFrom]. destruct (isWhiteSpace c) eqn:E.
  - destruct b; [apply IH|].
    cbn [singleSpaced]. change (isWhiteSpace 32) with true. cbn. apply IH.
  - cbn [singleSpaced]. rewrite E. apply IH.
Qed.

(** A single-spaced text is left as it is. *)
Lemma collapseFrom_fixed b s :
  singleSpaced b s = true -> collapseFrom b s = s.
Proof.
  revert b; induction s as [|c r IH]; intros b; [reflexivity|].
  cbn [singleSpaced collapseFrom]. destruct (isWhiteSpace c).
  - intros H. apply andb_true_iff in H as [H Hr].
    apply andb_true_iff in H as [Hc Hb]. apply N.eqb_eq in Hc. subst c.
    destruct b; [discriminate|]. rewrite (IH true Hr). reflexivity.
  - intros H. rewrite (IH false H). reflexivity.
Qed.

Lemma normalise_normalised s : normalised (collapseWhitespace (trim s)) = true.
Proof.
  unfold normalised, collapseWhitespace.
  rewrite collapseFrom_startsClean by apply trim_startsClean.
  rewrite collapseFrom_endsClean by apply trim_endsClean.
  rewrite collapseFrom_singleSpaced. reflexivity.
Qed.

Lemma normalised_fixed s :
  normalised s = true -> collapseWhitespace (trim s) = s.
Proof.
  unfold normalised. intros H. apply andb_true_iff in H as [H H3].
  apply andb_true_iff in H as [H1 H2].
  rewrite (trim_clean s H1 H2). apply collapseFrom_fixed. exact H3.
Qed.

(** X13. The direct text of an element, the text of an option profile
    and, in version 3.0, the text of every profile are normalised, and
    normalising them again changes nothing. *)
Theorem stored_texts_are_normalised :
  forall (doc : Document) (el : option Element) (sel opt e : Element)
         (selectSelector : JsString),
    let direct := getDirectText doc el in
    let optionText := text (optionProfile doc sel opt selectSelector) in
    let textV3 := TaggerV3.text (TaggerV3.extractElementProfile doc e) in
    (normalised direct = true /\ collapseWhitespace (trim direct) = direct)
    /\ (normalised optionText = true
        /\ collapseWhitespace (trim optionText) = optionText)
    /\ (normalised textV3 = true /\ collapseWhitespace (trim textV3) = textV3).
Proof.
  intros doc el sel opt e ss direct optionText textV3.
  assert (normalised direct = true) as Hd.
  { unfold direct, getDirectText. destruct el; [apply normalise_normalised|reflexivity]. }
  assert (normalised optionText = true) as Ho
    by (unfold optionText, optionProfile; cbn [text]; apply normalise_normalised).
  assert (normalised textV3 = true) as Hv
    by (unfold textV3, TaggerV3.extractElementProfile; cbn [TaggerV3.text];
        apply normalise_normalised).
  auto 7 using normalised_fixed.
Qed.

End TextFacts.

Module AttributeFacts.

Import Js Dom Tagger Design Notions AttributeDefs.

Lemma eqb_refl a : eqb a a = true.
Proof. apply SynthesizerFacts.eqb_eq. reflexivity. Qed.

Lemma eqb_false_iff a b : eqb a b = false <-> a <> b.
Proof.
  destruct (eqb a b) eqn:E.
  - apply SynthesizerFacts.eqb_eq in E. split; [discriminate | congruence].
  - split; [|reflexivity]. intros _ H. apply SynthesizerFacts.eqb_eq in H. congruence.
Qed.

Lemma eqb_sym a b : eqb a b = eqb b a.
Proof.
  destruct (eqb b a) eqn:E.
  - apply SynthesizerFacts.eqb_eq in E. subst. apply SynthesizerFacts.eqb_eq. reflexivity.
  - apply eqb_false_iff in E. apply eqb_false_iff. congruence.
Qed.

Lemma objGet_objSet {V : Type} (o : JsObject V) key (v : V) key' :
  objGet (objSet o key v) key' = if eqb key key' then Some v else objGet o key'.
Proof.
  induction o as [|[k w] o IH]; cbn [objSet objGet].
  - destruct (eqb key key'); reflexivity.
  - destruct (eqb k key) eqn:E; cbn [objGet].
    + apply SynthesizerFacts.eqb_eq in E. subst k.
      destruct (eqb key key'); reflexivity.
    + destruct (eqb k key') eqn:E'; [|exact IH].
      apply SynthesizerFacts.eqb_eq in E'. subst k. rewrite eqb_sym, E. reflexivity.
Qed.

Lemma lookupAttr_In attrs name v :
  lookupAttr attrs name = Some v -> In name (map fst attrs).
Proof.
  induction attrs as [|[k w] rest IH]; cbn [lookupAttr map fst]; [discriminate|].
  destruct (eqb k name) eqn:E.
  - apply SynthesizerFacts.eqb_eq in E. intros _. left. exact E.
  - intros H. right. apply IH. exact H.
Qed.

(** The loop over the twelve names, from any object and over any list of
    names. *)
Lemma keyLoop_get (attrs : list (JsString * JsString)) names : forall o name,
  objGet (fold_left (fun o attr =>
                       match lookupAttr attrs attr with
                       | Some v => if truthy v then objSet o attr v else o
                       | None => o
                       end) names o) name
  = if existsb (eqb name) names
    then match nonEmptyValue (lookupAttr attrs name) with
         | Some v => Some v
         | None => objGet o name
         end
    else objGet o name.
Proof.
  induction names as [|a names IH]; intros o name; [reflexivity|].
  cbn [fold_left existsb]. rewrite IH.
  destruct (eqb name a) eqn:E.
  - apply SynthesizerFacts.eqb_eq in E. subst a. cbn [orb].
    unfold nonEmptyValue.
    destruct (lookupAttr attrs name) as [v|];
      [|destruct (existsb (eqb name) names); reflexivity].
    destruct (truthy v); [|destruct (existsb (eqb name) names); reflexivity].
    rewrite objGet_objSet, eqb_refl.
    destruct (existsb (eqb name) names); reflexivity.
  - cbn [orb].
    assert (objGet (match lookupAttr attrs a with
                    | Some v => if truthy v then objSet o a v else o
                    | None => o
                    end) name = objGet o name) as ->; [|reflexivity].
    destruct (lookupAttr attrs a) as [v|]; [|reflexivity].
    destruct (truthy v); [|reflexivity].
    rewrite objGet_objSet, eqb_sym, E. reflexivity.
Qed.

(** The loop over the attributes of the element. *)
Lemma dataLoop_get attrs : forall o name,
  NoDup (map fst attrs) ->
  objGet (fold_left (fun o attr =>
                       if startsWith (js "data-") (fst attr)
                       then objSet o (fst attr) (snd attr) else o) attrs o) name
  = if startsWith (js "data-") name
    then match lookupAttr attrs name with
         | Some v => Some v
         | None => objGet o name
         end
    else objGet o name.
Proof.
  induction attrs as [|[k v] rest IH]; intros o name Hnd.
  - cbn [fold_left lookupAttr]. destruct (startsWith (js "data-") name); reflexivity.
  - cbn [map fst] in Hnd. inversion Hnd as [|x l Hnot Hrest]; subst.
    cbn [fold_left fst snd lookupAttr]. rewrite (IH _ _ Hrest).
    destruct (eqb k name) eqn:E.
    + apply SynthesizerFacts.eqb_eq in E. subst k.
      destruct (lookupAttr rest name) as [w|] eqn:El;
        [exfalso; apply Hnot; apply (lookupAttr_In _ _ _ El)|].
      destruct (startsWith (js "data-") name); [|reflexivity].
      rewrite objGet_objSet, eqb_refl. reflexivity.
    + assert (objGet (if startsWith (js "data-") k then objSet o k v else o) name
              = objGet o name) as ->; [|reflexivity].
      destruct (startsWith (js "data-") k); [|reflexivity].
      rewrite objGet_objSet, E. reflexivity.
Qed.

Lemma keyAttribute_not_data name :
  isKeyAttribute name = true -> startsWith (js "data-") name = false.
Proof.
  unfold isKeyAttribute, keyAttributes. cbn [existsb]. intros H.
  repeat (apply orb_true_iff in H as [H|H];
          [apply SynthesizerFacts.eqb_eq in H; subst name; reflexivity|]).
  discriminate.
Qed.

(** X14. The attributes of a profile, in either version, are the
    attributes of the element whose name starts with data-, with whatever
    value, and of the twelve named ones those with a value that is not
    empty. *)
Theorem profile_attributes_are_data_and_nonempty_key_attributes :
  forall (doc : Document) (el : Element) (name : JsString),
    NoDup (map fst (attributes doc el)) ->
    let kept :=
      if startsWith (js "data-") name then getAttribute doc el name
      else if isKeyAttribute name
           then nonEmptyValue (getAttribute doc el name)
           else None in
    objGet (profileAttributes (extractElementProfile doc el)) name = kept
    /\ objGet (TaggerV3.profileAttributes (TaggerV3.extractElementProfile doc el))
              name = kept.
Proof.
  intros doc el name Hnd kept.
  assert (objGet (dataAttributeValues doc el (keyAttributeValues doc el)) name
          = kept) as H; [|split; exact H].
  unfold kept, dataAttributeValues, keyAttributeValues, getAttribute.
  rewrite (dataLoop_get _ _ _ Hnd), keyLoop_get. fold (isKeyAttribute name).
  destruct (startsWith (js "data-") name) eqn:Es.
  - destruct (lookupAttr (attributes doc el) name) as [v|]; [reflexivity|].
    destruct (isKeyAttribute name) eqn:Ek; [|reflexivity].
    apply keyAttribute_not_data in Ek. congruence.
  - destruct (isKeyAttribute name); [|reflexivity].
    destruct (nonEmptyValue (lookupAttr (attributes doc el) name)); reflexivity.
Qed.

Lemma profile_attributes_witness :
  objGet (profileAttributes
            (extractElementProfile ScanPages.emptyValues [Child 0; Child 1]))
         (js "data-state")
  = Some [].
Proof.
  refine (proj1 (profile_attributes_are_data_and_nonempty_key_attributes
                   ScanPages.emptyValues [Child 0; Child 1] (js "data-state") _)).
  vm_compute.
  repeat constructor; intros H;
    repeat (destruct H as [H|H]; try discriminate H); exact H.
Defined.

End AttributeFacts.

Module SiblingFacts.

Import Js Dom Tagger Design Notions SiblingDefs.

Lemma elementPlacesBefore_last ns i :
  elementPlacesBefore ns i
  = match lastElementBefore ns i with
    | Some j => j :: elementPlacesBefore ns j
    | None => []
    end.
Proof.
  unfold elementPlacesBefore. induction i as [|i IH]; [reflexivity|].
  rewrite seq_S, rev_app_distr. cbn [rev app filter plus lastElementBefore].
  unfold isElementAt at 1.
  destruct (nth_error ns i) as [[d|d|t a p c s]|]; cbn [isElementNode];
    try exact IH.
  reflexivity.
Qed.

Lemma previousElementSibling_atPlace doc el j :
  el <> [] ->
  previousElementSibling doc (atPlace el j)
  = match lastElementBefore (siblingNodes doc el) j with
    | Some k => Some (atPlace el k)
    | None => None
    end.
Proof.
  intros Hel. unfold previousElementSibling.
  rewrite ModelFacts.siblingNodes_atPlace, (ModelFacts.place_atPlace el j Hel).
  destruct (lastElementBefore (siblingNodes doc el) j); [|reflexivity].
  rewrite ModelFacts.atPlace_atPlace. reflexivity.
Qed.

Lemma truthy_and_length (s : JsString) :
  truthy s && (0 <? List.length s)%nat = truthy s.
Proof. destruct s; reflexivity. Qed.

Lemma siblingScan_find doc el :
  el <> [] ->
  forall left i c,
    siblingScan doc left
      (match lastElementBefore (siblingNodes doc el) i with
       | Some j => Some (atPlace el j)
       | None => None
       end) c
    = match find (hasDirectText doc)
              (firstn left (map (atPlace el)
                              (elementPlacesBefore (siblingNodes doc el) i))) with
      | Some s => setSiblingText c (getDirectText doc (Some s))
      | None => c
      end.
Proof.
  intros Hel. induction left as [|left IH]; intros i c.
  - cbn [firstn find]. destruct (lastElementBefore _ i); reflexivity.
  - rewrite elementPlacesBefore_last.
    destruct (lastElementBefore (siblingNodes doc el) i) as [j|]; [|reflexivity].
    cbn [siblingScan map firstn find]. cbv zeta. rewrite truthy_and_length.
    unfold hasDirectText at 1.
    destruct (truthy (getDirectText doc (Some (atPlace el j)))); [reflexivity|].
    rewrite (previousElementSibling_atPlace doc el j Hel). apply IH.
Qed.

(** X15. The sibling text of the context is the direct text of the
    nearest of the three element siblings before the element that has
    one, and empty when none of the three has. *)
Theorem sibling_text_is_from_nearest_of_three_preceding_elements :
  forall (doc : Document) (el : Element),
    sibling_text (extractContext doc el)
    = match find (hasDirectText doc)
              (firstn 3 (precedingElementSiblings doc el)) with
      | Some s => getDirectText doc (Some s)
      | None => []
      end.
Proof.
  intros doc el. unfold extractContext. cbv zeta.
  assert (forall c, sibling_text (ariaScan doc el c) = sibling_text c) as Ha.
  { intros c. unfold ariaScan. cbv zeta.
    destruct (truthyAttr _); [reflexivity|].
    destruct (truthyAttr _); [|reflexivity].
    destruct (getElementById _ _); reflexivity. }
  rewrite Ha.
  pose proof (SynthesizerFacts.ancestorScan_spec doc el 5 (parentElement el)
                emptyContext) as (Hs & _).
  destruct el as [|s p] eqn:E; [exact Hs|]. rewrite <- E in *.
  assert (el <> []) as Hel by (subst el; discriminate).
  unfold previousElementSibling, precedingElementSiblings.
  rewrite (siblingScan_find doc el Hel 3 (place el)).
  destruct (find _ _); [reflexivity | exact Hs].
Qed.

End SiblingFacts.

Module PathFacts.

Import Js Dom Tagger PathDefs.

Lemma upward_succ s p m :
  upward (s :: p) (S m) = (s :: p) :: upward p m.
Proof.
  unfold upward. cbn [seq map skipn]. f_equal.
  rewrite <- seq_shift, map_map. reflexivity.
Qed.

Section Paths.

Variable querySelectorAll : Document -> JsString -> option (list Element).

Lemma positionPath_segments doc left : forall cur path,
  exists m,
    (m <= left)%nat
    /\ (left <> 0%nat -> m <> 0%nat)
    /\ positionPath querySelectorAll doc left (Some cur) path
       = map (segment doc) (rev (upward cur m)) ++ path
    /\ (forall k, (S k < m)%nat -> hasValidId doc (skipn k cur) = false)
    /\ (forall k, (S k < m)%nat ->
                  exists i, skipn k cur = Child i :: skipn (S k) cur).
Proof.
  induction left as [|left IH]; intros cur path.
  - exists 0%nat. split; [lia|]. split; [congruence|]. split; [reflexivity|].
    split; intros; lia.
  - cbn [positionPath]. fold (hasValidId doc cur).
    assert (exists m, (m <= S left)%nat /\ (S left <> 0%nat -> m <> 0%nat)
              /\ segment doc cur :: path
                 = map (segment doc) (rev (upward cur m)) ++ path
              /\ (forall k, (S k < m)%nat -> hasValidId doc (skipn k cur) = false)
              /\ (forall k, (S k < m)%nat ->
                            exists i, skipn k cur = Child i :: skipn (S k) cur))
      as Hone.
    { exists 1%nat.
      split; [lia|]. split; [lia|]. split; [reflexivity|]. split; intros; lia. }
    destruct (hasValidId doc cur) eqn:Ev.
    + assert (js "#" ++ id doc cur = segment doc cur) as ->
        by (unfold segment; rewrite Ev; reflexivity).
      exact Hone.
    + cbv zeta.
      assert (toLowerCase (tagName doc cur) ++ js ":nth-child("
              ++ numberToString (getNthChildIndex doc cur) ++ js ")"
              = segment doc cur) as ->
        by (unfold segment; rewrite Ev; reflexivity).
      match goal with
      | |- exists m, _ /\ _ /\ (if ?b then _ else _) = _ /\ _ =>
          destruct b; [exact Hone|]
      end.
      destruct cur as [|[i|i] p]; cbn [parentElement].
      * destruct left; exact Hone.
      * destruct (IH p (segment doc (Child i :: p) :: path))
          as (m & Hle & Hne & Hp & Hv & Hc).
        exists (S m). split; [lia|]. split; [lia|]. split; [|split].
        -- etransitivity; [exact Hp|].
           rewrite upward_succ. cbn [rev]. rewrite map_app, <- app_assoc.
           reflexivity.
        -- intros k Hk. destruct k as [|k]; [exact Ev|]. cbn [skipn].
           apply Hv. lia.
        -- intros k Hk. destruct k as [|k]; [exists i; reflexivity|].
           cbn [skipn]. apply Hc. lia.
      * destruct left; exact Hone.
Qed.

End Paths.

(** X16. The position-based selector joins, from the top down, the
    segments of the element and of the elements above it, at least one and
    at most five of them, each the parent of the next; only the topmost
    can have a valid id, and then its segment is the id. *)
Theorem position_selector_walks_up_to_five_elements :
  forall (querySelectorAll : Document -> JsString -> option (list Element))
         (doc : Document) (el : Element),
    exists m,
      (1 <= m <= 5)%nat
      /\ fst (buildPositionBasedSelector querySelectorAll doc el)
         = join (js " > ") (map (segment doc) (rev (upward el m)))
      /\ (forall k, (S k < m)%nat -> hasValidId doc (skipn k el) = false)
      /\ (forall k, (S k < m)%nat ->
                    parentElement (skipn k el) = Some (skipn (S k) el)).
Proof.
  intros q doc el.
  destruct (positionPath_segments q doc 5 el []) as (m & Hle & Hne & Hp & Hv & Hc).
  exists m. split; [lia|]. split; [|split].
  - unfold buildPositionBasedSelector. rewrite SynthesizerFacts.fst_bind_log.
    cbn [ret fst]. rewrite Hp, app_nil_r. reflexivity.
  - exact Hv.
  - intros k Hk. destruct (Hc k Hk) as (i & Hi). rewrite Hi. reflexivity.
Qed.

End PathFacts.

Module QuotingFacts.

Import Js Dom Tagger QuotingDefs Unused.

Lemma readQuoted_escapeQuotes s : forall rest,
  hasNoBackslash s = true ->
  readQuoted (escapeQuotes s ++ dquote ++ rest) = Some (s, rest).
Proof.
  induction s as [|c r IH]; intros rest H; [reflexivity|].
  cbn [hasNoBackslash forallb] in H. apply andb_true_iff in H as [Hc Hr].
  apply negb_true_iff in Hc. cbn [escapeQuotes].
  destruct (c =? 34)%N eqn:Eq.
  - apply N.eqb_eq in Eq. subst c.
    change (readQuoted ((92 :: 34 :: escapeQuotes r) ++ dquote ++ rest)%N)
      with (match readQuoted (escapeQuotes r ++ dquote ++ rest) with
            | Some (v, rest') => Some (34%N :: v, rest')
            | None => None
            end).
    rewrite (IH rest Hr). reflexivity.
  - cbn [app readQuoted]. rewrite Eq, Hc, (IH rest Hr). reflexivity.
Qed.

(** X17. The text a selector carries reads back as the text it was made
    from, when that text has no backslash: every double quote is escaped,
    and nothing else is. *)
Theorem escaped_text_reads_back :
  forall (tagName text : JsString),
    hasNoBackslash text = true ->
    exists literal,
      hasText tagName (escapeQuotes text)
      = tagName ++ js ":has-text(" ++ dquote ++ literal
      /\ readQuoted literal = Some (text, js ")").
Proof.
  intros t x H. exists (escapeQuotes x ++ dquote ++ js ")"). split.
  - unfold hasText. reflexivity.
  - apply readQuoted_escapeQuotes. exact H.
Qed.

Lemma escaped_text_witness :
  exists literal,
    hasText (js "button") (escapeQuotes (js "Say " ++ dquote ++ js "hi" ++ dquote))
    = js "button" ++ js ":has-text(" ++ dquote ++ literal
    /\ readQuoted literal = Some (js "Say " ++ dquote ++ js "hi" ++ dquote, js ")").
Proof.
  apply (escaped_text_reads_back (js "button")
           (js "Say " ++ dquote ++ js "hi" ++ dquote)).
  vm_compute. reflexivity.
Defined.

Lemma includes_app_r part a b : includes part b = true -> includes part (a ++ b) = true.
Proof.
  intros H. induction a as [|c a IH]; [exact H|].
  cbn [app]. destruct (c :: a ++ b) eqn:E; [discriminate|]. rewrite <- E.
  change (includes part (c :: a ++ b))
    with (startsWith part (c :: a ++ b) || includes part (a ++ b)).
  rewrite IH. apply orb_true_r.
Qed.

Lemma includes_here part b : startsWith part b = true -> includes part b = true.
Proof. intros H. destruct b; cbn [includes]; rewrite H; reflexivity. Qed.

(** X18. [isPlaywrightSelectorUnique] takes every selector the
    contextual loop returns for unique, whatever the document and without
    asking the query engine. *)
Theorem contextual_selectors_are_taken_for_unique :
  forall (querySelectorAll : Document -> JsString -> option (list Element))
         (doc doc' : Document) (tagName escapedText elementText : JsString)
         (levels : nat) (parent : option Element) (result : Logged JsString),
    contextualScan doc tagName escapedText elementText levels parent
    = Some result ->
    isPlaywrightSelectorUnique querySelectorAll doc' (fst result) = true.
Proof.
  intros q doc doc' t e x levels.
  induction levels as [|levels IH]; intros parent r; cbn [contextualScan];
    [discriminate|].
  destruct parent as [p|]; [|discriminate]. cbv zeta.
  assert (forall a b, includes (js ">>") (a ++ js " >> " ++ b) = true) as Hin.
  { intros a b. apply includes_app_r.
    change (js " >> " ++ b) with (32%N :: (js ">> " ++ b)).
    apply (includes_app_r (js ">>") [32%N]). apply includes_here. reflexivity. }
  destruct (truthy _ && _ && _).
  - intros H. apply SelectorFacts.some_eq in H. subst r.
    rewrite SynthesizerFacts.fst_bind_log. cbn [ret fst].
    unfold isPlaywrightSelectorUnique. rewrite Hin. reflexivity.
  - destruct (truthy (id doc p)); [|apply IH].
    intros H. apply SelectorFacts.some_eq in H. subst r.
    rewrite SynthesizerFacts.fst_bind_log. cbn [ret fst].
    unfold isPlaywrightSelectorUnique.
    rewrite (app_assoc (js "#") (id doc p)), Hin. reflexivity.
Qed.

Lemma contextual_unique_witness :
  isPlaywrightSelectorUnique MiniDom.querySelectorAll Pages.twoForms
    (fst (Design.compoundSelector (js "section") (js "Billing")
                                  (js "button") (js "Submit"),
          [logPrefix ++ js "Testing contextual selector: "
           ++ Design.compoundSelector (js "section") (js "Billing")
                                      (js "button") (js "Submit")]))
  = true.
Proof.
  apply (contextual_selectors_are_taken_for_unique MiniDom.querySelectorAll
           Pages.checkout Pages.twoForms (js "button") (js "Submit")
           (js "Submit") 5 (Some [Child 0; Child 1])).
  vm_compute. reflexivity.
Defined.

End QuotingFacts.

Module VersionFacts.

Import Js Dom VersionDefs.

Section Versions.

Variable querySelectorAll : Document -> JsString -> option (list Element).

Lemma noValidIdAbove_parent doc s p :
  noValidIdAbove doc (s :: p) -> noValidIdAbove doc p.
Proof. intros H k. apply (H (S k)). Qed.

Lemma positionPath_cssPath doc left : forall current path,
  (forall c, current = Some c -> noValidIdAbove doc c) ->
  Tagger.positionPath querySelectorAll doc left current path
  = TaggerV3.cssPath querySelectorAll doc left current path.
Proof.
  induction left as [|left IH]; intros current path H; [reflexivity|].
  cbn [Tagger.positionPath TaggerV3.cssPath].
  destruct current as [cur|]; [|reflexivity].
  pose proof (H cur eq_refl 0%nat) as H0. cbn [skipn] in H0. rewrite H0.
  cbv zeta.
  match goal with
  | |- (if ?b then _ else _) = _ => destruct b; [reflexivity|]
  end.
  apply IH. intros c Hc. destruct cur as [|[i|i] p]; try discriminate.
  cbn [parentElement] in Hc. apply SelectorFacts.some_eq in Hc. subst c.
  apply (noValidIdAbove_parent doc (Child i) p (H _ eq_refl)).
Qed.

End Versions.

(** X19. Where no element from the element up to the root has a valid
    id, the position-based selector of version 4.0 is the CSS path of
    version 3.0. *)
Theorem position_selector_is_css_path_without_ids :
  forall (querySelectorAll : Document -> JsString -> option (list Element))
         (doc : Document) (el : Element),
    noValidIdAbove doc el ->
    fst (Tagger.buildPositionBasedSelector querySelectorAll doc el)
    = TaggerV3.buildCSSPath querySelectorAll doc el.
Proof.
  intros q doc el H. unfold Tagger.buildPositionBasedSelector.
  rewrite SynthesizerFacts.fst_bind_log. cbn [Tagger.ret fst].
  unfold TaggerV3.buildCSSPath. f_equal.
  apply positionPath_cssPath. intros c Hc. apply SelectorFacts.some_eq in Hc. subst c. exact H.
Qed.

(** X20. Version 3.0 returns the text selector of a button or an anchor
    without testing it, so two such elements with the same tag and the same
    direct text, which no id, name or data attribute identifies, get the
    same selector. *)
Theorem v3_same_text_elements_share_a_selector :
  forall (querySelectorAll : Document -> JsString -> option (list Element))
         (doc : Document) (a b : Element),
    unidentified querySelectorAll doc a ->
    unidentified querySelectorAll doc b ->
    tagName doc a = tagName doc b ->
    toLowerCase (tagName doc a) = js "button"
    \/ toLowerCase (tagName doc a) = js "a" ->
    TaggerV3.getDirectText doc a = TaggerV3.getDirectText doc b ->
    (0 < List.length (TaggerV3.getDirectText doc a) < 100)%nat ->
    TaggerV3.getUniversalSelector querySelectorAll doc a
    = Tagger.hasText (toLowerCase (tagName doc a))
                     (escapeQuotes (TaggerV3.getDirectText doc a))
    /\ TaggerV3.getUniversalSelector querySelectorAll doc b
       = TaggerV3.getUniversalSelector querySelectorAll doc a.
Proof.
  intros q doc a b (A1 & A2 & A3) (B1 & B2 & B3) Htag Hkind Htext [Hlo Hhi].
  assert (forall e,
             tagName doc e = tagName doc a ->
             TaggerV3.getDirectText doc e = TaggerV3.getDirectText doc a ->
             TaggerV3.textStrategy doc e
             = Some (Tagger.hasText (toLowerCase (tagName doc a))
                       (escapeQuotes (TaggerV3.getDirectText doc a)))) as Ht.
  { intros e Et Ex. unfold TaggerV3.textStrategy. cbv zeta. rewrite Ex, Et.
    assert (truthy (TaggerV3.getDirectText doc a) = true) as ->
      by (destruct (TaggerV3.getDirectText doc a); [cbn in Hlo; lia | reflexivity]).
    assert ((0 <? List.length (TaggerV3.getDirectText doc a))%nat = true) as ->
      by (apply Nat.ltb_lt; exact Hlo).
    assert ((List.length (TaggerV3.getDirectText doc a) <? 100)%nat = true) as ->
      by (apply Nat.ltb_lt; exact Hhi).
    cbn [andb].
    assert (eqb (toLowerCase (tagName doc a)) (js "button")
            || eqb (toLowerCase (tagName doc a)) (js "a") = true) as ->.
    { apply orb_true_iff.
      destruct Hkind as [E|E]; [left|right]; apply SynthesizerFacts.eqb_eq; exact E. }
    reflexivity. }
  unfold TaggerV3.getUniversalSelector.
  rewrite A1, A2, A3, B1, B2, B3. cbn [TaggerV3.orNext].
  rewrite (Ht a eq_refl eq_refl), (Ht b (eq_sym Htag) (eq_sym Htext)).
  split; reflexivity.
Qed.

Lemma v3_same_text_witness :
  TaggerV3.getUniversalSelector MiniDom.querySelectorAll Pages.checkout
    Pages.billingSubmit
  = Tagger.hasText (toLowerCase (tagName Pages.checkout Pages.billingSubmit))
      (escapeQuotes (TaggerV3.getDirectText Pages.checkout Pages.billingSubmit))
  /\ TaggerV3.getUniversalSelector MiniDom.querySelectorAll Pages.checkout
       Pages.shippingSubmit
     = TaggerV3.getUniversalSelector MiniDom.querySelectorAll Pages.checkout
         Pages.billingSubmit.
Proof.
  apply (v3_same_text_elements_share_a_selector MiniDom.querySelectorAll
           Pages.checkout Pages.billingSubmit Pages.shippingSubmit).
  - repeat split; vm_compute; reflexivity.
  - repeat split; vm_compute; reflexivity.
  - vm_compute. reflexivity.
  - left. vm_compute. reflexivity.
  - vm_compute. reflexivity.
  - vm_compute. lia.
Defined.

Lemma position_selector_witness :
  fst (Tagger.buildPositionBasedSelector MiniDom.querySelectorAll Pages.checkout
         Pages.billingSubmit)
  = TaggerV3.buildCSSPath MiniDom.querySelectorAll Pages.checkout
      Pages.billingSubmit.
Proof.
  apply (position_selector_is_css_path_without_ids MiniDom.querySelectorAll
           Pages.checkout Pages.billingSubmit).
  intros k. do 4 (destruct k as [|k]; [vm_compute; reflexivity|]).
  destruct k; vm_compute; reflexivity.
Defined.

End VersionFacts.

Module ScanV3Facts.

Import Js Dom Design Notions NumberingDefs ScanV3.

Section Numbering.

Variable querySelectorAll : Document -> JsString -> option (list Element).
Variable d0 : Document.
Hypothesis Hbody : body d0 <> None.

Lemma tagElementsV3_from els : forall done st,
  preserved d0 (scanDocument st) ->
  (forall el, In el els -> exists n, nodeAt d0 el = Some n) ->
  idCounter st = (1 + N.of_nat (List.length done))%N ->
  map fst (elementMap st) = logicalIds (List.length done) ->
  map (fun kv => tagAndAttributes (snd kv)) (elementMap st)
  = map (fun el => tagAndAttributes (TaggerV3.extractElementProfile d0 el)) done ->
  exists st',
    Tagger.forEach (tagElement querySelectorAll) els st = Some st'
    /\ let all := done ++ filter (fun el => Tagger.isVisible (propsOf d0 el)) els in
       map fst (elementMap st') = logicalIds (List.length all)
       /\ map (fun kv => tagAndAttributes (snd kv)) (elementMap st')
          = map (fun el => tagAndAttributes (TaggerV3.extractElementProfile d0 el))
                all.
Proof.
  induction els as [|el els IH]; intros done st P Hels Hc Hk Hs.
  - exists st. cbn [Tagger.forEach filter]. rewrite app_nil_r. auto.
  - destruct (Hels el (or_introl eq_refl)) as (n & Hn).
    destruct (DocumentFacts.preserved_shell d0 (scanDocument st) P el n Hn)
      as (Ht & Ha & Hp & _).
    assert (forall e, In e els -> exists n, nodeAt d0 e = Some n) as Hrest
      by (intros e He; apply Hels; right; exact He).
    cbn [Tagger.forEach filter]. unfold tagElement at 1. cbv zeta. rewrite Hp.
    destruct (Tagger.isVisible (propsOf d0 el)) eqn:Ev; cbn [negb].
    + destruct (DocumentFacts.appendToBody_defined (scanDocument st)
                  (Tagger.overlayNode (numberToString (idCounter st))))
        as (doc1 & Happ); [rewrite (proj1 P); exact Hbody|].
      rewrite Happ.
      assert (preserved d0 doc1) as P1.
      { apply DocumentFacts.preserved_trans with (d2 := scanDocument st); [exact P|].
        apply (DocumentFacts.appendToBody_preserved (scanDocument st)
                 (Tagger.overlayNode (numberToString (idCounter st))) doc1);
          [reflexivity | exact Happ]. }
      assert (~ In (numberToString (idCounter st)) (map fst (elementMap st))) as Hfresh.
      { rewrite Hk. unfold logicalIds. intros Hin.
        apply in_map_iff in Hin as (x & Hx & Hin).
        apply NumberingFacts.numberToString_inj in Hx. subst x.
        apply NumberingFacts.idsFrom_range in Hin. lia. }
      destruct (IH (done ++ [el])
                  (mkScan doc1
                     (objSet (elementMap st) (numberToString (idCounter st))
                        (withSelector
                           (TaggerV3.extractElementProfile (scanDocument st) el)
                           (TaggerV3.getUniversalSelector querySelectorAll
                              (scanDocument st) el)))
                     (idCounter st + 1)))
        as (st' & Hf & H').
      * exact P1.
      * exact Hrest.
      * cbn [idCounter]. rewrite length_app. cbn [List.length]. lia.
      * cbn [elementMap].
        rewrite (NumberingFacts.objSet_fresh _ _ _ Hfresh), map_app, Hk.
        rewrite length_app. cbn [List.length map fst]. rewrite Nat.add_1_r.
        unfold logicalIds. rewrite NumberingFacts.idsFrom_snoc, map_app. cbn [map].
        rewrite Hc. reflexivity.
      * cbn [elementMap].
        rewrite (NumberingFacts.objSet_fresh _ _ _ Hfresh), !map_app, Hs.
        cbn [map snd]. f_equal. f_equal.
        unfold tagAndAttributes, withSelector, TaggerV3.extractElementProfile,
          Tagger.dataAttributeValues, Tagger.keyAttributeValues, getAttribute.
        cbn [TaggerV3.tag TaggerV3.profileAttributes]. rewrite Ht, Ha. reflexivity.
      * exists st'. split; [exact Hf|].
        cbv zeta in H' |- *. rewrite <- app_assoc in H'. exact H'.
    + apply IH; assumption.
Qed.

End Numbering.

(** X21. On a document with a body, step 1 of version 3.0 and step 1 of
    version 4.0 store the same elements under the same LogicalIDs, with the
    same tag and the same attributes. *)
Theorem both_versions_give_the_same_logical_ids :
  forall (querySelectorAll : Document -> JsString -> option (list Element))
         (doc : Document),
    body (removeOverlays doc) <> None ->
    exists (v3 : ScanV3.Scan) (v4 : Tagger.Scan),
      ScanV3.tagElements querySelectorAll doc = Some v3
      /\ Tagger.tagElements querySelectorAll doc = Some v4
      /\ map fst (ScanV3.elementMap v3) = map fst (Tagger.elementMap v4)
      /\ map (fun kv => tagAndAttributes (snd kv)) (ScanV3.elementMap v3)
         = map (fun kv => tagAndAttributesV4 (snd kv)) (Tagger.elementMap v4).
Proof.
  intros q doc Hb.
  destruct (NumberingFacts.tagElements_numbered q doc Hb)
    as (v4 & E4 & _ & K4 & _ & S4).
  destruct (tagElementsV3_from q (removeOverlays doc) Hb
              (Tagger.getAllElementsIncludingShadow (removeOverlays doc)) []
              (mkScan (removeOverlays doc) [] 1))
    as (v3 & E3 & K3 & S3).
  - apply DocumentFacts.preserved_refl.
  - intros el Hin. apply CollectorFacts.collected_matches in Hin as (n & Hn & _).
    eauto.
  - reflexivity.
  - reflexivity.
  - reflexivity.
  - exists v3, v4. cbn [app] in K3, S3. fold (visibleSet (removeOverlays doc)) in K3, S3.
    split; [exact E3|]. split; [exact E4|]. split; [congruence|].
    rewrite S3.
    apply (f_equal (map (fun x : JsString * JsString * JsObject JsString =>
                           (fst (fst x), snd x)))) in S4.
    rewrite !map_map in S4. cbn [shellOf fst snd] in S4.
    unfold tagAndAttributesV4. rewrite S4. reflexivity.
Qed.

Lemma both_versions_witness :
  exists (v3 : ScanV3.Scan) (v4 : Tagger.Scan),
    ScanV3.tagElements MiniDom.querySelectorAll Pages.twoForms = Some v3
    /\ Tagger.tagElements MiniDom.querySelectorAll Pages.twoForms = Some v4
    /\ map fst (ScanV3.elementMap v3) = map fst (Tagger.elementMap v4)
    /\ map (fun kv => tagAndAttributes (snd kv)) (ScanV3.elementMap v3)
       = map (fun kv => tagAndAttributesV4 (snd kv)) (Tagger.elementMap v4).
Proof.
  apply (both_versions_give_the_same_logical_ids MiniDom.querySelectorAll
           Pages.twoForms).
  vm_compute. discriminate.
Defined.

End ScanV3Facts.

Module EntryFacts.

Import Js Dom Tagger Design Notions.

Lemma letter_not_digit (k : N) :
  (k < 65487)%N -> isDigit ((97 + k) mod 65536) = false.
Proof.
  intros Hk. unfold isDigit.
  destruct (N.ltb_spec (97 + k) 65536) as [Hs|Hl].
  - rewrite N.mod_small by exact Hs. apply andb_false_iff. right.
    apply N.leb_gt. lia.
  - assert ((97 + k) mod 65536 = 97 + k - 65536)%N as ->.
    { symmetry. apply (N.mod_unique _ _ 1); lia. }
    apply andb_false_iff. left. apply N.leb_gt. lia.
Qed.

Lemma string_of_uint_digits d :
  forallb isDigit (js (NilEmpty.string_of_uint d)) = true.
Proof.
  induction d; cbn [NilEmpty.string_of_uint]; try reflexivity;
    unfold js in *; cbn [list_ascii_of_string map forallb];
    rewrite IHd; reflexivity.
Qed.

Lemma numberToString_digits j : forallb isDigit (numberToString j) = true.
Proof. apply string_of_uint_digits. Qed.

Lemma optionId_not_number sid k j :
  (k < 65487)%N -> eqb (optionId sid k) (numberToString j) = false.
Proof.
  intros Hk. destruct (eqb _ _) eqn:E; [|reflexivity].
  apply SynthesizerFacts.eqb_eq in E.
  pose proof (numberToString_digits j) as Hd. rewrite <- E in Hd.
  unfold optionId, fromCharCode in Hd. rewrite forallb_app in Hd.
  apply andb_true_iff in Hd as [_ Hd]. cbn [forallb] in Hd.
  rewrite (letter_not_digit k Hk) in Hd. discriminate.
Qed.

Lemma objGet_objSet_other {V : Type} (o : JsObject V) key (v : V) key' :
  eqb key key' = false -> objGet (objSet o key v) key' = objGet o key'.
Proof.
  intros Hne. induction o as [|[k w] o IH]; cbn [objSet objGet].
  - rewrite Hne. reflexivity.
  - destruct (eqb k key) eqn:E; cbn [objGet].
    + apply SynthesizerFacts.eqb_eq in E. subst k. rewrite Hne. reflexivity.
    + destruct (eqb k key'); [reflexivity | exact IH].
Qed.

Lemma tagOptions_keep_numbers sel sid ss options : forall st k st' k' j,
  forEach (tagOption sel sid ss) options (st, k) = Some (st', k') ->
  (k + N.of_nat (List.length options) <= 65487)%N ->
  objGet (elementMap st') (numberToString j)
  = objGet (elementMap st) (numberToString j).
Proof.
  induction options as [|o options IH]; intros st k st' k' j H Hk.
  - cbn [forEach] in H. injection H as <- _. reflexivity.
  - cbn [forEach] in H. unfold tagOption at 1 in H. cbv zeta in H.
    cbn [List.length] in Hk.
    destruct (skipsOption (scanDocument st) o).
    + apply (IH st k st' k' j H). lia.
    + destruct (appendToBody _ _) as [doc'|]; [|discriminate].
      rewrite (IH _ _ st' k' j H) by lia. cbn [elementMap].
      apply objGet_objSet_other. apply optionId_not_number. lia.
Qed.

(** X22. The option loop of a select with at most 65487 options changes
    no entry stored under a LogicalID: an option id ends in the code unit
    97 + k modulo 65536, which is no digit for k below 65487. *)
Theorem option_pass_changes_no_logical_id_entry :
  forall (querySelectorAll : Document -> JsString -> option (list Element))
         (st st' : Scan) (selectElement : Element),
    expandSelect querySelectorAll st selectElement = Some st' ->
    (N.of_nat (List.length (matching (scanDocument st) (isTagged (js "option"))
                              (descendants (scanDocument st) selectElement)))
     <= 65487)%N ->
    forall j : N,
      objGet (elementMap st') (numberToString j)
      = objGet (elementMap st) (numberToString j).
Proof.
  intros q st st' sel H Hn j. unfold expandSelect in H. cbv zeta in H.
  destruct (negb (isSelectVisible _)); [injection H as <-; reflexivity|].
  destruct (findSelectId _ _) as [sid|]; [|injection H as <-; reflexivity].
  destruct (negb (truthy sid)); [injection H as <-; reflexivity|].
  destruct (forEach _ _ _) as [[st1 k1]|] eqn:E; [|discriminate].
  injection H as <-.
  apply (tagOptions_keep_numbers _ _ _ _ _ _ _ _ j E). lia.
Qed.

Lemma option_pass_witness :
  objGet (elementMap (ScanPages.afterStepTwo Pages.countryForm))
         (numberToString 1)
  = objGet (elementMap (Pages.afterStepOne Pages.countryForm))
           (numberToString 1).
Proof.
  refine (option_pass_changes_no_logical_id_entry MiniDom.querySelectorAll
            (Pages.afterStepOne Pages.countryForm)
            (ScanPages.afterStepTwo Pages.countryForm) Pages.theSelect _ _ 1%N).
  - vm_compute. reflexivity.
  - apply N.leb_le. vm_compute. reflexivity.
Defined.

End EntryFacts.
